(** * Diabetes Prediction System: the non-UI core of [final.py]

    A shallow embedding of the form validator, the predictor wrapper, the
    result recorder, the batch predictor and the credential store, with the
    properties of the specification proved over it.

    Python objects that are mutated through a reference (the [values]
    dictionary) live in an explicit heap; files, the user table and what the
    program shows or logs are fields of one [World] that every operation
    threads through a state-and-exception monad. *)

From Stdlib Require Import ZArith QArith String Ascii List Bool.
From Stdlib Require Import DecimalString.
From stdpp Require Import base gmap strings list.

Local Open Scope Z_scope.
Local Open Scope string_scope.
Local Open Scope list_scope.

(** ** Python values *)

(** A binary64 float, by the rational it denotes.  Comparisons of floats are
    comparisons of these rationals; [NaN] compares false with everything. *)
Inductive pyfloat : Type :=
  | Finite (q : Q)
  | PosInf
  | NegInf
  | NaN.

Inductive pynum : Type :=
  | PyInt (z : Z)
  | PyFloat (x : pyfloat).

Inductive pyvalue : Type :=
  | VNum (n : pynum)
  | VStr (s : string).

Definition num_float (n : pynum) : pyfloat :=
  match n with
  | PyInt z => Finite (inject_Z z)
  | PyFloat x => x
  end.

(** [a <= b] on floats. *)
Definition float_le (a b : pyfloat) : bool :=
  match a, b with
  | NaN, _ | _, NaN => false
  | NegInf, _ => true
  | _, PosInf => true
  | Finite x, Finite y => Qle_bool x y
  | _, _ => false
  end.

(** Python compares an int with a float by their exact values. *)
Definition num_le (a b : pynum) : bool := float_le (num_float a) (num_float b).

(** [a == b] on floats; an infinity equals itself, [NaN] nothing. *)
Definition float_eq (a b : pyfloat) : bool :=
  match a, b with
  | Finite x, Finite y => Qeq_bool x y
  | PosInf, PosInf | NegInf, NegInf => true
  | _, _ => false
  end.

Definition float_lt (a b : pyfloat) : bool := float_le a b && negb (float_eq a b).

(** A [dict]: insertion-ordered, keys unique. *)
Abbreviation dict := (list (string * pyvalue)).

Fixpoint dict_get (d : dict) (k : string) : option pyvalue :=
  match d with
  | [] => None
  | (k', v) :: rest => if String.eqb k' k then Some v else dict_get rest k
  end.

(** [d[k] = v]: an existing key keeps its position, a new one goes last. *)
Fixpoint dict_set (d : dict) (k : string) (v : pyvalue) : dict :=
  match d with
  | [] => [(k, v)]
  | (k', v') :: rest =>
      if String.eqb k' k then (k', v) :: rest else (k', v') :: dict_set rest k v
  end.

Definition dict_keys (d : dict) : list string := map fst d.
Definition dict_values (d : dict) : list pyvalue := map snd d.

(** ** Exceptions *)

Inductive exc_class : Type :=
  | ValueError
  | KeyError
  | IndexError
  | OSError
  | SqliteError
  | OtherException.

Record exc : Type := Exc { exc_cls : exc_class; exc_msg : string }.

Definition is_ValueError (e : exc) : bool :=
  match exc_cls e with ValueError => true | _ => false end.

Definition is_SqliteError (e : exc) : bool :=
  match exc_cls e with SqliteError => true | _ => false end.

(** [except Exception] *)
Definition is_Exception (e : exc) : bool := true.

Inductive result (A : Type) : Type :=
  | Ok (a : A)
  | Raise (e : exc).
Arguments Ok {A} a.
Arguments Raise {A} e.

(** ** The world *)

(** A tabular file, as the records it holds; the first is the header. *)
Abbreviation csv_file := (list (list pyvalue)).

Record user_row : Type := UserRow {
  row_username : string;
  row_password : string;
  row_email : string;
  row_full_name : string
}.

Inductive event : Type :=
  | ShowError (title msg : string)
  | ShowInfo (title msg : string)
  | LogError (msg : string)
  | LogInfo (msg : string)
  | ResultWindow (outcome : string) (probability : pyfloat) (items : dict)
  | ModelPredict (X : list (list pyvalue))
  | ModelPredictProba (X : list (list pyvalue))
  | OpenForWrite (path : string).

Record World : Type := mkWorld {
  heap : list dict;
  fs : gmap string csv_file;
  (** what a write to a path fails with, when it fails *)
  write_fault : string -> option exc;
  (** how many records a write that fails gets into the file before it
      fails, [None] when it fails before the file is opened or created *)
  write_torn : string -> option nat;
  (** the [users] table of the database file, [None] before it is created *)
  users : option (list user_row);
  (** message boxes, result windows, log records, model calls and attempts
      to write a file, oldest first *)
  trace : list event
}.

Definition set_heap (h : list dict) (w : World) : World :=
  mkWorld h (fs w) (write_fault w) (write_torn w) (users w) (trace w).
Definition set_fs (f : gmap string csv_file) (w : World) : World :=
  mkWorld (heap w) f (write_fault w) (write_torn w) (users w) (trace w).
Definition set_users (u : option (list user_row)) (w : World) : World :=
  mkWorld (heap w) (fs w) (write_fault w) (write_torn w) u (trace w).
Definition add_event (e : event) (w : World) : World :=
  mkWorld (heap w) (fs w) (write_fault w) (write_torn w) (users w) (trace w ++ [e]).

(** ** The monad of statements *)

Definition M (A : Type) : Type := World -> result A * World.

Definition ret {A} (a : A) : M A := fun w => (Ok a, w).
Definition raise {A} (e : exc) : M A := fun w => (Raise e, w).
Definition bind {A B} (m : M A) (k : A -> M B) : M B :=
  fun w =>
    match m w with
    | (Ok a, w') => k a w'
    | (Raise e, w') => (Raise e, w')
    end.

Notation "'let*' x ':=' m 'in' k" := (bind m (fun x => k))
  (at level 10, x name, m at level 100, k at level 200).
Notation "m ';;' k" := (bind m (fun _ => k))
  (at level 100, k at level 200, right associativity).

(** [try: body except C as e: handler e], [C] given by the classes it catches. *)
Definition try_except {A} (body : M A) (catches : exc -> bool) (handler : exc -> M A) : M A :=
  fun w =>
    match body w with
    | (Ok a, w') => (Ok a, w')
    | (Raise e, w') => if catches e then handler e w' else (Raise e, w')
    end.

Definition emit (e : event) : M unit := fun w => (Ok tt, add_event e w).

Definition str_int (z : Z) : string := NilZero.string_of_int (Z.to_int z).

(** ** Regular expressions, for [re.match] *)

Inductive regex : Type :=
  | Void
  | Eps
  | Class (p : ascii -> bool)
  | Cat (r s : regex)
  | Alt (r s : regex)
  | Star (r : regex).

Fixpoint nullable (r : regex) : bool :=
  match r with
  | Void => false
  | Eps => true
  | Class _ => false
  | Cat r s => nullable r && nullable s
  | Alt r s => nullable r || nullable s
  | Star _ => true
  end.

(** The derivative of [r] by the character [c]. *)
Fixpoint deriv (c : ascii) (r : regex) : regex :=
  match r with
  | Void | Eps => Void
  | Class p => if p c then Eps else Void
  | Cat r s =>
      if nullable r then Alt (Cat (deriv c r) s) (deriv c s) else Cat (deriv c r) s
  | Alt r s => Alt (deriv c r) (deriv c s)
  | Star r => Cat (deriv c r) (Star r)
  end.

(** Does [r] match the whole of [s]? *)
Fixpoint fullmatch (r : regex) (s : string) : bool :=
  match s with
  | EmptyString => nullable r
  | String c rest => fullmatch (deriv c r) rest
  end.

Definition Plus (r : regex) : regex := Cat r (Star r).
Definition Opt (r : regex) : regex := Alt r Eps.
Definition Chr (c : ascii) : regex := Class (Ascii.eqb c).

Definition in_range (lo hi c : ascii) : bool :=
  (N_of_ascii lo <=? N_of_ascii c)%N && (N_of_ascii c <=? N_of_ascii hi)%N.

Definition one_of (cs : string) (c : ascii) : bool :=
  existsb (Ascii.eqb c) (list_ascii_of_string cs).

Definition is_alpha (c : ascii) : bool := in_range "a" "z" c || in_range "A" "Z" c.
Definition is_alnum (c : ascii) : bool := is_alpha c || in_range "0" "9" c.

(** A pattern [^ body $] under [re.match]: anchored at the start, and [$]
    (without MULTILINE) holds at the end of the string or just before a
    newline that ends it. *)
Definition re_match_anchored (body : regex) (s : string) : bool :=
  fullmatch (Cat body (Opt (Chr "010"))) s.

(** ** SHA-256, for [hashlib.sha256(...).hexdigest()] *)

Module Sha256.

Definition mask32 : Z := 4294967295.
Definition add32 (a b : Z) : Z := Z.land (a + b) mask32.
Definition rotr (n x : Z) : Z :=
  Z.land (Z.lor (Z.shiftr x n) (Z.shiftl x (32 - n))) mask32.
Definition not32 (x : Z) : Z := Z.lxor x mask32.

Definition Ch (x y z : Z) : Z := Z.lxor (Z.land x y) (Z.land (not32 x) z).
Definition Maj (x y z : Z) : Z :=
  Z.lxor (Z.lxor (Z.land x y) (Z.land x z)) (Z.land y z).
Definition Sigma0 (x : Z) : Z := Z.lxor (Z.lxor (rotr 2 x) (rotr 13 x)) (rotr 22 x).
Definition Sigma1 (x : Z) : Z := Z.lxor (Z.lxor (rotr 6 x) (rotr 11 x)) (rotr 25 x).
Definition sigma0 (x : Z) : Z := Z.lxor (Z.lxor (rotr 7 x) (rotr 18 x)) (Z.shiftr x 3).
Definition sigma1 (x : Z) : Z := Z.lxor (Z.lxor (rotr 17 x) (rotr 19 x)) (Z.shiftr x 10).

(** The first 64 primes. *)
Definition is_prime (n : Z) : bool :=
  forallb (fun d => negb (n mod d =? 0)%Z) (map Z.of_nat (seq 2 (Z.to_nat n - 2))).

Definition primes : list Z := List.filter is_prime (map Z.of_nat (seq 2 310)).

(** The integer part of the cube root, one bit at a time. *)
Definition cbrt (n : Z) : Z :=
  fold_left (fun r b => if ((r + 2 ^ b) ^ 3 <=? n)%Z then r + 2 ^ b else r)
    (map Z.of_nat (rev (seq 0 40))) 0.

(** The round constants: the first 32 bits of the fractional part of the
    cube root of each prime. *)
Definition K : list Z :=
  Eval vm_compute in map (fun p => Z.land (cbrt (p * 2 ^ 96)) mask32) primes.

(** The initial state: the same of the square roots of the first 8. *)
Definition H0 : list Z :=
  Eval vm_compute in map (fun p => Z.land (Z.sqrt (p * 2 ^ 64)) mask32) (firstn 8 primes).

(** Message padding: a one bit, zeros, and the bit length on 8 bytes. *)
Definition be_bytes (n : nat) (x : Z) : list Z :=
  map (fun i => Z.land (Z.shiftr x (8 * Z.of_nat i)) 255) (rev (seq 0 n)).

Definition pad (msg : list Z) : list Z :=
  let len := Z.of_nat (length msg) in
  let zeros := Z.to_nat ((55 - len) mod 64) in
  msg ++ [128] ++ repeat 0 zeros ++ be_bytes 8 (8 * len).

Fixpoint words_of (bs : list Z) : list Z :=
  match bs with
  | a :: b :: c :: d :: rest =>
      (Z.shiftl a 24 + Z.shiftl b 16 + Z.shiftl c 8 + d) :: words_of rest
  | _ => []
  end.

(** The message schedule, newest word first: [ws] holds W[t-1], W[t-2], ... *)
Fixpoint schedule (n : nat) (ws : list Z) : list Z :=
  match n with
  | O => ws
  | S n' =>
      let w i := nth i ws 0 in
      schedule n'
        (add32 (add32 (sigma1 (w 1%nat)) (w 6%nat))
               (add32 (sigma0 (w 14%nat)) (w 15%nat)) :: ws)
  end.

Definition round (st : list Z) (kw : Z * Z) : list Z :=
  match st with
  | [a; b; c; d; e; f; g; h] =>
      let t1 := add32 (add32 (add32 h (Sigma1 e)) (add32 (Ch e f g) (fst kw))) (snd kw) in
      let t2 := add32 (Sigma0 a) (Maj a b c) in
      [add32 t1 t2; a; b; c; add32 d t1; e; f; g]
  | _ => st
  end.

Definition compress (st : list Z) (block : list Z) : list Z :=
  let w := rev (schedule 48 (rev (words_of block))) in
  let st' := fold_left round (combine K w) st in
  map (fun p => add32 (fst p) (snd p)) (combine st st').

Fixpoint blocks (n : nat) (bs : list Z) : list (list Z) :=
  match n, bs with
  | S n', _ :: _ => firstn 64 bs :: blocks n' (skipn 64 bs)
  | _, _ => []
  end.

Definition digest (msg : list Z) : list Z :=
  let p := pad msg in
  fold_left compress (blocks (length p) p) H0.

Definition hex_digit (d : Z) : ascii :=
  nth (Z.to_nat d) (list_ascii_of_string "0123456789abcdef") "0"%char.

Definition hex_word (x : Z) : string :=
  string_of_list_ascii
    (map (fun i => hex_digit (Z.land (Z.shiftr x (4 * Z.of_nat i)) 15)) (rev (seq 0 8))).

Definition hexdigest (msg : list Z) : string :=
  String.concat "" (map hex_word (digest msg)).

End Sha256.

(** [s.encode()]: UTF-8, for characters up to U+00FF. *)
Definition encode (s : string) : list Z :=
  flat_map
    (fun c =>
       let n := Z.of_N (N_of_ascii c) in
       if (n <? 128)%Z then [n] else [(192 + Z.shiftr n 6)%Z; (128 + Z.land n 63)%Z])
    (list_ascii_of_string s).

(** ** What the program takes from its runtime *)

(** The builtins whose results depend on binary64 rounding or on the
    interpreter's hashing are not defined here; the program is read over any
    runtime that supplies them. *)
Record Runtime : Type := {
  (** [float(s)], [None] when it raises [ValueError] *)
  float_of_str : string -> option pyfloat;
  (** [str(x)] of a float *)
  str_float : pyfloat -> string;
  (** [repr(s)] of a string *)
  repr_str : string -> string;
  (** [str(s)] of a set of strings *)
  repr_set : gset string -> string
}.

(** The classifier loaded by [joblib.load]: class labels and, per row, the
    probability of each class. *)
Record Model : Type := {
  predict : list (list pyvalue) -> result (list Z);
  predict_proba : list (list pyvalue) -> result (list (list pyfloat))
}.

Record DataFrame : Type := mkDataFrame {
  columns : list string;
  rows : list (list pyvalue)
}.

Inductive write_mode : Type := ModeW | ModeA.

(** ** Heap, files and sequences *)

(** [{}] *)
Definition new_dict : M nat :=
  fun w => (Ok (length (heap w)), set_heap (heap w ++ [[]]) w).

Definition deref (r : nat) : M dict :=
  fun w =>
    match heap w !! r with
    | Some d => (Ok d, w)
    | None => (Raise (Exc OtherException "no such object"), w)
    end.

(** [r[k] = v], on the dictionary that [r] refers to. *)
Definition setitem (r : nat) (k : string) (v : pyvalue) : M unit :=
  fun w =>
    match heap w !! r with
    | Some d => (Ok tt, set_heap (<[r := dict_set d k v]> (heap w)) w)
    | None => (Raise (Exc OtherException "no such object"), w)
    end.

(** [d[k]] *)
Definition dict_getitem (d : dict) (k : string) : M pyvalue :=
  match dict_get d k with
  | Some v => ret v
  | None => raise (Exc KeyError k)
  end.

(** [l[i]] *)
Definition index {A} (l : list A) (i : nat) : M A :=
  match l !! i with
  | Some a => ret a
  | None => raise (Exc IndexError "index out of range")
  end.

Fixpoint mapM {A B} (f : A -> M B) (l : list A) : M (list B) :=
  match l with
  | [] => ret []
  | a :: rest =>
      let* b := f a in
      let* bs := mapM f rest in
      ret (b :: bs)
  end.

(** [Path(p).exists()] *)
Definition path_exists (p : string) : M bool :=
  fun w => (Ok (bool_decide (is_Some (fs w !! p))), w).

(** [pd.DataFrame([d])] *)
Definition DataFrame_of_record (d : dict) : DataFrame :=
  mkDataFrame (dict_keys d) [dict_values d].

(** [df.to_csv(p, mode=.., header=.., index=False)].  The file is opened
    (created in mode [a] when absent, emptied in mode [w]) and the records
    are written to it; a write that fails after the file is open leaves
    what it had written. *)
Definition to_csv (df : DataFrame) (p : string) (mode : write_mode) (header : bool) : M unit :=
  fun w =>
    let w0 := add_event (OpenForWrite p) w in
    let records := (if header then [map VStr (columns df)] else []) ++ rows df in
    let old := match mode with ModeA => default [] (fs w !! p) | ModeW => [] end in
    match write_fault w p with
    | Some e =>
        match write_torn w p with
        | None => (Raise e, w0)
        | Some k => (Raise e, set_fs (<[p := old ++ take k records]> (fs w)) w0)
        end
    | None => (Ok tt, set_fs (<[p := old ++ records]> (fs w)) w0)
    end.

Definition call_predict (m : Model) (X : list (list pyvalue)) : M (list Z) :=
  emit (ModelPredict X);;
  fun w => (predict m X, w).

Definition call_predict_proba (m : Model) (X : list (list pyvalue)) : M (list (list pyfloat)) :=
  emit (ModelPredictProba X);;
  fun w => (predict_proba m X, w).

Fixpoint col_index (cols : list string) (c : string) : option nat :=
  match cols with
  | [] => None
  | c' :: rest => if String.eqb c' c then Some O else option_map S (col_index rest c)
  end.

(** [df[cols]]; every row of a frame has a cell for each of its columns. *)
Definition df_select (df : DataFrame) (cols : list string) : M (list (list pyvalue)) :=
  let* idxs := mapM (fun c => match col_index (columns df) c with
                              | Some i => ret i
                              | None => raise (Exc KeyError c)
                              end) cols in
  ret (map (fun row => map (fun i => nth i row (VNum (PyFloat NaN))) idxs) (rows df)).

(** [df[name] = vals]: replaces the column when there is one of that name,
    and otherwise adds it after the last one; the rows of a frame that was
    read have been filled up to the header's length by then. *)
Definition df_setitem (df : DataFrame) (name : string) (vals : list pyvalue) : M DataFrame :=
  if negb (length vals =? length (rows df))%nat then
    raise (Exc ValueError "Length of values does not match length of index")
  else
    match col_index (columns df) name with
    | Some i =>
        ret (mkDataFrame (columns df)
               (map (fun rv => <[i := snd rv]> (fst rv)) (combine (rows df) vals)))
    | None =>
        ret (mkDataFrame (columns df ++ [name])
               (map (fun rv => fst rv ++ [snd rv]) (combine (rows df) vals)))
    end.

(** ** Reading a table *)

(** A cell that holds nothing: it reads as the float NaN, and NaN is written
    as a cell that holds nothing. *)
Definition NA : pyvalue := VNum (PyFloat NaN).

Definition is_NA (v : pyvalue) : bool :=
  match v with
  | VNum (PyFloat NaN) => true
  | _ => false
  end.

(** The words that [pd.read_csv] takes for a missing value. *)
Definition na_values : list string :=
  [""; "#N/A"; "#N/A N/A"; "#NA"; "-1.#IND"; "-1.#QNAN"; "-NaN"; "-nan"; "1.#IND";
   "1.#QNAN"; "<NA>"; "N/A"; "NA"; "NULL"; "NaN"; "None"; "n/a"; "nan"; "null"].

(** The words that it takes for booleans, when a column holds nothing else. *)
Definition true_values : list string := ["True"; "TRUE"; "true"].
Definition false_values : list string := ["False"; "FALSE"; "false"].

Definition read_cell (v : pyvalue) : pyvalue :=
  match v with
  | VStr s => if bool_decide (s ∈ na_values) then NA else v
  | VNum _ => v
  end.

(** A line with nothing on it is skipped. *)
Definition blank (record : list pyvalue) : bool :=
  match record with
  | [] | [VStr ""] => true
  | _ => false
  end.

(** A record with fewer cells than the header has names is filled up with
    missing values. *)
Definition pad (n : nat) (record : list pyvalue) : list pyvalue :=
  record ++ replicate (n - length record) NA.

Definition column (i : nat) (table : list (list pyvalue)) : list pyvalue :=
  map (fun record => nth i record NA) table.

(** The type that a column gets, from all of its cells. *)
Inductive dtype : Type := Int64 | Float64 | Boolean | Object.

Definition is_int (v : pyvalue) : bool :=
  match v with VNum (PyInt _) => true | _ => false end.

Definition is_num (v : pyvalue) : bool :=
  match v with VNum _ => true | VStr _ => false end.

Definition is_bool (v : pyvalue) : bool :=
  match v with
  | VStr s => bool_decide (s ∈ true_values ++ false_values)
  | VNum _ => is_NA v
  end.

Definition column_dtype (cells : list pyvalue) : dtype :=
  if forallb is_int cells then Int64
  else if forallb is_num cells then Float64
  else if forallb is_bool cells then Boolean
  else Object.

(** ** The program *)

Definition FIELD_RANGES : list (string * (pynum * pynum)) :=
  [ ("Pregnancies", (PyInt 0, PyInt 20));
    ("Glucose", (PyInt 0, PyInt 300));
    ("Blood Pressure", (PyInt 0, PyInt 200));
    ("Skin Thickness", (PyInt 0, PyInt 100));
    ("Insulin", (PyInt 0, PyInt 850));
    ("BMI", (PyInt 0, PyInt 70));
    ("Diabetes Pedigree", (PyInt 0, PyFloat (Finite (5 # 2))));
    ("Age", (PyInt 0, PyInt 120)) ].

Definition keys {A} (d : list (string * A)) : list string := map fst d.

Fixpoint lookup_range (d : list (string * (pynum * pynum))) (k : string)
  : option (pynum * pynum) :=
  match d with
  | [] => None
  | (k', r) :: rest => if String.eqb k' k then Some r else lookup_range rest k
  end.

(** [FIELD_RANGES[field]] *)
Definition FIELD_RANGES_getitem (field : string) : M (pynum * pynum) :=
  match lookup_range FIELD_RANGES field with
  | Some r => ret r
  | None => raise (Exc KeyError field)
  end.

Definition prediction_log : string := "diabetes_predictions.csv".

Section Program.

Context (rt : Runtime).
(** the global [model], [None] when loading failed *)
Context (model : option Model).

Definition str_num (n : pynum) : string :=
  match n with
  | PyInt z => str_int z
  | PyFloat x => str_float rt x
  end.

Definition repr_value (v : pyvalue) : string :=
  match v with
  | VNum n => str_num n
  | VStr s => repr_str rt s
  end.

Definition str_value (v : pyvalue) : string :=
  match v with
  | VNum n => str_num n
  | VStr s => s
  end.

Definition repr_dict (d : dict) : string :=
  "{" +:+ String.concat ", "
            (map (fun kv => repr_str rt (fst kv) +:+ ": " +:+ repr_value (snd kv)) d)
      +:+ "}".

(** [float(s)] *)
Definition py_float (s : string) : M pyfloat :=
  match float_of_str rt s with
  | Some x => ret x
  | None => raise (Exc ValueError ("could not convert string to float: " +:+ repr_str rt s))
  end.

(** A cell as a column of type [t] holds it: an integer beside a float or a
    missing value becomes a float, a number beside text stays the text that
    was read, a word for a boolean is that boolean. *)
Definition retype (t : dtype) (v : pyvalue) : pyvalue :=
  match t, v with
  | Float64, VNum (PyInt z) => VNum (PyFloat (Finite (inject_Z z)))
  | Boolean, VStr s => VStr (if bool_decide (s ∈ true_values) then "True" else "False")
  | Object, VNum n => if is_NA v then v else VStr (str_num n)
  | _, _ => v
  end.

Fixpoint retype_row (ts : list dtype) (record : list pyvalue) : list pyvalue :=
  match ts, record with
  | t :: ts', v :: record' => retype t v :: retype_row ts' record'
  | _, _ => record
  end.

(** The rows of the frame that is read from [records] under a header of [n]
    names: one cell per name, every column of one type.  Integers are taken
    to fit the 64 bits of their column, and cells beyond the header's
    length are left as they are. *)
Definition frame_rows (n : nat) (records : list (list pyvalue)) : list (list pyvalue) :=
  let table := map (fun record => pad n (map read_cell record))
                 (filter (fun record => negb (blank record)) records) in
  let dtypes := map (fun i => column_dtype (column i table)) (seq 0 n) in
  map (retype_row dtypes) table.

(** [pd.read_csv(p)] *)
Definition read_csv (p : string) : M DataFrame :=
  fun w =>
    match fs w !! p with
    | None =>
        (Raise (Exc OSError ("[Errno 2] No such file or directory: " +:+ repr_str rt p)), w)
    | Some [] => (Raise (Exc ValueError "No columns to parse from file"), w)
    | Some (header :: records) =>
        (Ok (mkDataFrame (map str_value header) (frame_rows (length header) records)), w)
    end.

(** The body of the loop of [validate_inputs], for one field and the text
    of its entry. *)
Definition validate_entry (values : nat) (field text : string) : M unit :=
  try_except
    (let* value := py_float text in
     let* range := FIELD_RANGES_getitem field in
     let min_val := fst range in
     let max_val := snd range in
     if negb (num_le min_val (PyFloat value) && num_le (PyFloat value) max_val) then
       raise (Exc ValueError
                (field +:+ " must be between " +:+ str_num min_val
                       +:+ " and " +:+ str_num max_val))
     else
       setitem values field (VNum (PyFloat value)))
    is_ValueError
    (fun e => raise (Exc ValueError ("Invalid " +:+ field +:+ ": " +:+ exc_msg e))).

Fixpoint validate_loop (values : nat) (items : list (string * string)) : M unit :=
  match items with
  | [] => ret tt
  | (field, text) :: rest =>
      validate_entry values field text;;
      validate_loop values rest
  end.

(** [entry_vars] is the text held by each entry of the form, in order. *)
Definition validate_inputs (entry_vars : list string) : M nat :=
  let* values := new_dict in
  validate_loop values (combine (keys FIELD_RANGES) entry_vars);;
  ret values.

Definition show_prediction_result (outcome : string) (probability : pyfloat)
    (values : nat) : M unit :=
  let* d := deref values in
  emit (ResultWindow outcome probability d).

Definition save_prediction (outcome : string) (values : nat) : M unit :=
  try_except
    (setitem values "Outcome" (VStr outcome);;
     let* d := deref values in
     let df := DataFrame_of_record d in
     let file_path := prediction_log in
     let* there := path_exists file_path in
     to_csv df file_path ModeA (negb there);;
     emit (LogInfo ("Prediction saved: " +:+ repr_dict d)))
    is_Exception
    (fun e =>
       emit (LogError ("Error saving prediction: " +:+ exc_msg e));;
       emit (ShowError "Save Error" ("Could not save prediction: " +:+ exc_msg e))).

Definition outcome_of (c : Z) : string :=
  if (c =? 1)%Z then "Diabetic" else "Non-Diabetic".

Definition predict_diabetes (entry_vars : list string) : M unit :=
  match model with
  | None => emit (ShowError "Error" "Model not loaded")
  | Some m =>
      try_except
        (let* values := validate_inputs entry_vars in
         let* d := deref values in
         let* row := mapM (dict_getitem d) (keys FIELD_RANGES) in
         let input_data := [row] in
         let* prediction := call_predict m input_data in
         let* proba := call_predict_proba m input_data in
         let* proba0 := index proba 0 in
         let* probability := index proba0 1 in
         let* c := index prediction 0 in
         let outcome := outcome_of c in
         show_prediction_result outcome probability values;;
         save_prediction outcome values)
        is_Exception
        (fun e =>
           if is_ValueError e then emit (ShowError "Input Error" (exc_msg e))
           else
             emit (LogError ("Prediction error: " +:+ exc_msg e));;
             emit (ShowError "Error" ("Prediction failed: " +:+ exc_msg e)))
  end.

Definition missing_columns (required have : list string) : gset string :=
  list_to_set required ∖ list_to_set have.

(** [input_file] and [save_path] are what the two file dialogs return,
    the empty string when the user cancels. *)
Definition batch_predict (input_file save_path : string) : M unit :=
  match model with
  | None => emit (ShowError "Error" "Model not loaded")
  | Some m =>
      try_except
        (if String.eqb input_file "" then ret tt
         else
           let* data := read_csv input_file in
           let required_columns := keys FIELD_RANGES in
           (if negb (forallb (fun col => bool_decide (col ∈ columns data)) required_columns)
            then
              let missing := missing_columns required_columns (columns data) in
              raise (Exc ValueError ("Missing required columns: " +:+ repr_set rt missing))
            else ret tt);;
           let* X := df_select data required_columns in
           let* predictions := call_predict m X in
           let* X' := df_select data required_columns in
           let* proba := call_predict_proba m X' in
           let* probabilities := mapM (fun r => index r 1) proba in
           let* data1 := df_setitem data "Predicted_Outcome"
                           (map (fun c => VNum (PyInt c)) predictions) in
           let* data2 := df_setitem data1 "Probability"
                           (map (fun p => VNum (PyFloat p)) probabilities) in
           if negb (String.eqb save_path "") then
             to_csv data2 save_path ModeW true;;
             emit (ShowInfo "Success" ("Batch predictions saved to " +:+ save_path))
           else ret tt)
        is_Exception
        (fun e =>
           emit (LogError ("Batch prediction error: " +:+ exc_msg e));;
           emit (ShowError "Error" ("Batch prediction failed: " +:+ exc_msg e)))
  end.

End Program.

(** ** The credential store *)

(** [cursor.execute("SELECT ... FROM users WHERE ...")]: the rows that
    satisfy the condition, in table order. *)
Definition sql_select (cond : user_row -> bool) : M (list user_row) :=
  fun w =>
    match users w with
    | None => (Raise (Exc SqliteError "no such table: users"), w)
    | Some table => (Ok (List.filter cond table), w)
    end.

(** [cursor.fetchone()] *)
Definition fetchone (found : list user_row) : option user_row := head found.

(** [INSERT INTO users ...]; [username] is the primary key. *)
Definition sql_insert (r : user_row) : M unit :=
  fun w =>
    match users w with
    | None => (Raise (Exc SqliteError "no such table: users"), w)
    | Some table =>
        if existsb (fun r' => String.eqb (row_username r') (row_username r)) table then
          (Raise (Exc SqliteError "UNIQUE constraint failed: users.username"), w)
        else (Ok tt, set_users (Some (table ++ [r])) w)
    end.

(** [with sqlite3.connect(...) as conn:] commits when the block ends
    normally and rolls the table back when it raises. *)
Definition with_connection {A} (body : M A) : M A :=
  fun w =>
    match body w with
    | (Ok a, w') => (Ok a, w')
    | (Raise e, w') => (Raise e, set_users (users w) w')
    end.

Module UserDatabase.

(** [CREATE TABLE IF NOT EXISTS users (...)] *)
Definition create_user_table : M unit :=
  fun w =>
    match users w with
    | None => (Ok tt, set_users (Some []) w)
    | Some _ => (Ok tt, w)
    end.

Definition hash_password (password : string) : string :=
  Sha256.hexdigest (encode password).

(** [[a-zA-Z0-9._%+-]+@[a-zA-Z0-9.-]+\.[a-zA-Z]{2,}] *)
Definition email_regex : regex :=
  Cat (Plus (Class (fun c => is_alnum c || one_of "._%+-" c)))
 (Cat (Chr "@")
 (Cat (Plus (Class (fun c => is_alnum c || one_of ".-" c)))
 (Cat (Chr ".")
 (Cat (Class is_alpha) (Cat (Class is_alpha) (Star (Class is_alpha))))))).

Definition validate_email (email : string) : bool :=
  re_match_anchored email_regex email.

Definition nonempty (s : string) : bool := negb (String.eqb s "").

Definition register_user (username password email full_name : string) : M bool :=
  if negb (forallb nonempty [username; password; email; full_name]) then
    emit (ShowError "Error" "All fields are required");;
    ret false
  else if (String.length username <? 4)%nat then
    emit (ShowError "Error" "Username must be at least 4 characters long");;
    ret false
  else if (String.length password <? 8)%nat then
    emit (ShowError "Error" "Password must be at least 8 characters long");;
    ret false
  else if negb (validate_email email) then
    emit (ShowError "Error" "Invalid email format");;
    ret false
  else
    try_except
      (with_connection
         (let* by_name := sql_select (fun r => String.eqb (row_username r) username) in
          match fetchone by_name with
          | Some _ =>
              emit (ShowError "Error" "Username already exists");;
              ret false
          | None =>
              let* by_email := sql_select (fun r => String.eqb (row_email r) email) in
              match fetchone by_email with
              | Some _ =>
                  emit (ShowError "Error" "Email already registered");;
                  ret false
              | None =>
                  let hashed_password := hash_password password in
                  sql_insert (UserRow username hashed_password email full_name);;
                  emit (ShowInfo "Success" "User registered successfully");;
                  ret true
              end
          end))
      is_SqliteError
      (fun e =>
         emit (ShowError "Database Error" ("Registration failed: " +:+ exc_msg e));;
         ret false).

Definition authenticate_user (username password : string) : M bool :=
  try_except
    (with_connection
       (let* found := sql_select (fun r => String.eqb (row_username r) username) in
        match fetchone found with
        | Some result =>
            if String.eqb (row_password result) (hash_password password) then ret true
            else
              emit (ShowError "Login Failed" "Invalid username or password");;
              ret false
        | None =>
            emit (ShowError "Login Failed" "Invalid username or password");;
            ret false
        end))
    is_SqliteError
    (fun e =>
       emit (ShowError "Database Error" ("Login failed: " +:+ exc_msg e));;
       ret false).

End UserDatabase.

Arguments UserDatabase.hash_password : simpl never.
Arguments UserDatabase.validate_email : simpl never.

(** What a failed login shows, whatever made it fail. *)
Definition login_failed : event := ShowError "Login Failed" "Invalid username or password".


(** ** The specification's reading of validation

    [validate] goes through the declared fields in order; an entry that is
    not a number is a [ParseError], a number outside the field's bounds a
    [RangeError]; the first failure is the result, and a vector is returned
    only when there is none. *)

Inductive validation_error : Type :=
  | ParseError (field text : string)
  | RangeError (field : string) (min max : pynum).

Section ValidationSpec.

Context (rt : Runtime).

Definition in_bounds (lo hi : pynum) (v : pyfloat) : bool :=
  num_le lo (PyFloat v) && num_le (PyFloat v) hi.

Definition entry_ok (lo hi : pynum) (text : string) : bool :=
  match float_of_str rt text with
  | Some v => in_bounds lo hi v
  | None => false
  end.

Fixpoint spec_validate (specs : list (string * (pynum * pynum))) (entries : list string)
  : validation_error + list (string * pyfloat) :=
  match specs, entries with
  | (field, (lo, hi)) :: specs', text :: entries' =>
      match float_of_str rt text with
      | None => inl (ParseError field text)
      | Some v =>
          if in_bounds lo hi v then
            match spec_validate specs' entries' with
            | inl err => inl err
            | inr vec => inr ((field, v) :: vec)
            end
          else inl (RangeError field lo hi)
      end
  | _, _ => inr []
  end.

(** The text of the [ValueError] that stands for each error. *)
Definition error_message (err : validation_error) : string :=
  match err with
  | ParseError field text =>
      "Invalid " +:+ field +:+ ": "
        +:+ ("could not convert string to float: " +:+ repr_str rt text)
  | RangeError field lo hi =>
      "Invalid " +:+ field +:+ ": "
        +:+ (field +:+ " must be between " +:+ str_num rt lo +:+ " and " +:+ str_num rt hi)
  end.

End ValidationSpec.

(** The feature vector as the dictionary that holds it. *)
Definition dict_of_vector (vec : list (string * pyfloat)) : dict :=
  map (fun fv => (fst fv, VNum (PyFloat (snd fv)))) vec.

(** What the loop has stored in [d] after the entries of [vec]. *)
Definition fill (d : dict) (vec : list (string * pyfloat)) : dict :=
  fold_left (fun d fv => dict_set d (fst fv) (VNum (PyFloat (snd fv)))) vec d.

(** ** The specification's reading of registration *)

Inductive registration_error : Type :=
  | MissingField
  | UsernameTooShort
  | PasswordTooShort
  | InvalidEmail
  | UsernameTaken
  | EmailTaken.

Definition error_text (err : registration_error) : string :=
  match err with
  | MissingField => "All fields are required"
  | UsernameTooShort => "Username must be at least 4 characters long"
  | PasswordTooShort => "Password must be at least 8 characters long"
  | InvalidEmail => "Invalid email format"
  | UsernameTaken => "Username already exists"
  | EmailTaken => "Email already registered"
  end.

(** The first rule that a registration breaks, in the order of the rules. *)
Definition first_violation (table : list user_row)
    (username password email full_name : string) : option registration_error :=
  if String.eqb username "" || String.eqb password "" || String.eqb email ""
     || String.eqb full_name "" then Some MissingField
  else if (String.length username <? 4)%nat then Some UsernameTooShort
  else if (String.length password <? 8)%nat then Some PasswordTooShort
  else if negb (UserDatabase.validate_email email) then Some InvalidEmail
  else if existsb (fun r => String.eqb (row_username r) username) table then Some UsernameTaken
  else if existsb (fun r => String.eqb (row_email r) email) table then Some EmailTaken
  else None.

(** Every stored password is the digest of a password that registration
    accepts. *)
Definition hashed_at_rest (w : World) : Prop :=
  forall table, users w = Some table ->
    Forall (fun r => exists password,
                row_password r = UserDatabase.hash_password password /\
                (8 <= String.length password)%nat) table.

(** ** What an operation leaves alone *)

(** From [w] to [w']: the user table and the write faults are the same, no
    file changed but those at [paths], and the trace only grew. *)
Definition frame (paths : list string) (w w' : World) : Prop :=
  users w' = users w /\
  write_fault w' = write_fault w /\
  (forall p, ~ In p paths -> fs w' !! p = fs w !! p) /\
  (exists more, trace w' = trace w ++ more).

Definition keeps {A} (paths : list string) (m : M A) : Prop :=
  forall w, frame paths w (snd (m w)).

(** What [predict_diabetes] reports when the model raises [e]. *)
Definition prediction_failure (e : exc) : list event :=
  if is_ValueError e then [ShowError "Input Error" (exc_msg e)]
  else [LogError ("Prediction error: " +:+ exc_msg e);
        ShowError "Error" ("Prediction failed: " +:+ exc_msg e)].

(** ** Reading a batch *)

(** The cell of [row] under the column named [c]. *)
Definition cell (cols : list string) (row : list pyvalue) (c : string) : pyvalue :=
  nth (default O (col_index cols c)) row (VNum (PyFloat NaN)).

(** Cells that are read as they are written: an integer of 64 bits, a
    float, or text that is no number, no boolean and no missing value. *)
Definition plain_int (v : pyvalue) : bool :=
  match v with
  | VNum (PyInt z) => (- 2 ^ 63 <=? z)%Z && (z <? 2 ^ 63)%Z
  | _ => false
  end.

Definition plain_float (v : pyvalue) : bool :=
  match v with VNum (PyFloat _) => true | _ => false end.

Definition plain_text (rt : Runtime) (v : pyvalue) : bool :=
  match v with
  | VStr s =>
      negb (bool_decide (s ∈ na_values ++ true_values ++ false_values))
      && match float_of_str rt s with Some _ => false | None => true end
  | VNum _ => false
  end.

(** A column of one kind of cell. *)
Definition plain_column (rt : Runtime) (cells : list pyvalue) : bool :=
  forallb plain_int cells || forallb plain_float cells || forallb (plain_text rt) cells.

(** A table under a header of [n] names whose every record has [n] cells
    and whose every column is of one kind. *)
Definition plain_table (rt : Runtime) (n : nat) (records : list (list pyvalue)) : bool :=
  forallb (fun record => (length record =? n)%nat) records
  && forallb (fun i => plain_column rt (column i records)) (seq 0 n).

(** Each record with its class and its probability after it. *)
Fixpoint augment (records : list (list pyvalue)) (classes : list Z)
    (probabilities : list pyfloat) : list (list pyvalue) :=
  match records, classes, probabilities with
  | r :: records', c :: classes', p :: probabilities' =>
      (r ++ [VNum (PyInt c); VNum (PyFloat p)]) :: augment records' classes' probabilities'
  | _, _, _ => []
  end.

(** ** The life of the user table *)

(** One operation of the program, from the world before it to the world
    after it. *)
Inductive program_step (w : World) : World -> Prop :=
  | step_create :
      program_step w (snd (UserDatabase.create_user_table w))
  | step_register (username password email full_name : string) :
      program_step w
        (snd (UserDatabase.register_user username password email full_name w))
  | step_authenticate (username password : string) :
      program_step w (snd (UserDatabase.authenticate_user username password w))
  | step_predict (rt : Runtime) (model : option Model) (entry_vars : list string) :
      program_step w (snd (predict_diabetes rt model entry_vars w))
  | step_batch (rt : Runtime) (model : option Model) (input_file save_path : string) :
      program_step w (snd (batch_predict rt model input_file save_path w)).

Inductive program_steps (w : World) : World -> Prop :=
  | steps_none : program_steps w w
  | steps_more (w1 w2 : World) :
      program_steps w w1 -> program_step w1 w2 -> program_steps w w2.

(** A row that registration can have written. *)
Definition row_valid (r : user_row) : Prop :=
  (4 <= String.length (row_username r))%nat /\
  UserDatabase.validate_email (row_email r) = true /\
  row_full_name r <> "" /\
  exists password,
    row_password r = UserDatabase.hash_password password /\
    (8 <= String.length password)%nat.

Definition store_consistent (w : World) : Prop :=
  forall table, users w = Some table ->
    List.NoDup (map row_username table) /\
    List.NoDup (map row_email table) /\
    Forall row_valid table.

(** The four fields pass the checks that do not look at the table. *)
Definition well_formed (username password email full_name : string) : bool :=
  UserDatabase.nonempty username && UserDatabase.nonempty password
  && UserDatabase.nonempty email && UserDatabase.nonempty full_name
  && (4 <=? String.length username)%nat && (8 <=? String.length password)%nat
  && UserDatabase.validate_email email.

(** ** What a regular expression matches *)

Inductive matches : regex -> string -> Prop :=
  | matches_eps : matches Eps ""
  | matches_class (p : ascii -> bool) (c : ascii) :
      p c = true -> matches (Class p) (String c "")
  | matches_cat (r s : regex) (u v : string) :
      matches r u -> matches s v -> matches (Cat r s) (u +:+ v)
  | matches_alt_l (r s : regex) (u : string) : matches r u -> matches (Alt r s) u
  | matches_alt_r (r s : regex) (u : string) : matches s u -> matches (Alt r s) u
  | matches_star_nil (r : regex) : matches (Star r) ""
  | matches_star_more (r : regex) (u v : string) :
      matches r u -> matches (Star r) v -> matches (Star r) (u +:+ v).

Definition all_chars (p : ascii -> bool) (s : string) : bool :=
  forallb p (list_ascii_of_string s).

(** The characters of the part of an email before the [@], and of the part
    after it up to the last dot. *)
Definition local_char (c : ascii) : bool := is_alnum c || one_of "._%+-" c.
Definition domain_char (c : ascii) : bool := is_alnum c || one_of ".-" c.

Definition newline : string := String "010" "".

(** ** Digests as strings *)

(** The digits of a digest. *)
Definition hex_digits : list ascii := list_ascii_of_string "0123456789abcdef".

Definition lower_hex (c : ascii) : bool := one_of "0123456789abcdef" c.

(** Every string of [n] digits of a digest. *)
Fixpoint words (n : nat) : list string :=
  match n with
  | O => [""]
  | S n' => flat_map (fun c => map (String c) (words n')) hex_digits
  end.

(** ** The shell around the core

    The callbacks of the windows.  What they do to the windows themselves is
    not part of the world; what they start next is an argument. *)

Section Shell.

(** [joblib.load(path)] *)
Context (joblib_load : string -> result Model).

Definition load_model (model_path : string) : M (option Model) :=
  try_except
    (fun w =>
       (match joblib_load model_path with
        | Ok m => Ok (Some m)
        | Raise e => Raise e
        end, w))
    is_Exception
    (fun e =>
       emit (LogError ("Error loading model: " +:+ exc_msg e));;
       emit (ShowError "Error" ("Failed to load model: " +:+ exc_msg e));;
       ret None).

End Shell.

(** [reset_form], on the texts of the entries. *)
Definition reset_form (entry_vars : list string) : list string :=
  map (fun _ => "") entry_vars.

(** [LoginRegistrationApp.login_action], with the texts of its two entries. *)
Definition login_action (on_successful_login : M unit) (username password : string)
  : M unit :=
  let* ok := UserDatabase.authenticate_user username password in
  if ok then on_successful_login else ret tt.

(** [register_action], with the texts of its five entries. *)
Definition register_action (create_login_window : M unit)
    (username password confirm_password email full_name : string) : M unit :=
  if negb (String.eqb password confirm_password) then
    emit (ShowError "Error" "Passwords do not match")
  else
    let* registration_success :=
      UserDatabase.register_user username password email full_name in
    if registration_success then create_login_window else ret tt.

(** ** Themes *)

Record widget : Type := mkWidget {
  is_label : bool;
  widget_bg : string;
  widget_fg : string
}.

Record Windows : Type := mkWindows {
  window_bg : string;
  title_frame_bg : string;
  input_frame_bg : string;
  footer_frame_bg : string;
  (** [input_frame.winfo_children()]: the labels and the entries *)
  input_children : list widget;
  title_label : string * string;
  footer_label : string * string
}.

Definition apply_theme (bg fg input_bg input_fg : string) (g : Windows) : Windows :=
  mkWindows (window_bg g) bg bg bg
    (map (fun wd => if is_label wd then mkWidget true bg fg else wd) (input_children g))
    (bg, fg) (bg, fg).

Definition window_config (bg : string) (g : Windows) : Windows :=
  mkWindows bg (title_frame_bg g) (input_frame_bg g) (footer_frame_bg g)
    (input_children g) (title_label g) (footer_label g).

Definition set_dark_theme (g : Windows) : Windows :=
  apply_theme "#25446C" "white" "#1E1E1E" "white" (window_config "#25446C" g).

Definition set_light_theme (g : Windows) : Windows :=
  apply_theme "#FFFFFF" "black" "#F7F7F7" "black" (window_config "#FFFFFF" g).

Definition toggle_theme (g : Windows) : Windows :=
  if String.eqb (window_bg g) "#25446C" then set_light_theme g else set_dark_theme g.

(** Every frame and label has the colours of the theme. *)
Definition themed (bg fg : string) (g : Windows) : Prop :=
  window_bg g = bg /\ title_frame_bg g = bg /\ input_frame_bg g = bg /\
  footer_frame_bg g = bg /\ title_label g = (bg, fg) /\ footer_label g = (bg, fg) /\
  Forall (fun wd => is_label wd = true -> widget_bg wd = bg /\ widget_fg wd = fg)
    (input_children g).

(** ** A reference runtime

    One runtime and one classifier to run the program on: floats written as
    plain decimals, strings quoted as they are, sets printed in the order of
    their elements, and a classifier that looks at the glucose column. *)

Module Sample.

Definition digit (c : ascii) : option Z :=
  let n := Z.of_N (N_of_ascii c) in
  if ((48 <=? n) && (n <=? 57))%Z then Some (n - 48)%Z else None.

Fixpoint number (cs : list ascii) (acc : Z) : option Z :=
  match cs with
  | [] => Some acc
  | c :: rest =>
      match digit c with
      | Some d => number rest (10 * acc + d)%Z
      | None => None
      end
  end.

Fixpoint split_dot (cs : list ascii) : list ascii * option (list ascii) :=
  match cs with
  | [] => ([], None)
  | c :: rest =>
      if Ascii.eqb c "." then ([], Some rest)
      else let (a, b) := split_dot rest in (c :: a, b)
  end.

Definition unsigned (cs : list ascii) : option Q :=
  match split_dot cs with
  | ([], _) => None
  | (ip, None) => option_map inject_Z (number ip 0)
  | (ip, Some fp) =>
      match fp, number ip 0, number fp 0 with
      | _ :: _, Some i, Some f =>
          let scale := (10 ^ Z.of_nat (length fp))%Z in
          Some ((i * scale + f)%Z # Z.to_pos scale)
      | _, _, _ => None
      end
  end.

Definition parse_float (s : string) : option pyfloat :=
  match list_ascii_of_string s with
  | "-"%char :: rest => option_map (fun q => Finite (Qopp q)) (unsigned rest)
  | cs => option_map Finite (unsigned cs)
  end.

Fixpoint fraction (fuel : nat) (r d : Z) : string :=
  match fuel with
  | O => ""
  | S fuel' =>
      if (r =? 0)%Z then ""
      else str_int (10 * r / d) +:+ fraction fuel' ((10 * r) mod d) d
  end.

Definition show_float (x : pyfloat) : string :=
  match x with
  | PosInf => "inf"
  | NegInf => "-inf"
  | NaN => "nan"
  | Finite q =>
      let n := Z.abs (Qnum q) in
      let d := Zpos (Qden q) in
      let f := fraction 17 (n mod d) d in
      (if (Qnum q <? 0)%Z then "-" else "") +:+ str_int (n / d) +:+ "."
        +:+ (if String.eqb f "" then "0" else f)
  end.

Definition quote (s : string) : string := "'" +:+ s +:+ "'".

Definition show_set (s : gset string) : string :=
  "{" +:+ String.concat ", " (map quote (elements s)) +:+ "}".

Definition runtime : Runtime :=
  {| float_of_str := parse_float;
     str_float := show_float;
     repr_str := quote;
     repr_set := show_set |}.

Definition glucose_high (row : list pyvalue) : bool :=
  match nth 1 row (VStr "") with
  | VNum n => num_le (PyInt 140) n
  | VStr _ => false
  end.

Definition classifier : Model :=
  {| predict X := Ok (map (fun row => if glucose_high row then 1 else 0)%Z X);
     predict_proba X :=
       Ok (map (fun row => if glucose_high row
                           then [Finite (1 # 4); Finite (3 # 4)]
                           else [Finite (22 # 25); Finite (3 # 25)]) X) |}.

(** Nothing on disk, no database yet, every write succeeds. *)
Definition fresh : World := mkWorld [] ∅ (fun _ => None) (fun _ => None) None [].

Definition form : list string := ["2"; "120"; "70"; "20"; "80"; "25.0"; "0.5"; "30"].

(** The vector of [form]. *)
Definition vector : list (string * pyfloat) :=
  [ ("Pregnancies", Finite (2 # 1)); ("Glucose", Finite (120 # 1));
    ("Blood Pressure", Finite (70 # 1)); ("Skin Thickness", Finite (20 # 1));
    ("Insulin", Finite (80 # 1)); ("BMI", Finite (250 # 10));
    ("Diabetes Pedigree", Finite (5 # 10)); ("Age", Finite (30 # 1)) ].

(** Glucose at its maximum, and just above it. *)
Definition form_at_max : list string := ["2"; "300"; "70"; "20"; "80"; "25.0"; "0.5"; "30"].
Definition form_above_max : list string :=
  ["2"; "300.5"; "70"; "20"; "80"; "25.0"; "0.5"; "30"].

(** Two dictionaries that callers hold, at references 0 and 1. *)
Definition patients : World :=
  mkWorld [dict_of_vector vector; [("Glucose", VNum (PyFloat (Finite (150 # 1))))]]
    ∅ (fun _ => None) (fun _ => None) None [].

Definition denied : exc :=
  Exc OSError "[Errno 13] Permission denied: 'diabetes_predictions.csv'".

(** The same, where no file can be written. *)
Definition locked : World :=
  mkWorld (heap patients) ∅ (fun _ => Some denied) (fun _ => None) None [].

(** A database with its table, and with one and two accounts. *)
Definition database : World := snd (UserDatabase.create_user_table fresh).

Definition one_account : World :=
  snd (UserDatabase.register_user "alice" "password1" "alice@example.com" "Alice A"
         database).

Definition two_accounts : World :=
  snd (UserDatabase.register_user "bobby" "password1" "bobby@example.com" "Bob B"
         one_account).


(** A [float] that also reads the three words for values that are not
    finite, as Python's does. *)
Definition parse_special (s : string) : option pyfloat :=
  if String.eqb s "nan" then Some NaN
  else if String.eqb s "inf" then Some PosInf
  else if String.eqb s "-inf" then Some NegInf
  else parse_float s.

Definition runtime_special : Runtime :=
  {| float_of_str := parse_special;
     str_float := show_float;
     repr_str := quote;
     repr_set := show_set |}.

Definition form_with_nan : list string := ["2"; "nan"; "70"; "20"; "80"; "25.0"; "0.5"; "30"].

Definition form_with_text : list string := ["2"; "120"; "high"; "20"; "80"; "25.0"; "0.5"; "30"].

(** A classifier that refuses every input. *)
Definition refusing : Model :=
  {| predict X := Raise (Exc ValueError "X has 8 features, but the model expects 9");
     predict_proba X := Raise (Exc ValueError "X has 8 features, but the model expects 9") |}.

(** A table to score with the eight columns in another order, one column
    more, and a glucose that the form would refuse. *)
Definition batch_header : list pyvalue :=
  [VStr "Name"; VStr "Glucose"; VStr "Pregnancies"; VStr "Blood Pressure";
   VStr "Skin Thickness"; VStr "Insulin"; VStr "BMI"; VStr "Diabetes Pedigree"; VStr "Age"].

Definition batch_records : list (list pyvalue) :=
  [ [VStr "first"; VNum (PyInt 120); VNum (PyInt 1); VNum (PyInt 70); VNum (PyInt 20);
     VNum (PyInt 80); VNum (PyInt 25); VNum (PyFloat (Finite (1 # 2))); VNum (PyInt 33)];
    [VStr "second"; VNum (PyInt 500); VNum (PyInt 3); VNum (PyInt 80); VNum (PyInt 30);
     VNum (PyInt 90); VNum (PyInt 31); VNum (PyFloat (Finite (1 # 4))); VNum (PyInt 51)] ].

Definition full_table : World :=
  set_fs (<["in.csv" := batch_header :: batch_records]> ∅) fresh.

(** What the classifier sees of the two records. *)
Definition batch_input : list (list pyvalue) :=
  [ [VNum (PyInt 1); VNum (PyInt 120); VNum (PyInt 70); VNum (PyInt 20);
     VNum (PyInt 80); VNum (PyInt 25); VNum (PyFloat (Finite (1 # 2))); VNum (PyInt 33)];
    [VNum (PyInt 3); VNum (PyInt 500); VNum (PyInt 80); VNum (PyInt 30);
     VNum (PyInt 90); VNum (PyInt 31); VNum (PyFloat (Finite (1 # 4))); VNum (PyInt 51)] ].

Definition batch_proba : list (list pyfloat) :=
  [ [Finite (22 # 25); Finite (3 # 25)]; [Finite (1 # 4); Finite (3 # 4)] ].

(** A password of 64 characters, none of them a digit of a digest. *)
Definition capitals : string :=
  "ZZZZZZZZZZZZZZZZZZZZZZZZZZZZZZZZZZZZZZZZZZZZZZZZZZZZZZZZZZZZZZZZ".

Definition alice : user_row :=
  UserRow "alice" (UserDatabase.hash_password "password1") "alice@example.com" "Alice A".

Definition bobby : user_row :=
  UserRow "bobby" (UserDatabase.hash_password "password1") "bobby@example.com" "Bob B".

End Sample.

(** * Properties *)

(** ** Dictionaries *)

Lemma dict_get_set_eq (d : dict) (k : string) (v : pyvalue) :
  dict_get (dict_set d k v) k = Some v.
Proof.
  induction d as [|[k' v'] d IH]; simpl.
  - now rewrite String.eqb_refl.
  - destruct (String.eqb k' k) eqn:E; simpl; rewrite E; auto.
Qed.

Lemma dict_set_fresh (d : dict) (k : string) (v : pyvalue) :
  dict_get d k = None -> dict_set d k v = d ++ [(k, v)].
Proof.
  induction d as [|[k' v'] d IH]; simpl; auto.
  destruct (String.eqb k' k); [discriminate|].
  intros H. now rewrite IH.
Qed.

Lemma dict_get_of_vector (vec : list (string * pyfloat)) :
  forall (i : nat) (f : string) (v : pyfloat),
    List.NoDup (map fst vec) -> vec !! i = Some (f, v) ->
    dict_get (dict_of_vector vec) f = Some (VNum (PyFloat v)).
Proof.
  induction vec as [|[f' v'] vec IH]; intros i f v N H; [now destruct i|].
  inversion N as [|? ? Nf N']; subst. destruct i as [|i]; cbn in H |- *.
  - inversion H; subst. now rewrite String.eqb_refl.
  - destruct (String.eqb_spec f' f) as [->|_].
    + exfalso. apply Nf. apply (in_map fst vec (f, v)).
      apply list_elem_of_In. eapply list_elem_of_lookup_2, H.
    + eapply IH; eauto.
Qed.

(** ** Comparisons of floats *)

Lemma float_eq_le (x y : pyfloat) :
  float_eq x y = true -> float_le x y = true /\ float_le y x = true.
Proof.
  destruct x, y; cbn; try discriminate; auto.
  intros E. apply Qeq_bool_iff in E. split; apply Qle_bool_iff; rewrite E; apply Qle_refl.
Qed.

Lemma float_le_trans (x y z : pyfloat) :
  float_le x y = true -> float_le y z = true -> float_le x z = true.
Proof.
  destruct x, y, z; cbn; try discriminate; auto.
  intros A B. apply Qle_bool_iff in A, B. apply Qle_bool_iff. eapply Qle_trans; eauto.
Qed.

Lemma float_lt_not_ge (x y : pyfloat) :
  float_lt x y = true -> float_le y x = false.
Proof.
  unfold float_lt. destruct x, y; cbn; try discriminate; auto.
  intros H. apply andb_prop in H as [A B].
  apply Qle_bool_iff in A. apply negb_true_iff in B.
  destruct (Qle_bool q0 q) eqn:C; auto.
  apply Qle_bool_iff in C.
  assert (E : Qeq_bool q q0 = true) by (apply Qeq_bool_iff, Qle_antisym; auto).
  congruence.
Qed.

Lemma at_bound_in_bounds (lo hi : pynum) (v : pyfloat) :
  num_le lo hi = true ->
  float_eq v (num_float lo) = true \/ float_eq v (num_float hi) = true ->
  in_bounds lo hi v = true.
Proof.
  unfold in_bounds, num_le. cbn [num_float]. intros O [E|E];
    apply float_eq_le in E as [A B]; apply andb_true_intro; split; auto.
  - eapply float_le_trans; eauto.
  - eapply float_le_trans; eauto.
Qed.

Lemma outside_not_in_bounds (lo hi : pynum) (v : pyfloat) :
  float_lt v (num_float lo) = true \/ float_lt (num_float hi) v = true ->
  in_bounds lo hi v = false.
Proof.
  unfold in_bounds, num_le. cbn [num_float]. intros [L|L]; apply float_lt_not_ge in L;
    rewrite L; auto using andb_false_r.
Qed.

Lemma field_bounds_ordered (i : nat) (f : string) (lo hi : pynum) :
  FIELD_RANGES !! i = Some (f, (lo, hi)) -> num_le lo hi = true.
Proof.
  intros H.
  do 8 (destruct i as [|i]; [cbn in H; inversion H; subst; reflexivity|]).
  discriminate.
Qed.

(** ** Running statements *)

Lemma bind_ok {A B} (m : M A) (k : A -> M B) (w w' : World) (a : A) :
  m w = (Ok a, w') -> bind m k w = k a w'.
Proof. unfold bind. now intros ->. Qed.

(** ** The heap *)

Lemma heap_lookup_update (w : World) (r : nat) (d d' : dict) :
  heap w !! r = Some d -> <[r := d']> (heap w) !! r = Some d'.
Proof.
  intros H. apply list_lookup_insert_eq. eapply lookup_lt_Some, H.
Qed.

Section Recorder.

Context (rt : Runtime).

(** What one call of [save_prediction] does, whether the write succeeds or
    not. *)
Lemma save_prediction_run (w : World) (outcome : string) (values : nat) (d : dict) :
  heap w !! values = Some d ->
  let d' := dict_set d "Outcome" (VStr outcome) in
  let w1 := set_heap (<[values := d']> (heap w)) w in
  save_prediction rt outcome values w =
    let header :=
      if bool_decide (is_Some (fs w !! prediction_log)) then []
      else [map VStr (dict_keys d')] in
    match write_fault w prediction_log with
    | Some e =>
        let opened := add_event (OpenForWrite prediction_log) w1 in
        (Ok tt,
         add_event (ShowError "Save Error" ("Could not save prediction: " +:+ exc_msg e))
           (add_event (LogError ("Error saving prediction: " +:+ exc_msg e))
              match write_torn w prediction_log with
              | None => opened
              | Some k =>
                  set_fs (<[prediction_log :=
                              default [] (fs w !! prediction_log)
                                ++ take k (header ++ [dict_values d'])]> (fs w)) opened
              end))
    | None =>
        (Ok tt,
         add_event (LogInfo ("Prediction saved: " +:+ repr_dict rt d'))
           (set_fs (<[prediction_log :=
                        default [] (fs w !! prediction_log) ++ header ++ [dict_values d']]>
                      (fs w)) (add_event (OpenForWrite prediction_log) w1)))
    end.
Proof.
  intros H d' w1. subst d' w1.
  unfold save_prediction, try_except, bind, setitem.
  rewrite H.
  unfold deref. cbn [heap set_heap].
  rewrite (heap_lookup_update w values d _ H).
  unfold path_exists, to_csv. cbn [fs write_fault write_torn set_heap].
  destruct (write_fault w prediction_log) as [e|] eqn:F.
  - destruct (write_torn w prediction_log) as [k|]; cbn;
      destruct (bool_decide (is_Some (fs w !! prediction_log))); reflexivity.
  - cbn. destruct (bool_decide (is_Some (fs w !! prediction_log))); reflexivity.
Qed.

(** C7: a header record is written only when there is no file at the path,
    and each call appends one record, in call order; two calls from an
    absent path leave one header followed by the two records. *)
Theorem save_prediction_twice (w : World) (o1 o2 : string) (r1 r2 : nat) (d1 d2 : dict) :
  write_fault w prediction_log = None ->
  heap w !! r1 = Some d1 ->
  heap (snd (save_prediction rt o1 r1 w)) !! r2 = Some d2 ->
  let w1 := snd (save_prediction rt o1 r1 w) in
  let w2 := snd (save_prediction rt o2 r2 w1) in
  let d1' := dict_set d1 "Outcome" (VStr o1) in
  let d2' := dict_set d2 "Outcome" (VStr o2) in
  fs w1 !! prediction_log =
    Some (match fs w !! prediction_log with
          | None => [map VStr (dict_keys d1')]
          | Some old => old
          end ++ [dict_values d1']) /\
  fs w2 !! prediction_log =
    Some (match fs w !! prediction_log with
          | None => [map VStr (dict_keys d1')]
          | Some old => old
          end ++ [dict_values d1'; dict_values d2']) /\
  (fs w !! prediction_log = None ->
   fs w2 !! prediction_log =
     Some [map VStr (dict_keys d1'); dict_values d1'; dict_values d2']).
Proof.
  intros F H1 H2 w1 w2 d1' d2'.
  assert (E1 : fs w1 !! prediction_log =
               Some (match fs w !! prediction_log with
                     | None => [map VStr (dict_keys d1')]
                     | Some old => old
                     end ++ [dict_values d1']) /\
               write_fault w1 prediction_log = None).
  { subst w1. rewrite (save_prediction_run w o1 r1 d1 H1), F. cbn.
    rewrite lookup_insert_eq.
    destruct (fs w !! prediction_log) as [old|] eqn:E.
    - rewrite bool_decide_eq_true_2 by eauto. auto.
    - rewrite bool_decide_eq_false_2 by (intros [? ?]; discriminate). auto. }
  destruct E1 as [E1 F1].
  assert (E2 : fs w2 !! prediction_log =
               Some (match fs w !! prediction_log with
                     | None => [map VStr (dict_keys d1')]
                     | Some old => old
                     end ++ [dict_values d1'; dict_values d2'])).
  { subst w2. rewrite (save_prediction_run w1 o2 r2 d2 H2), F1. cbn.
    rewrite lookup_insert_eq, E1. cbn.
    now rewrite <- app_assoc. }
  split; [exact E1|]. split; [exact E2|].
  intros E. rewrite E2, E. reflexivity.
Qed.

(** C9, as the code has it: when the write fails, [save_prediction] does
    not raise; after the one attempt to write it logs the error, shows it
    in a message box and returns normally, and no file other than the
    prediction log is touched. *)
Theorem save_prediction_absorbs_write_failure
    (w : World) (outcome : string) (values : nat) (d : dict) (e : exc) :
  heap w !! values = Some d ->
  write_fault w prediction_log = Some e ->
  fst (save_prediction rt outcome values w) = Ok tt /\
  (forall p, p <> prediction_log ->
             fs (snd (save_prediction rt outcome values w)) !! p = fs w !! p) /\
  trace (snd (save_prediction rt outcome values w)) =
    trace w ++ [OpenForWrite prediction_log;
                LogError ("Error saving prediction: " +:+ exc_msg e);
                ShowError "Save Error" ("Could not save prediction: " +:+ exc_msg e)].
Proof.
  intros H F. rewrite (save_prediction_run w outcome values d H), F.
  destruct (write_torn w prediction_log) as [k|]; cbn.
  - split; [reflexivity|]. split; [|now repeat rewrite <- app_assoc].
    intros p N. now apply lookup_insert_ne.
  - split; [reflexivity|]. split; [reflexivity|]. now repeat rewrite <- app_assoc.
Qed.

End Recorder.

(** ** The form validator *)

Lemma insert_last {A} (l : list A) (x y : A) :
  <[length l := y]> (l ++ [x]) = l ++ [y].
Proof. induction l; simpl; congruence. Qed.

Lemma set_heap_same (w : World) (r : nat) (d : dict) :
  heap w !! r = Some d -> set_heap (<[r := d]> (heap w)) w = w.
Proof.
  intros H. rewrite list_insert_id by exact H. now destruct w.
Qed.

Section Validation.

Context (rt : Runtime).

(** One turn of the loop: parse, look the bounds up, compare, store. *)
Lemma validate_entry_run (w : World) (r : nat) (d : dict)
    (field text : string) (lo hi : pynum) :
  heap w !! r = Some d ->
  lookup_range FIELD_RANGES field = Some (lo, hi) ->
  validate_entry rt r field text w =
    match float_of_str rt text with
    | None => (Raise (Exc ValueError (error_message rt (ParseError field text))), w)
    | Some v =>
        if in_bounds lo hi v then
          (Ok tt, set_heap (<[r := dict_set d field (VNum (PyFloat v))]> (heap w)) w)
        else (Raise (Exc ValueError (error_message rt (RangeError field lo hi))), w)
    end.
Proof.
  intros H L.
  unfold validate_entry, try_except, bind, py_float, FIELD_RANGES_getitem.
  rewrite L.
  destruct (float_of_str rt text) as [v|]; [|reflexivity].
  cbn [ret fst snd]. unfold in_bounds.
  destruct (num_le lo (PyFloat v) && num_le (PyFloat v) hi); cbn [negb].
  - unfold setitem. now rewrite H.
  - reflexivity.
Qed.

Lemma validate_loop_run (specs : list (string * (pynum * pynum))) :
  forall (entries : list string) (w : World) (r : nat) (d : dict),
    heap w !! r = Some d ->
    (forall f rg, In (f, rg) specs -> lookup_range FIELD_RANGES f = Some rg) ->
    match spec_validate rt specs entries with
    | inl err =>
        exists d', validate_loop rt r (combine (keys specs) entries) w =
                   (Raise (Exc ValueError (error_message rt err)),
                    set_heap (<[r := d']> (heap w)) w)
    | inr vec =>
        validate_loop rt r (combine (keys specs) entries) w =
          (Ok tt, set_heap (<[r := fill d vec]> (heap w)) w)
    end.
Proof.
  induction specs as [|[field [lo hi]] specs IH]; intros entries w r d H L.
  - cbn. unfold ret. now rewrite set_heap_same.
  - destruct entries as [|text entries].
    + cbn. unfold ret. now rewrite set_heap_same.
    + cbn [spec_validate keys map combine fst validate_loop]. unfold bind.
      rewrite (validate_entry_run w r d field text lo hi H) by (apply L; now left).
      destruct (float_of_str rt text) as [v|].
      * destruct (in_bounds lo hi v).
        -- set (d1 := dict_set d field (VNum (PyFloat v))).
           set (w1 := set_heap (<[r := d1]> (heap w)) w).
           assert (H1 : heap w1 !! r = Some d1) by (apply (heap_lookup_update w r d d1 H)).
           specialize (IH entries w1 r d1 H1 (fun f rg I => L f rg (or_intror I))).
           fold (keys specs).
           destruct (spec_validate rt specs entries) as [err|vec].
           ++ destruct IH as [d' IH]. exists d'. rewrite IH. subst w1.
              unfold set_heap. cbn. now rewrite list_insert_insert_eq.
           ++ rewrite IH. subst w1. unfold set_heap. cbn.
              now rewrite list_insert_insert_eq.
        -- exists d. now rewrite set_heap_same.
      * exists d. now rewrite set_heap_same.
Qed.

Lemma field_ranges_lookup (f : string) (rg : pynum * pynum) :
  In (f, rg) FIELD_RANGES -> lookup_range FIELD_RANGES f = Some rg.
Proof.
  cbn. intros H.
  repeat (destruct H as [H|H]; [inversion H; subst; reflexivity|]).
  destruct H.
Qed.

(** [validate_inputs] against the specification's [validate]. *)
Lemma validate_inputs_run (entry_vars : list string) (w : World) :
  match spec_validate rt FIELD_RANGES entry_vars with
  | inl err =>
      exists d', validate_inputs rt entry_vars w =
                 (Raise (Exc ValueError (error_message rt err)),
                  set_heap (heap w ++ [d']) w)
  | inr vec =>
      validate_inputs rt entry_vars w =
        (Ok (length (heap w)), set_heap (heap w ++ [fill [] vec]) w)
  end.
Proof.
  unfold validate_inputs, bind, new_dict.
  set (w0 := set_heap (heap w ++ [[]]) w).
  assert (H0 : heap w0 !! length (heap w) = Some []).
  { subst w0. cbn. now rewrite lookup_app_r, Nat.sub_diag by lia. }
  pose proof (validate_loop_run FIELD_RANGES entry_vars w0 (length (heap w)) [] H0
                field_ranges_lookup) as R.
  destruct (spec_validate rt FIELD_RANGES entry_vars) as [err|vec].
  - destruct R as [d' R]. exists d'. rewrite R. subst w0. unfold set_heap. cbn.
    now rewrite insert_last.
  - rewrite R. subst w0. unfold set_heap, ret. cbn. now rewrite insert_last.
Qed.

(** What a returned vector says about the entries. *)
Lemma spec_validate_ok (specs : list (string * (pynum * pynum))) :
  forall (entries : list string) (vec : list (string * pyfloat)),
    spec_validate rt specs entries = inr vec ->
    length vec = Nat.min (length specs) (length entries) /\
    map fst vec = firstn (length vec) (keys specs) /\
    (forall (i : nat) f lo hi text,
        specs !! i = Some (f, (lo, hi)) -> entries !! i = Some text ->
        exists v, float_of_str rt text = Some v /\ in_bounds lo hi v = true /\
                  vec !! i = Some (f, v)).
Proof.
  induction specs as [|[field [lo hi]] specs IH]; intros entries vec E.
  - cbn in E. inversion E; subst. repeat split; auto. intros i ? ? ? ? H. now destruct i.
  - destruct entries as [|text entries].
    + cbn in E. inversion E; subst. repeat split; auto.
      intros i ? ? ? ? _ H. now destruct i.
    + cbn [spec_validate] in E.
      destruct (float_of_str rt text) as [v|] eqn:P; [|discriminate].
      destruct (in_bounds lo hi v) eqn:B; [|discriminate].
      destruct (spec_validate rt specs entries) as [err|vec'] eqn:R; [discriminate|].
      inversion E; subst. destruct (IH entries vec' R) as (L & K & A).
      split; [cbn; now rewrite L|]. split; [cbn; now rewrite K|].
      intros [|i] f lo' hi' text' Hs He; cbn in Hs, He.
      * inversion Hs; inversion He; subst. exists v. auto.
      * exact (A i f lo' hi' text' Hs He).
Qed.

(** What an error says: it is the error of the first entry, in the order
    of the fields, that does not validate. *)
Lemma spec_validate_err (specs : list (string * (pynum * pynum))) :
  forall (entries : list string) (err : validation_error),
    spec_validate rt specs entries = inl err ->
    exists (i : nat) f lo hi text,
      specs !! i = Some (f, (lo, hi)) /\ entries !! i = Some text /\
      (forall (j : nat) f' lo' hi' text',
          (j < i)%nat -> specs !! j = Some (f', (lo', hi')) ->
          entries !! j = Some text' -> entry_ok rt lo' hi' text' = true) /\
      entry_ok rt lo hi text = false /\
      err = match float_of_str rt text with
            | None => ParseError f text
            | Some _ => RangeError f lo hi
            end.
Proof.
  induction specs as [|[field [lo hi]] specs IH]; intros entries err E.
  - discriminate.
  - destruct entries as [|text entries]; [discriminate|].
    cbn [spec_validate] in E.
    destruct (float_of_str rt text) as [v|] eqn:P.
    + destruct (in_bounds lo hi v) eqn:B.
      * destruct (spec_validate rt specs entries) as [err'|vec'] eqn:R; [|discriminate].
        inversion E; subst.
        destruct (IH entries err R) as (i & f & lo' & hi' & t & Hs & He & Hb & Hn & Hr).
        exists (S i), f, lo', hi', t. repeat split; auto.
        intros [|j] f' lo'' hi'' t' Hj Hs' He'; cbn in Hs', He'.
        -- inversion Hs'; inversion He'; subst. unfold entry_ok. now rewrite P.
        -- apply (Hb j f' lo'' hi'' t'); auto. lia.
      * inversion E; subst. exists O, field, lo, hi, text. repeat split; auto.
        -- intros j ? ? ? ? Hj. lia.
        -- unfold entry_ok. now rewrite P.
        -- now rewrite P.
    + inversion E; subst. exists O, field, lo, hi, text. repeat split; auto.
      * intros j ? ? ? ? Hj. lia.
      * unfold entry_ok. now rewrite P.
      * now rewrite P.
Qed.

Lemma dict_get_absent (d : dict) (k : string) :
  ~ In k (map fst d) -> dict_get d k = None.
Proof.
  induction d as [|[k' v'] d IH]; cbn; auto.
  intros N. destruct (String.eqb_spec k' k); [tauto|]. apply IH. tauto.
Qed.

Lemma fill_fresh (vec : list (string * pyfloat)) :
  forall d : dict,
    List.NoDup (map fst d ++ map fst vec) -> fill d vec = d ++ dict_of_vector vec.
Proof.
  induction vec as [|[f v] vec IH]; intros d N; cbn.
  - now rewrite app_nil_r.
  - unfold fill in IH. cbn [fst snd].
    assert (A : dict_get d f = None).
    { apply dict_get_absent. intros I. apply List.NoDup_remove_2 in N.
      apply N, in_or_app. now left. }
    rewrite (dict_set_fresh d f _ A), IH.
    + now rewrite <- app_assoc.
    + rewrite map_app, <- app_assoc. exact N.
Qed.

Lemma field_names_distinct : List.NoDup (keys FIELD_RANGES).
Proof.
  cbn. repeat (constructor; [cbn; intuition discriminate|]). constructor.
Qed.

(** A full form that validates gives the dictionary of the eight fields. *)
Lemma validate_inputs_ok (entry_vars : list string) (w : World)
    (vec : list (string * pyfloat)) :
  length entry_vars = 8%nat ->
  spec_validate rt FIELD_RANGES entry_vars = inr vec ->
  validate_inputs rt entry_vars w =
    (Ok (length (heap w)), set_heap (heap w ++ [dict_of_vector vec]) w) /\
  map fst vec = keys FIELD_RANGES.
Proof.
  intros L E.
  destruct (spec_validate_ok FIELD_RANGES entry_vars vec E) as (Lv & K & _).
  rewrite L in Lv. cbn in Lv. rewrite Lv in K. cbn in K.
  pose proof (validate_inputs_run entry_vars w) as R. rewrite E in R.
  rewrite fill_fresh in R.
  - split; [exact R|exact K].
  - cbn [map app]. rewrite K. exact field_names_distinct.
Qed.

(** The two kinds of error never have the same text. *)
Lemma parse_error_is_not_range_error (f1 f2 text : string) (lo hi : pynum) :
  In f1 (keys FIELD_RANGES) -> In f2 (keys FIELD_RANGES) ->
  error_message rt (ParseError f1 text) <> error_message rt (RangeError f2 lo hi).
Proof.
  cbn. intros H1 H2.
  repeat (destruct H1 as [H1|H1]; [subst f1|]); try contradiction;
    repeat (destruct H2 as [H2|H2]; [subst f2|]); try contradiction;
    cbn; discriminate.
Qed.

Lemma validate_inputs_frame (entry_vars : list string) (w : World) :
  fs (snd (validate_inputs rt entry_vars w)) = fs w /\
  users (snd (validate_inputs rt entry_vars w)) = users w /\
  trace (snd (validate_inputs rt entry_vars w)) = trace w.
Proof.
  pose proof (validate_inputs_run entry_vars w) as R.
  destruct (spec_validate rt FIELD_RANGES entry_vars).
  - destruct R as [d' ->]. auto.
  - rewrite R. auto.
Qed.

(** C3: the fields are validated in the order of their declaration and the
    first one that fails ends validation with its own error, a parse error
    for text that is not a number and a range error, of another text, for
    a number out of bounds; nothing but the error comes back then, and the
    dictionary of all eight fields comes back only when every entry parses
    and is within its bounds. *)
Theorem validate_inputs_first_failure (entry_vars : list string) (w : World) :
  length entry_vars = 8%nat ->
  (fs (snd (validate_inputs rt entry_vars w)) = fs w /\
   users (snd (validate_inputs rt entry_vars w)) = users w /\
   trace (snd (validate_inputs rt entry_vars w)) = trace w) /\
  match spec_validate rt FIELD_RANGES entry_vars with
  | inl err =>
      fst (validate_inputs rt entry_vars w) = Raise (Exc ValueError (error_message rt err)) /\
      exists (i : nat) f lo hi text,
        FIELD_RANGES !! i = Some (f, (lo, hi)) /\ entry_vars !! i = Some text /\
        (forall (j : nat) f' lo' hi' text',
            (j < i)%nat -> FIELD_RANGES !! j = Some (f', (lo', hi')) ->
            entry_vars !! j = Some text' -> entry_ok rt lo' hi' text' = true) /\
        entry_ok rt lo hi text = false /\
        err = match float_of_str rt text with
              | None => ParseError f text
              | Some _ => RangeError f lo hi
              end
  | inr vec =>
      fst (validate_inputs rt entry_vars w) = Ok (length (heap w)) /\
      heap (snd (validate_inputs rt entry_vars w)) !! length (heap w)
        = Some (dict_of_vector vec) /\
      length vec = 8%nat /\
      map fst vec = keys FIELD_RANGES /\
      (forall (i : nat) f lo hi text,
          FIELD_RANGES !! i = Some (f, (lo, hi)) -> entry_vars !! i = Some text ->
          entry_ok rt lo hi text = true)
  end /\
  (forall (f1 f2 text : string) (lo hi : pynum),
      In f1 (keys FIELD_RANGES) -> In f2 (keys FIELD_RANGES) ->
      error_message rt (ParseError f1 text) <> error_message rt (RangeError f2 lo hi)).
Proof.
  intros L. split; [apply validate_inputs_frame|].
  split; [|apply parse_error_is_not_range_error].
  destruct (spec_validate rt FIELD_RANGES entry_vars) as [err|vec] eqn:E.
  - split.
    + pose proof (validate_inputs_run entry_vars w) as R. rewrite E in R.
      destruct R as [d' ->]. reflexivity.
    + exact (spec_validate_err FIELD_RANGES entry_vars err E).
  - destruct (validate_inputs_ok entry_vars w vec L E) as [R K].
    destruct (spec_validate_ok FIELD_RANGES entry_vars vec E) as (Lv & _ & A).
    rewrite R. cbn [fst snd heap set_heap].
    split; [reflexivity|]. split.
    { now rewrite lookup_app_r, Nat.sub_diag by lia. }
    split; [rewrite Lv, L; reflexivity|]. split; [exact K|].
    intros i f lo hi text Hs He.
    destruct (A i f lo hi text Hs He) as (v & P & B & _).
    unfold entry_ok. now rewrite P.
Qed.

(** C2: with the entries of the fields before it valid, an entry whose value
    is below the minimum or above the maximum of its field is rejected with
    the range error that names the field and both bounds; an entry whose
    value is exactly the minimum or the maximum is accepted and, when the
    entries after it are valid too, stored in the dictionary returned. *)
Theorem validate_inputs_bounds_inclusive (entry_vars : list string) (w : World)
    (i : nat) (field : string) (lo hi : pynum) (text : string) (v : pyfloat) :
  length entry_vars = 8%nat ->
  FIELD_RANGES !! i = Some (field, (lo, hi)) ->
  entry_vars !! i = Some text ->
  float_of_str rt text = Some v ->
  (forall (j : nat) f' lo' hi' text',
      (j < i)%nat -> FIELD_RANGES !! j = Some (f', (lo', hi')) ->
      entry_vars !! j = Some text' -> entry_ok rt lo' hi' text' = true) ->
  (float_eq v (num_float lo) = true \/ float_eq v (num_float hi) = true ->
   entry_ok rt lo hi text = true /\
   ((forall (j : nat) f' lo' hi' text',
        (i < j)%nat -> FIELD_RANGES !! j = Some (f', (lo', hi')) ->
        entry_vars !! j = Some text' -> entry_ok rt lo' hi' text' = true) ->
    exists d,
      fst (validate_inputs rt entry_vars w) = Ok (length (heap w)) /\
      heap (snd (validate_inputs rt entry_vars w)) !! length (heap w) = Some d /\
      dict_get d field = Some (VNum (PyFloat v)))) /\
  (float_lt v (num_float lo) = true \/ float_lt (num_float hi) v = true ->
   fst (validate_inputs rt entry_vars w) =
     Raise (Exc ValueError
              ("Invalid " +:+ field +:+ ": "
                 +:+ (field +:+ " must be between " +:+ str_num rt lo
                        +:+ " and " +:+ str_num rt hi)))).
Proof.
  intros L Hs He P Before. split; intros Hv.
  - assert (B : in_bounds lo hi v = true).
    { apply at_bound_in_bounds; auto. eapply field_bounds_ordered, Hs. }
    split; [unfold entry_ok; now rewrite P|]. intros After.
    destruct (spec_validate rt FIELD_RANGES entry_vars) as [err|vec] eqn:E.
    + exfalso.
      destruct (spec_validate_err FIELD_RANGES entry_vars err E)
        as (i' & f & lo' & hi' & t & Hs' & He' & _ & Hn & _).
      destruct (Nat.lt_trichotomy i' i) as [Lt|[->|Gt]].
      * rewrite (Before i' f lo' hi' t Lt Hs' He') in Hn. discriminate.
      * rewrite Hs in Hs'. rewrite He in He'. inversion Hs'; inversion He'; subst.
        unfold entry_ok in Hn. rewrite P in Hn. congruence.
      * rewrite (After i' f lo' hi' t Gt Hs' He') in Hn. discriminate.
    + destruct (validate_inputs_ok entry_vars w vec L E) as [R K].
      destruct (spec_validate_ok FIELD_RANGES entry_vars vec E) as (_ & _ & A).
      destruct (A i field lo hi text Hs He) as (v' & P' & _ & Hvec).
      rewrite P in P'. inversion P'; subst v'.
      exists (dict_of_vector vec). rewrite R. cbn [fst snd heap set_heap].
      split; [reflexivity|]. split.
      { now rewrite lookup_app_r, Nat.sub_diag by lia. }
      eapply dict_get_of_vector; eauto. rewrite K. exact field_names_distinct.
  - assert (B : in_bounds lo hi v = false) by (now apply outside_not_in_bounds).
    pose proof (validate_inputs_run entry_vars w) as R.
    destruct (spec_validate rt FIELD_RANGES entry_vars) as [err|vec] eqn:E.
    + destruct R as [d' ->]. cbn [fst].
      destruct (spec_validate_err FIELD_RANGES entry_vars err E)
        as (i' & f & lo' & hi' & t & Hs' & He' & Hb & Hn & Herr).
      destruct (Nat.lt_trichotomy i' i) as [Lt|[->|Gt]].
      * rewrite (Before i' f lo' hi' t Lt Hs' He') in Hn. discriminate.
      * rewrite Hs in Hs'. rewrite He in He'. inversion Hs'; inversion He'; subst.
        rewrite P. reflexivity.
      * pose proof (Hb i field lo hi text Gt Hs He) as Ok_i.
        unfold entry_ok in Ok_i. rewrite P in Ok_i. congruence.
    + exfalso.
      destruct (spec_validate_ok FIELD_RANGES entry_vars vec E) as (_ & _ & A).
      destruct (A i field lo hi text Hs He) as (v' & P' & B' & _).
      rewrite P in P'. inversion P'; subst v'. congruence.
Qed.

End Validation.

(** ** The predictor *)

Lemma dict_get_in (d : dict) (k : string) (v : pyvalue) :
  List.NoDup (map fst d) -> In (k, v) d -> dict_get d k = Some v.
Proof.
  induction d as [|[k' v'] d IH]; intros N I; [destruct I|].
  inversion N as [|? ? Nk N']; subst. cbn. destruct I as [I|I].
  - inversion I; subst. now rewrite String.eqb_refl.
  - destruct (String.eqb_spec k' k) as [->|_]; [|auto].
    exfalso. apply Nk. apply (in_map fst d (k, v)), I.
Qed.

Lemma mapM_getitem (d0 : dict) (w : World) :
  forall d : dict,
    (forall k v, In (k, v) d -> dict_get d0 k = Some v) ->
    mapM (dict_getitem d0) (map fst d) w = (Ok (map snd d), w).
Proof.
  induction d as [|[k v] d IH]; intros H; [reflexivity|].
  cbn [map mapM fst snd]. unfold bind, dict_getitem at 1.
  rewrite (H k v) by now left. cbn [ret].
  rewrite IH by (intros; apply H; now right). reflexivity.
Qed.

Lemma dict_get_set_ne (d : dict) (k k' : string) (v : pyvalue) :
  String.eqb k' k = false -> dict_get (dict_set d k' v) k = dict_get d k.
Proof.
  intros E. induction d as [|[k0 v0] d IH]; cbn.
  - now rewrite E.
  - destruct (String.eqb k0 k') eqn:E0; cbn.
    + apply String.eqb_eq in E0; subst k0. now rewrite E.
    + now rewrite IH.
Qed.

Lemma dict_get_fill_absent (k : string) (vec : list (string * pyfloat)) :
  forall d : dict,
    dict_get d k = None -> ~ In k (map fst vec) -> dict_get (fill d vec) k = None.
Proof.
  induction vec as [|[f v] vec IH]; intros d H N; [exact H|].
  cbn in N |- *. apply IH; [|tauto].
  rewrite dict_get_set_ne; [exact H|].
  apply String.eqb_neq. tauto.
Qed.

Lemma dict_set_changes (d : dict) (k : string) (v : pyvalue) :
  dict_get d k = None -> dict_set d k v <> d.
Proof.
  intros H E. pose proof (dict_get_set_eq d k v) as G. rewrite E in G. congruence.
Qed.

Section Predictor.

Context (rt : Runtime).

(** A form that validates, run to the point where the result is saved. *)
Lemma predict_diabetes_run (m : Model) (entry_vars : list string) (w : World)
    (vec : list (string * pyfloat)) (c : Z) (cs : list Z)
    (p0 p : pyfloat) (ps : list pyfloat) (pss : list (list pyfloat)) :
  length entry_vars = 8%nat ->
  spec_validate rt FIELD_RANGES entry_vars = inr vec ->
  let d := dict_of_vector vec in
  predict m [dict_values d] = Ok (c :: cs) ->
  predict_proba m [dict_values d] = Ok ((p0 :: p :: ps) :: pss) ->
  predict_diabetes rt (Some m) entry_vars w =
    save_prediction rt (outcome_of c) (length (heap w))
      (add_event (ResultWindow (outcome_of c) p d)
         (add_event (ModelPredictProba [dict_values d])
            (add_event (ModelPredict [dict_values d])
               (set_heap (heap w ++ [d]) w)))).
Proof.
  intros L E d Hc Hp.
  destruct (validate_inputs_ok rt entry_vars w vec L E) as [R K].
  fold d in R.
  set (w1 := set_heap (heap w ++ [d]) w) in *.
  assert (H1 : heap w1 !! length (heap w) = Some d).
  { subst w1. cbn. now rewrite lookup_app_r, Nat.sub_diag by lia. }
  assert (N : List.NoDup (map fst d)).
  { subst d. unfold dict_of_vector. rewrite map_map. cbn [fst].
    change (map (fun x => fst x) vec) with (map fst vec).
    rewrite K. exact field_names_distinct. }
  assert (G : mapM (dict_getitem d) (keys FIELD_RANGES) w1 = (Ok (dict_values d), w1)).
  { rewrite <- K.
    replace (map fst vec) with (map fst d)
      by (subst d; unfold dict_of_vector; now rewrite map_map).
    apply mapM_getitem. intros k v I. now apply dict_get_in. }
  set (w2 := add_event (ModelPredict [dict_values d]) w1).
  set (w3 := add_event (ModelPredictProba [dict_values d]) w2).
  set (w4 := add_event (ResultWindow (outcome_of c) p d) w3).
  assert (H4 : heap w4 !! length (heap w) = Some d) by exact H1.
  pose proof (save_prediction_run rt w4 (outcome_of c) (length (heap w)) d H4) as S.
  unfold predict_diabetes.
  match goal with
  | |- try_except ?body _ _ _ = _ =>
      assert (B : body w = save_prediction rt (outcome_of c) (length (heap w)) w4)
  end.
  { erewrite bind_ok by exact R.
    erewrite bind_ok by (unfold deref; rewrite H1; reflexivity).
    erewrite bind_ok by exact G.
    erewrite bind_ok
      by (unfold call_predict, bind, emit; fold w2; rewrite Hc; reflexivity).
    erewrite bind_ok
      by (unfold call_predict_proba, bind, emit; fold w3; rewrite Hp; reflexivity).
    erewrite bind_ok by reflexivity.
    erewrite bind_ok by reflexivity.
    erewrite bind_ok by reflexivity.
    erewrite bind_ok
      by (unfold show_prediction_result, bind, deref, emit;
          change (heap w3) with (heap w1); rewrite H1; reflexivity).
    reflexivity. }
  unfold try_except. rewrite B.
  destruct (write_fault w4 prediction_log); rewrite S; reflexivity || (destruct (write_torn w4 prediction_log); reflexivity).
Qed.

Lemma outcome_of_diabetic (c : Z) : outcome_of c = "Diabetic" <-> c = 1.
Proof.
  unfold outcome_of.
  destruct (Z.eqb_spec c 1) as [->|N]; split; intros H; auto; [discriminate H|contradiction].
Qed.

(** C1: for a form that validates, the outcome shown is "Diabetic" exactly
    when the class the model gives for the vector is 1 and "Non-Diabetic"
    otherwise, and the probability shown is the model's probability of
    class 1 for that vector; so class 0 with probability 0.12 is shown as
    "Non-Diabetic" with probability 0.12. *)
Theorem predict_diabetes_outcome (m : Model) (entry_vars : list string) (w : World)
    (vec : list (string * pyfloat)) (c : Z) (cs : list Z)
    (p0 p : pyfloat) (ps : list pyfloat) (pss : list (list pyfloat)) :
  length entry_vars = 8%nat ->
  spec_validate rt FIELD_RANGES entry_vars = inr vec ->
  predict m [dict_values (dict_of_vector vec)] = Ok (c :: cs) ->
  predict_proba m [dict_values (dict_of_vector vec)] = Ok ((p0 :: p :: ps) :: pss) ->
  fst (predict_diabetes rt (Some m) entry_vars w) = Ok tt /\
  (exists saved,
      trace (snd (predict_diabetes rt (Some m) entry_vars w)) =
        trace w ++ [ModelPredict [dict_values (dict_of_vector vec)];
                    ModelPredictProba [dict_values (dict_of_vector vec)];
                    ResultWindow (outcome_of c) p (dict_of_vector vec)] ++ saved) /\
  (outcome_of c = "Diabetic" <-> c = 1) /\
  (c <> 1 -> outcome_of c = "Non-Diabetic") /\
  (c = 0 -> p = Finite (3 # 25) ->
   In (ResultWindow "Non-Diabetic" (Finite (3 # 25)) (dict_of_vector vec))
      (trace (snd (predict_diabetes rt (Some m) entry_vars w)))).
Proof.
  intros L E Hc Hp.
  rewrite (predict_diabetes_run m entry_vars w vec c cs p0 p ps pss L E Hc Hp).
  set (d := dict_of_vector vec).
  set (w4 := add_event (ResultWindow (outcome_of c) p d) _).
  assert (H4 : heap w4 !! length (heap w) = Some d).
  { subst w4. cbn. now rewrite lookup_app_r, Nat.sub_diag by lia. }
  rewrite (save_prediction_run rt w4 (outcome_of c) (length (heap w)) d H4).
  assert (O : c <> 1 -> outcome_of c = "Non-Diabetic").
  { intros N. unfold outcome_of. now destruct (Z.eqb_spec c 1). }
  destruct (write_fault w4 prediction_log) as [e|];
    [destruct (write_torn w4 prediction_log) as [k|]|];
    cbn [fst snd trace add_event set_fs set_heap];
    (split; [reflexivity|]);
    (split; [eexists; subst w4; cbn; repeat rewrite <- app_assoc; cbn; reflexivity|]);
    (split; [apply outcome_of_diabetic|]);
    (split; [exact O|]);
    intros -> ->; subst w4; cbn; repeat rewrite <- app_assoc;
    apply in_or_app; right; cbn; auto.
Qed.

(** The dictionary that [validate_inputs] returns has no ["Outcome"] key. *)
Lemma validate_inputs_no_outcome (entry_vars : list string) (w0 w : World)
    (values : nat) (d : dict) :
  validate_inputs rt entry_vars w0 = (Ok values, w) ->
  heap w !! values = Some d ->
  dict_get d "Outcome" = None.
Proof.
  intros R H. pose proof (validate_inputs_run rt entry_vars w0) as S.
  destruct (spec_validate rt FIELD_RANGES entry_vars) as [err|vec] eqn:E.
  - destruct S as [d' S]. congruence.
  - rewrite S in R. inversion R; subst. cbn in H.
    rewrite lookup_app_r, Nat.sub_diag in H by lia. inversion H; subst.
    apply dict_get_fill_absent; [reflexivity|].
    destruct (spec_validate_ok rt FIELD_RANGES entry_vars vec E) as (_ & K & _).
    rewrite K. intros I. apply list_elem_of_In, (subseteq_take _ _), list_elem_of_In in I.
    cbn in I. intuition discriminate.
Qed.

(** C10: [save_prediction] writes into the dictionary it is given: after
    the call, whether the record was written or not, the caller's
    dictionary maps ["Outcome"] to the outcome; for a dictionary without
    that key, as [validate_inputs] returns it, this is one more entry at
    the end, so the dictionary is not what it was. *)
Theorem save_prediction_mutates_values (w : World) (outcome : string) (values : nat)
    (d : dict) :
  heap w !! values = Some d ->
  heap (snd (save_prediction rt outcome values w)) !! values
    = Some (dict_set d "Outcome" (VStr outcome)) /\
  dict_get (dict_set d "Outcome" (VStr outcome)) "Outcome" = Some (VStr outcome) /\
  (dict_get d "Outcome" = None ->
   dict_set d "Outcome" (VStr outcome) = d ++ [("Outcome", VStr outcome)] /\
   dict_set d "Outcome" (VStr outcome) <> d) /\
  (forall (entry_vars : list string) (w0 : World),
      validate_inputs rt entry_vars w0 = (Ok values, w) -> dict_get d "Outcome" = None).
Proof.
  intros H. split; [|split; [|split]].
  - rewrite (save_prediction_run rt w outcome values d H).
    destruct (write_fault w prediction_log); [destruct (write_torn w prediction_log)|]; cbn;
      apply (heap_lookup_update w values d _ H).
  - apply dict_get_set_eq.
  - intros A. split; [now apply dict_set_fresh|now apply dict_set_changes].
  - intros entry_vars w0 R. eapply validate_inputs_no_outcome; eauto.
Qed.

End Predictor.

(** ** The credential store *)

Import UserDatabase.

Lemma head_filter_existsb {A} (f : A -> bool) (l : list A) :
  match head (List.filter f l) with
  | Some a => existsb f l = true /\ f a = true
  | None => existsb f l = false /\ List.filter f l = []
  end.
Proof.
  induction l as [|a l IH]; cbn; auto.
  destruct (f a) eqn:E; cbn; auto.
Qed.

Lemma nonempty_all (a b c d : string) :
  negb (forallb nonempty [a; b; c; d]) =
    String.eqb a "" || String.eqb b "" || String.eqb c "" || String.eqb d "".
Proof.
  cbn. unfold nonempty.
  destruct (String.eqb a ""), (String.eqb b ""), (String.eqb c ""), (String.eqb d "");
    reflexivity.
Qed.

(** [register_user] on a database that has its table. *)
Lemma register_user_run (w : World) (table : list user_row)
    (username password email full_name : string) :
  users w = Some table ->
  register_user username password email full_name w =
    match first_violation table username password email full_name with
    | Some err => (Ok false, add_event (ShowError "Error" (error_text err)) w)
    | None =>
        (Ok true,
         add_event (ShowInfo "Success" "User registered successfully")
           (set_users
              (Some (table ++ [UserRow username (hash_password password) email full_name]))
              w))
    end.
Proof.
  intros U. unfold register_user, first_violation.
  rewrite nonempty_all.
  destruct (String.eqb username "" || String.eqb password "" || String.eqb email ""
            || String.eqb full_name ""); [reflexivity|].
  destruct (String.length username <? 4)%nat; [reflexivity|].
  destruct (String.length password <? 8)%nat; [reflexivity|].
  destruct (validate_email email); cbn [negb]; [|reflexivity].
  unfold try_except, with_connection, bind at 1, sql_select at 1. rewrite U.
  unfold fetchone.
  pose proof (head_filter_existsb (fun r => String.eqb (row_username r) username) table) as Hn.
  destruct (head (List.filter (fun r => String.eqb (row_username r) username) table)).
  - destruct Hn as [-> _]. reflexivity.
  - destruct Hn as [Hn _]. rewrite Hn.
    unfold bind at 1, sql_select at 1. rewrite U.
    pose proof (head_filter_existsb (fun r => String.eqb (row_email r) email) table) as He.
    destruct (head (List.filter (fun r => String.eqb (row_email r) email) table)).
    + destruct He as [-> _]. reflexivity.
    + destruct He as [He _]. rewrite He.
      unfold bind, sql_insert. rewrite U. cbn [row_username]. rewrite Hn. reflexivity.
Qed.

(** [register_user] on a database without the table: nothing is stored. *)
Lemma register_user_no_table (w : World) (username password email full_name : string) :
  users w = None ->
  exists w', register_user username password email full_name w = (Ok false, w') /\
             users w' = None.
Proof.
  intros U. unfold register_user.
  destruct (negb (forallb nonempty [username; password; email; full_name]));
    [eexists; split; [reflexivity|exact U]|].
  destruct (String.length username <? 4)%nat; [eexists; split; [reflexivity|exact U]|].
  destruct (String.length password <? 8)%nat; [eexists; split; [reflexivity|exact U]|].
  destruct (negb (validate_email email)); [eexists; split; [reflexivity|exact U]|].
  unfold try_except, with_connection, bind at 1, sql_select at 1. rewrite U.
  eexists; split; [reflexivity|reflexivity].
Qed.

Lemma authenticate_user_run (w : World) (table : list user_row) (username password : string) :
  users w = Some table ->
  authenticate_user username password w =
    match head (List.filter (fun r => String.eqb (row_username r) username) table) with
    | Some r =>
        if String.eqb (row_password r) (hash_password password) then (Ok true, w)
        else (Ok false, add_event login_failed w)
    | None => (Ok false, add_event login_failed w)
    end.
Proof.
  intros U. unfold authenticate_user, try_except, with_connection, bind, sql_select.
  rewrite U. unfold fetchone.
  destruct (head (List.filter (fun r => String.eqb (row_username r) username) table)) as [r|];
    [|reflexivity].
  destruct (String.eqb (row_password r) (hash_password password)); reflexivity.
Qed.

Lemma authenticate_user_no_table (w : World) (username password : string) :
  users w = None ->
  exists w', authenticate_user username password w = (Ok false, w') /\ users w' = None.
Proof.
  intros U. unfold authenticate_user, try_except, with_connection, bind, sql_select.
  rewrite U. eexists; split; reflexivity.
Qed.

Lemma filter_none {A} (f : A -> bool) (l : list A) :
  (forall a, In a l -> f a = false) -> List.filter f l = [].
Proof.
  induction l as [|a l IH]; intros H; cbn; auto.
  rewrite (H a) by now left. apply IH. intros; apply H; now right.
Qed.

(** A registration that succeeds: what was there and what is there now. *)
Lemma register_user_accepted (w w1 : World) (username password email full_name : string) :
  register_user username password email full_name w = (Ok true, w1) ->
  exists table,
    users w = Some table /\
    first_violation table username password email full_name = None /\
    w1 = add_event (ShowInfo "Success" "User registered successfully")
           (set_users
              (Some (table ++ [UserRow username (hash_password password) email full_name]))
              w).
Proof.
  intros R. destruct (users w) as [table|] eqn:U.
  - exists table. rewrite (register_user_run w table _ _ _ _ U) in R.
    destruct (first_violation table username password email full_name); inversion R; auto.
  - destruct (register_user_no_table w username password email full_name U) as (w' & F & _).
    rewrite R in F. discriminate.
Qed.

Lemma first_violation_none (table : list user_row)
    (username password email full_name : string) :
  first_violation table username password email full_name = None ->
  (4 <= String.length username)%nat /\ (8 <= String.length password)%nat /\
  validate_email email = true /\
  existsb (fun r => String.eqb (row_username r) username) table = false /\
  existsb (fun r => String.eqb (row_email r) email) table = false.
Proof.
  unfold first_violation.
  destruct (String.eqb username "" || String.eqb password "" || String.eqb email ""
            || String.eqb full_name ""); [discriminate|].
  destruct (Nat.ltb_spec (String.length username) 4); [discriminate|].
  destruct (Nat.ltb_spec (String.length password) 8); [discriminate|].
  destruct (validate_email email); [|discriminate]. cbn [negb].
  destruct (existsb (fun r => String.eqb (row_username r) username) table); [discriminate|].
  destruct (existsb (fun r => String.eqb (row_email r) email) table); [discriminate|].
  auto.
Qed.

(** C4, as the code has it: after a registration that succeeded, logging
    in with the same username and password succeeds; with another password
    it succeeds exactly when the digest of that password is the stored one,
    and fails otherwise, which it does for one at least of any two passwords
    whose digests differ; it fails for a username that has no row; the two
    failures return the same value and show the same message. *)
Theorem register_then_authenticate (w w1 : World)
    (username password email full_name : string) :
  register_user username password email full_name w = (Ok true, w1) ->
  authenticate_user username password w1 = (Ok true, w1) /\
  (forall password',
      fst (authenticate_user username password' w1)
        = Ok (String.eqb (hash_password password) (hash_password password'))) /\
  (forall password',
      hash_password password' <> hash_password password ->
      authenticate_user username password' w1 = (Ok false, add_event login_failed w1)) /\
  (forall username' password' table1,
      users w1 = Some table1 ->
      (forall r, In r table1 -> row_username r <> username') ->
      authenticate_user username' password' w1 = (Ok false, add_event login_failed w1)) /\
  (forall a b,
      hash_password a <> hash_password b ->
      authenticate_user username a w1 = (Ok false, add_event login_failed w1) \/
      authenticate_user username b w1 = (Ok false, add_event login_failed w1)) /\
  (exists password',
      authenticate_user username password' w1 = (Ok false, add_event login_failed w1)).
Proof.
  intros R.
  destruct (register_user_accepted w w1 _ _ _ _ R) as (table & U & V & ->).
  destruct (first_violation_none table _ _ _ _ V) as (_ & _ & _ & Hn & _).
  set (row := UserRow username (hash_password password) email full_name).
  set (w1 := add_event _ _).
  assert (U1 : users w1 = Some (table ++ [row])) by reflexivity.
  assert (F : List.filter (fun r => String.eqb (row_username r) username) (table ++ [row])
              = [row]).
  { rewrite List.filter_app, filter_none.
    - cbn. now rewrite String.eqb_refl.
    - intros a I. destruct (String.eqb (row_username a) username) eqn:E; auto.
      assert (X : existsb (fun r => String.eqb (row_username r) username) table = true)
        by (apply existsb_exists; eauto).
      congruence. }
  assert (A : forall password',
             authenticate_user username password' w1 =
               if String.eqb (hash_password password) (hash_password password')
               then (Ok true, w1) else (Ok false, add_event login_failed w1)).
  { intros password'. rewrite (authenticate_user_run w1 _ _ _ U1), F. reflexivity. }
  assert (B : forall a b,
             hash_password a <> hash_password b ->
             authenticate_user username a w1 = (Ok false, add_event login_failed w1) \/
             authenticate_user username b w1 = (Ok false, add_event login_failed w1)).
  { intros a b N. rewrite !A.
    destruct (String.eqb_spec (hash_password password) (hash_password a)) as [Ea|_];
      [|now left].
    destruct (String.eqb_spec (hash_password password) (hash_password b)) as [Eb|_];
      [|now right].
    congruence. }
  split; [|split; [|split; [|split; [|split]]]].
  - rewrite A. now rewrite String.eqb_refl.
  - intros password'. rewrite A.
    now destruct (String.eqb (hash_password password) (hash_password password')).
  - intros password' N. rewrite A.
    destruct (String.eqb_spec (hash_password password) (hash_password password'));
      [congruence|reflexivity].
  - intros username' password' table1 U1' N.
    rewrite (authenticate_user_run w1 _ _ _ U1'), filter_none; [reflexivity|].
    intros a I. apply String.eqb_neq. now apply N.
  - exact B.
  - destruct (B "password1" "password2") as [Fa|Fb]; [vm_compute; discriminate| |]; eauto.
Qed.

Lemma error_text_injective (e1 e2 : registration_error) :
  error_text e1 = error_text e2 -> e1 = e2.
Proof. destruct e1, e2; cbn; intros H; try reflexivity; discriminate H. Qed.

(** C5: registration checks, in this order, that no field is empty, that the
    username has at least 4 characters, the password at least 8, that the
    email has the shape of one, that the username is free and that the email
    is free; the first rule that is broken decides the message, a different
    one for each rule, the call returns false and the table is as it was;
    when none is broken the row is added at the end of the table. *)
Theorem register_user_checks_in_order (w : World) (table : list user_row)
    (username password email full_name : string) :
  users w = Some table ->
  match first_violation table username password email full_name with
  | Some err =>
      register_user username password email full_name w
        = (Ok false, add_event (ShowError "Error" (error_text err)) w) /\
      users (snd (register_user username password email full_name w)) = Some table
  | None =>
      register_user username password email full_name w
        = (Ok true,
           add_event (ShowInfo "Success" "User registered successfully")
             (set_users
                (Some (table ++ [UserRow username (hash_password password) email full_name]))
                w))
  end /\
  (forall e1 e2, error_text e1 = error_text e2 -> e1 = e2).
Proof.
  intros U. split; [|exact error_text_injective].
  rewrite (register_user_run w table _ _ _ _ U).
  destruct (first_violation table username password email full_name); auto.
Qed.

(** ** The stored password *)

Lemma string_length_append (a b : string) :
  String.length (a +:+ b) = (String.length a + String.length b)%nat.
Proof. induction a as [|c a IH]; simpl; [reflexivity|f_equal; exact IH]. Qed.

Lemma string_length_of_list (l : list ascii) :
  String.length (string_of_list_ascii l) = length l.
Proof. induction l as [|c l IH]; simpl; [reflexivity|f_equal; exact IH]. Qed.

Lemma hex_word_length (x : Z) : String.length (Sha256.hex_word x) = 8%nat.
Proof.
  unfold Sha256.hex_word.
  now rewrite string_length_of_list, List.length_map, List.length_rev, List.length_seq.
Qed.

Lemma round_length (st : list Z) (kw : Z * Z) : length (Sha256.round st kw) = length st.
Proof.
  unfold Sha256.round.
  do 9 (destruct st as [|? st]; [reflexivity|]). reflexivity.
Qed.

Lemma rounds_length (kws : list (Z * Z)) :
  forall st, length (fold_left Sha256.round kws st) = length st.
Proof.
  induction kws as [|kw kws IH]; intros st; cbn [fold_left]; auto.
  now rewrite IH, round_length.
Qed.

Lemma compress_length (st block : list Z) : length (Sha256.compress st block) = length st.
Proof.
  unfold Sha256.compress.
  rewrite List.length_map, List.length_combine, rounds_length. apply Nat.min_id.
Qed.

Lemma digest_length (msg : list Z) : length (Sha256.digest msg) = 8%nat.
Proof.
  unfold Sha256.digest.
  generalize (Sha256.blocks (length (Sha256.pad msg)) (Sha256.pad msg)).
  assert (G : forall bs st, length (fold_left Sha256.compress bs st) = length st).
  { induction bs as [|b bs IH]; intros st; cbn [fold_left]; auto.
    now rewrite IH, compress_length. }
  intros bs. now rewrite G.
Qed.

Lemma concat_length (l : list string) (n : nat) :
  Forall (fun s => String.length s = n) l ->
  String.length (String.concat "" l) = (n * length l)%nat.
Proof.
  induction 1 as [|s l Hs Hl IH]; [cbn; lia|].
  destruct l as [|s' l].
  - cbn. lia.
  - change (String.concat "" (s :: s' :: l)) with (s +:+ String.concat "" (s' :: l)).
    rewrite string_length_append, IH, Hs. cbn [length]. lia.
Qed.

Lemma hash_password_length (password : string) :
  String.length (hash_password password) = 64%nat.
Proof.
  unfold hash_password, Sha256.hexdigest.
  rewrite (concat_length _ 8).
  - now rewrite List.length_map, digest_length.
  - apply Forall_forall. intros s I. apply list_elem_of_In, in_map_iff in I.
    destruct I as (x & <- & _). apply hex_word_length.
Qed.

(** ** Digests and passwords *)

Lemma hex_digit_lower (d : Z) : lower_hex (Sha256.hex_digit d) = true.
Proof.
  unfold Sha256.hex_digit. generalize (Z.to_nat d). intros k.
  do 16 (destruct k as [|k]; [reflexivity|]). destruct k; reflexivity.
Qed.

Lemma all_chars_append (p : ascii -> bool) (a b : string) :
  all_chars p (a +:+ b) = all_chars p a && all_chars p b.
Proof.
  unfold all_chars. induction a as [|c a IH]; [reflexivity|].
  change (String c a +:+ b) with (String c (a +:+ b)).
  cbn [list_ascii_of_string forallb]. now rewrite IH, andb_assoc.
Qed.

Lemma all_chars_concat (p : ascii -> bool) (l : list string) :
  Forall (fun s => all_chars p s = true) l -> all_chars p (String.concat "" l) = true.
Proof.
  induction 1 as [|s l Hs Hl IH]; [reflexivity|].
  destruct l as [|s' l]; [exact Hs|].
  change (String.concat "" (s :: s' :: l)) with (s +:+ String.concat "" (s' :: l)).
  now rewrite all_chars_append, Hs, IH.
Qed.

Lemma hex_word_lower (x : Z) : all_chars lower_hex (Sha256.hex_word x) = true.
Proof.
  unfold all_chars, Sha256.hex_word. rewrite list_ascii_of_string_of_list_ascii.
  apply forallb_forall. intros c I. apply in_map_iff in I as (i & <- & _).
  apply hex_digit_lower.
Qed.

(** The digest is 64 digits from [0] to [9] and [a] to [f]. *)
Lemma hash_password_lower (password : string) :
  all_chars lower_hex (hash_password password) = true.
Proof.
  unfold hash_password, Sha256.hexdigest. apply all_chars_concat.
  apply Forall_forall. intros s I. apply list_elem_of_In, in_map_iff in I.
  destruct I as (x & <- & _). apply hex_word_lower.
Qed.

Lemma lower_hex_digit (c : ascii) : lower_hex c = true -> In c hex_digits.
Proof.
  unfold lower_hex, one_of. intros H. apply existsb_exists in H as (c' & I & E).
  apply Ascii.eqb_eq in E. now subst.
Qed.

Lemma words_In (n : nat) :
  forall s, String.length s = n -> all_chars lower_hex s = true -> In s (words n).
Proof.
  induction n as [|n IH]; intros [|c s] L H; try discriminate L.
  - now left.
  - cbn [words]. apply in_flat_map. exists c.
    unfold all_chars in H. cbn [list_ascii_of_string forallb] in H.
    apply andb_true_iff in H as [Hc Hs]. split; [now apply lower_hex_digit|].
    apply in_map. apply IH; [now injection L|exact Hs].
Qed.

Lemma words_length_of (n : nat) : forall s, In s (words n) -> String.length s = n.
Proof.
  induction n as [|n IH]; intros s I.
  - destruct I as [<-|[]]. reflexivity.
  - cbn [words] in I. apply in_flat_map in I as (c & _ & I).
    apply in_map_iff in I as (s' & <- & I). cbn [String.length]. f_equal. now apply IH.
Qed.

Lemma NoDup_flat_map {A B} (f : A -> list B) (l : list A) :
  List.NoDup l -> (forall a, List.NoDup (f a)) ->
  (forall a a' b, a <> a' -> In b (f a) -> ~ In b (f a')) ->
  List.NoDup (flat_map f l).
Proof.
  intros Hl Hf Hd. induction Hl as [|a l Ha Hl IH]; [constructor|].
  cbn [flat_map]. apply List.NoDup_app; [apply Hf|exact IH|].
  intros b Ib Ib'. apply in_flat_map in Ib' as (a' & Ia' & Ib').
  apply (Hd a a' b); auto. intros ->. contradiction.
Qed.

Lemma hex_digits_NoDup : List.NoDup hex_digits.
Proof.
  unfold hex_digits. cbn [list_ascii_of_string].
  repeat (constructor; [cbn [In]; intuition discriminate|]). constructor.
Qed.

Lemma words_NoDup (n : nat) : List.NoDup (words n).
Proof.
  induction n as [|n IH]; [repeat constructor; intros []|].
  cbn [words]. apply NoDup_flat_map.
  - exact hex_digits_NoDup.
  - intros c. apply List.NoDup_map_inv with (f := fun s => match s with String _ t => t | "" => "" end).
    rewrite map_map. cbn. now rewrite map_id.
  - intros c c' s N I I'. apply in_map_iff in I as (t & <- & _).
    apply in_map_iff in I' as (t' & E & _). injection E as E _. congruence.
Qed.

Lemma words_grow (n : nat) : (length (words n) < length (words (S n)))%nat.
Proof.
  assert (P : (0 < length (words n))%nat).
  { induction n as [|n IH]; [cbn; lia|].
    cbn [words]. unfold hex_digits. cbn [list_ascii_of_string flat_map].
    rewrite List.length_app, List.length_map. lia. }
  cbn [words]. unfold hex_digits. cbn [list_ascii_of_string flat_map].
  rewrite !List.length_app, !List.length_map. lia.
Qed.

(** Among more values than [f] has results, two have the same. *)
Lemma collision {A B} (dec : forall x y : B, {x = y} + {x <> y}) (f : A -> B) (l : list A) :
  List.NoDup l -> ~ List.NoDup (map f l) ->
  exists x y, In x l /\ In y l /\ x <> y /\ f x = f y.
Proof.
  induction 1 as [|a l Ha Hl IH]; intros N; [exfalso; apply N; constructor|].
  destruct (in_dec dec (f a) (map f l)) as [I|I].
  - apply in_map_iff in I as (y & E & I). exists a, y.
    repeat split; [now left|now right| |now symmetry].
    intros ->. contradiction.
  - destruct IH as (x & y & Ix & Iy & Nxy & E).
    + intros Hm. apply N. cbn [map]. now constructor.
    + exists x, y. repeat split; [now right|now right|exact Nxy|exact E].
Qed.

(** Two passwords of 65 characters have the same digest. *)
Lemma hash_password_collides :
  exists p p', String.length p = 65%nat /\ String.length p' = 65%nat /\ p <> p' /\
               hash_password p = hash_password p'.
Proof.
  destruct (collision string_dec hash_password (words 65) (words_NoDup 65))
    as (p & p' & I & I' & N & E).
  - intros Hm. apply (Nat.lt_irrefl (length (words 64))).
    eapply Nat.lt_le_trans; [apply words_grow|].
    rewrite <- (List.length_map hash_password (words 65)).
    apply List.NoDup_incl_length; [exact Hm|].
    intros d Id. apply in_map_iff in Id as (q & <- & _).
    apply words_In; [apply hash_password_length|apply hash_password_lower].
  - exists p, p'. repeat split; auto using words_length_of.
Qed.

(** Not every other password is refused: a digest has 64 hexadecimal
    digits, so among the passwords of 65 such digits two have the same
    digest, and after a registration with one of them the other, a wrong
    password, logs in. *)
Lemma wrong_password_logs_in :
  exists password password' : string,
    password' <> password /\
    fst (register_user "alice" password "alice@example.com" "Alice A" Sample.database)
      = Ok true /\
    fst (authenticate_user "alice" password'
           (snd (register_user "alice" password "alice@example.com" "Alice A"
                   Sample.database)))
      = Ok true.
Proof.
  destruct hash_password_collides as (p & p' & L & _ & N & E).
  exists p, p'. split; [congruence|].
  assert (U : users Sample.database = Some []) by reflexivity.
  assert (V : first_violation [] "alice" p "alice@example.com" "Alice A" = None).
  { unfold first_violation. rewrite L.
    assert (Hp : String.eqb p "" = false) by (destruct p; [discriminate L|reflexivity]).
    assert (Hm : validate_email "alice@example.com" = true) by (vm_compute; reflexivity).
    cbn [String.eqb orb]. rewrite Hp, Hm. reflexivity. }
  rewrite (register_user_run Sample.database [] "alice" p "alice@example.com" "Alice A" U), V.
  split; [reflexivity|]. cbn [snd].
  erewrite authenticate_user_run by reflexivity.
  cbn [app List.filter row_username head row_password].
  change (String.eqb "alice" "alice") with true. cbn [head row_password].
  rewrite E, String.eqb_refl. reflexivity.
Qed.

Lemma create_user_table_keeps (w : World) :
  hashed_at_rest w -> hashed_at_rest (snd (create_user_table w)).
Proof.
  intros I. unfold create_user_table. destruct (users w) eqn:U; [exact I|].
  intros table E. cbn in E. inversion E; subst. constructor.
Qed.

Lemma register_user_keeps (w : World) (username password email full_name : string) :
  hashed_at_rest w ->
  hashed_at_rest (snd (register_user username password email full_name w)).
Proof.
  intros I. destruct (users w) as [table|] eqn:U.
  - rewrite (register_user_run w table _ _ _ _ U).
    destruct (first_violation table username password email full_name) eqn:V.
    + intros t E. cbn in E. apply I. congruence.
    + intros t E. cbn in E. inversion E; subst.
      apply Forall_app. split; [now apply I|].
      constructor; [|constructor]. exists password. split; [reflexivity|].
      now destruct (first_violation_none table _ _ _ _ V) as (_ & ? & _).
  - destruct (register_user_no_table w username password email full_name U) as (w' & -> & N).
    intros t E. cbn in E. congruence.
Qed.

Lemma authenticate_user_keeps (w : World) (username password : string) :
  hashed_at_rest w -> hashed_at_rest (snd (authenticate_user username password w)).
Proof.
  intros I. destruct (users w) as [table|] eqn:U.
  - rewrite (authenticate_user_run w table _ _ U).
    destruct (head _) as [r|]; [destruct (String.eqb _ _)|];
      intros t E; cbn in E; apply I; congruence.
  - destruct (authenticate_user_no_table w username password U) as (w' & -> & N).
    intros t E. cbn in E. congruence.
Qed.

(** C8, as the code has it: what a successful registration stores in the
    password column is the SHA-256 digest of the password alone, in
    hexadecimal, with no salt; it is 64 digits from [0] to [9] and [a] to
    [f], so it is not the password unless the password is itself 64 such
    digits, and its own digest; and creating the table, registering and
    logging in all keep every stored password such a digest. *)
Theorem password_stored_as_digest (w : World)
    (username password email full_name : string) :
  hashed_at_rest w ->
  (forall w1,
      register_user username password email full_name w = (Ok true, w1) ->
      exists table,
        users w = Some table /\
        users w1 = Some (table ++ [UserRow username (Sha256.hexdigest (encode password))
                                     email full_name])) /\
  String.length (hash_password password) = 64%nat /\
  all_chars lower_hex (hash_password password) = true /\
  (String.length password <> 64%nat -> hash_password password <> password) /\
  (all_chars lower_hex password = false -> hash_password password <> password) /\
  hashed_at_rest (snd (create_user_table w)) /\
  hashed_at_rest (snd (register_user username password email full_name w)) /\
  hashed_at_rest (snd (authenticate_user username password w)).
Proof.
  intros I. split; [|split; [|split; [|split; [|split; [|split; [|split]]]]]].
  - intros w1 R. destruct (register_user_accepted w w1 _ _ _ _ R) as (table & U & _ & ->).
    exists table. split; [exact U|reflexivity].
  - apply hash_password_length.
  - apply hash_password_lower.
  - intros N E. apply N. rewrite <- E at 1. apply hash_password_length.
  - intros N E. pose proof (hash_password_lower password) as H. rewrite E in H. congruence.
  - now apply create_user_table_keeps.
  - now apply register_user_keeps.
  - now apply authenticate_user_keeps.
Qed.

(** ** The batch predictor *)

Section Batch.

Context (rt : Runtime).



End Batch.

(** ** The properties on the reference runtime *)

Ltac run := vm_compute; reflexivity.

Ltac others_valid :=
  let j := fresh "j" in
  let N := fresh "N" in
  let Hs := fresh "Hs" in
  let He := fresh "He" in
  intros j ? ? ? ? N Hs He;
  do 8 (destruct j as [|j];
        [first [ lia
               | cbn in Hs, He; inversion Hs; inversion He; subst; run ]|]);
  discriminate Hs.

Lemma predict_diabetes_outcome_witness :
  fst (predict_diabetes Sample.runtime (Some Sample.classifier) Sample.form Sample.fresh)
    = Ok tt /\
  In (ResultWindow "Non-Diabetic" (Finite (3 # 25)) (dict_of_vector Sample.vector))
     (trace (snd (predict_diabetes Sample.runtime (Some Sample.classifier)
                    Sample.form Sample.fresh))).
Proof.
  pose proof (predict_diabetes_outcome Sample.runtime Sample.classifier Sample.form
                Sample.fresh Sample.vector 0 [] (Finite (22 # 25)) (Finite (3 # 25)) [] []
                eq_refl ltac:(run) ltac:(run) ltac:(run)) as (R & _ & _ & _ & I).
  split; [exact R|exact (I eq_refl eq_refl)].
Defined.

Lemma validate_inputs_bounds_inclusive_witness :
  (exists d,
      fst (validate_inputs Sample.runtime Sample.form_at_max Sample.fresh) = Ok 0%nat /\
      heap (snd (validate_inputs Sample.runtime Sample.form_at_max Sample.fresh)) !! 0%nat
        = Some d /\
      dict_get d "Glucose" = Some (VNum (PyFloat (Finite (300 # 1))))) /\
  fst (validate_inputs Sample.runtime Sample.form_above_max Sample.fresh)
    = Raise (Exc ValueError "Invalid Glucose: Glucose must be between 0 and 300").
Proof.
  split.
  - apply (validate_inputs_bounds_inclusive Sample.runtime Sample.form_at_max Sample.fresh
             1 "Glucose" (PyInt 0) (PyInt 300) "300" (Finite (300 # 1))
             eq_refl eq_refl eq_refl ltac:(run) ltac:(others_valid)).
    + right. run.
    + others_valid.
  - apply (validate_inputs_bounds_inclusive Sample.runtime Sample.form_above_max Sample.fresh
             1 "Glucose" (PyInt 0) (PyInt 300) "300.5" (Finite (3005 # 10))
             eq_refl eq_refl eq_refl ltac:(run) ltac:(others_valid)).
    right. run.
Defined.

Lemma validate_inputs_first_failure_witness :
  fst (validate_inputs Sample.runtime Sample.form Sample.fresh) = Ok 0%nat /\
  heap (snd (validate_inputs Sample.runtime Sample.form Sample.fresh)) !! 0%nat
    = Some (dict_of_vector Sample.vector) /\
  fst (validate_inputs Sample.runtime Sample.form_above_max Sample.fresh)
    = Raise (Exc ValueError "Invalid Glucose: Glucose must be between 0 and 300").
Proof.
  pose proof (validate_inputs_first_failure Sample.runtime Sample.form Sample.fresh eq_refl)
    as (_ & H & _).
  pose proof (validate_inputs_first_failure Sample.runtime Sample.form_above_max Sample.fresh
                eq_refl) as (_ & H' & _).
  change (spec_validate Sample.runtime FIELD_RANGES Sample.form)
    with (@inr validation_error _ Sample.vector) in H.
  change (spec_validate Sample.runtime FIELD_RANGES Sample.form_above_max)
    with (@inl _ (list (string * pyfloat)) (RangeError "Glucose" (PyInt 0) (PyInt 300))) in H'.
  cbv beta iota in H, H'.
  destruct H as (A & B & _). destruct H' as (C & _).
  split; [exact A|]. split; [exact B|exact C].
Defined.

Lemma register_then_authenticate_witness :
  authenticate_user "alice" "password1" Sample.one_account = (Ok true, Sample.one_account) /\
  authenticate_user "alice" "password2" Sample.one_account
    = (Ok false, add_event login_failed Sample.one_account) /\
  authenticate_user "carol" "password1" Sample.one_account
    = (Ok false, add_event login_failed Sample.one_account).
Proof.
  pose proof (register_then_authenticate Sample.database Sample.one_account
                "alice" "password1" "alice@example.com" "Alice A" ltac:(run))
    as (A & _ & B & C & _).
  split; [exact A|]. split.
  - apply B. vm_compute. discriminate.
  - apply (C "carol" "password1"
             [UserRow "alice" (hash_password "password1") "alice@example.com" "Alice A"]).
    + run.
    + intros r [<-|[]]. discriminate.
Defined.

Lemma register_user_checks_in_order_witness :
  register_user "bobby" "password1" "alice@example.com" "Bob B" Sample.one_account
    = (Ok false, add_event (ShowError "Error" "Email already registered") Sample.one_account) /\
  register_user "alice" "password9" "other@example.com" "Alice B" Sample.one_account
    = (Ok false, add_event (ShowError "Error" "Username already exists") Sample.one_account) /\
  users Sample.two_accounts
    = Some [UserRow "alice" (hash_password "password1") "alice@example.com" "Alice A";
            UserRow "bobby" (hash_password "password1") "bobby@example.com" "Bob B"].
Proof.
  set (table := [UserRow "alice" (hash_password "password1") "alice@example.com" "Alice A"]).
  assert (U : users Sample.one_account = Some table) by run.
  pose proof (register_user_checks_in_order Sample.one_account table
                "bobby" "password1" "alice@example.com" "Bob B" U) as (A & _).
  pose proof (register_user_checks_in_order Sample.one_account table
                "alice" "password9" "other@example.com" "Alice B" U) as (B & _).
  pose proof (register_user_checks_in_order Sample.one_account table
                "bobby" "password1" "bobby@example.com" "Bob B" U) as (C & _).
  change (first_violation table "bobby" "password1" "alice@example.com" "Bob B")
    with (Some EmailTaken) in A.
  change (first_violation table "alice" "password9" "other@example.com" "Alice B")
    with (Some UsernameTaken) in B.
  change (first_violation table "bobby" "password1" "bobby@example.com" "Bob B")
    with (@None registration_error) in C.
  cbv beta iota in A, B, C.
  split; [exact (proj1 A)|]. split; [exact (proj1 B)|].
  unfold Sample.two_accounts. rewrite C. reflexivity.
Defined.


Lemma save_prediction_twice_witness :
  fs (snd (save_prediction Sample.runtime "Diabetic" 1
             (snd (save_prediction Sample.runtime "Non-Diabetic" 0 Sample.patients))))
    !! prediction_log
  = Some [ map VStr (keys FIELD_RANGES ++ ["Outcome"]);
           dict_values (dict_of_vector Sample.vector) ++ [VStr "Non-Diabetic"];
           [VNum (PyFloat (Finite (150 # 1))); VStr "Diabetic"] ].
Proof.
  pose proof (save_prediction_twice Sample.runtime Sample.patients "Non-Diabetic" "Diabetic"
                0 1 (dict_of_vector Sample.vector)
                [("Glucose", VNum (PyFloat (Finite (150 # 1))))]
                eq_refl eq_refl ltac:(run)) as (_ & _ & A).
  exact (A eq_refl).
Defined.

Lemma save_prediction_absorbs_write_failure_witness :
  fst (save_prediction Sample.runtime "Diabetic" 0 Sample.locked) = Ok tt /\
  trace (snd (save_prediction Sample.runtime "Diabetic" 0 Sample.locked)) =
    [OpenForWrite prediction_log;
     LogError "Error saving prediction: [Errno 13] Permission denied: 'diabetes_predictions.csv'";
     ShowError "Save Error"
       "Could not save prediction: [Errno 13] Permission denied: 'diabetes_predictions.csv'"].
Proof.
  pose proof (save_prediction_absorbs_write_failure Sample.runtime Sample.locked "Diabetic" 0
                (dict_of_vector Sample.vector) Sample.denied eq_refl eq_refl) as (A & _ & T).
  split; [exact A|exact T].
Defined.

(** A refused write does not make the call fail: it returns normally instead
    of raising the error. *)
Lemma save_prediction_does_not_raise :
  write_fault Sample.locked prediction_log = Some Sample.denied /\
  fst (save_prediction Sample.runtime "Diabetic" 0 Sample.locked) = Ok tt /\
  fst (save_prediction Sample.runtime "Diabetic" 0 Sample.locked) <> Raise Sample.denied.
Proof.
  split; [reflexivity|]. split; [run|]. vm_compute. discriminate.
Qed.

Lemma save_prediction_mutates_values_witness :
  heap (snd (save_prediction Sample.runtime "Non-Diabetic" 0 Sample.patients)) !! 0%nat
    = Some (dict_of_vector Sample.vector ++ [("Outcome", VStr "Non-Diabetic")]) /\
  heap (snd (save_prediction Sample.runtime "Non-Diabetic" 0 Sample.locked)) !! 0%nat
    = Some (dict_of_vector Sample.vector ++ [("Outcome", VStr "Non-Diabetic")]).
Proof.
  split.
  - exact (proj1 (save_prediction_mutates_values Sample.runtime Sample.patients
                    "Non-Diabetic" 0 (dict_of_vector Sample.vector) eq_refl)).
  - exact (proj1 (save_prediction_mutates_values Sample.runtime Sample.locked
                    "Non-Diabetic" 0 (dict_of_vector Sample.vector) eq_refl)).
Defined.

Lemma password_stored_as_digest_witness :
  String.length (hash_password "password1") = 64%nat /\
  hash_password "password1" <> "password1" /\
  hash_password Sample.capitals <> Sample.capitals /\
  hashed_at_rest Sample.one_account.
Proof.
  assert (I : hashed_at_rest Sample.database).
  { intros table E. vm_compute in E. inversion E. constructor. }
  pose proof (password_stored_as_digest Sample.database
                "alice" "password1" "alice@example.com" "Alice A" I)
    as (_ & A & _ & B & _ & _ & C & _).
  pose proof (password_stored_as_digest Sample.database
                "alice" Sample.capitals "alice@example.com" "Alice A" I)
    as (_ & _ & _ & _ & D & _).
  split; [exact A|]. split; [apply B; vm_compute; discriminate|].
  split; [apply D; vm_compute; reflexivity|exact C].
Defined.

(** There is no salt: two accounts with the same password hold the same
    value, the SHA-256 digest of the password by itself. *)
Lemma same_password_same_digest :
  users Sample.two_accounts =
    Some [ UserRow "alice" "0b14d501a594442a01c6859541bcb3e8164d183d32937b851835442f69d5c94e"
             "alice@example.com" "Alice A";
           UserRow "bobby" "0b14d501a594442a01c6859541bcb3e8164d183d32937b851835442f69d5c94e"
             "bobby@example.com" "Bob B" ] /\
  Sha256.hexdigest (encode "password1")
    = "0b14d501a594442a01c6859541bcb3e8164d183d32937b851835442f69d5c94e".
Proof. split; run. Qed.

(** * More of the program *)

(** ** Frames *)

Lemma frame_refl (paths : list string) (w : World) : frame paths w w.
Proof. repeat split; auto. exists []. now rewrite app_nil_r. Qed.

Lemma frame_trans (paths : list string) (w1 w2 w3 : World) :
  frame paths w1 w2 -> frame paths w2 w3 -> frame paths w1 w3.
Proof.
  intros (U1 & F1 & P1 & [m1 T1]) (U2 & F2 & P2 & [m2 T2]).
  repeat split; try congruence.
  - intros p N. now rewrite P2, P1.
  - exists (m1 ++ m2). now rewrite T2, T1, app_assoc.
Qed.

Lemma frame_heap (paths : list string) (w : World) (h : list dict) :
  frame paths w (set_heap h w).
Proof. repeat split; auto. exists []. cbn. now rewrite app_nil_r. Qed.

Lemma frame_event (paths : list string) (w : World) (e : event) :
  frame paths w (add_event e w).
Proof. repeat split; auto. now exists [e]. Qed.

Lemma keeps_ret {A} (paths : list string) (a : A) : keeps paths (ret a).
Proof. intros w. apply frame_refl. Qed.

Lemma keeps_raise {A} (paths : list string) (e : exc) : keeps paths (@raise A e).
Proof. intros w. apply frame_refl. Qed.

Lemma keeps_emit (paths : list string) (e : event) : keeps paths (emit e).
Proof. intros w. apply frame_event. Qed.

Lemma keeps_bind {A B} (paths : list string) (m : M A) (k : A -> M B) :
  keeps paths m -> (forall a, keeps paths (k a)) -> keeps paths (bind m k).
Proof.
  intros Hm Hk w. unfold bind. specialize (Hm w).
  destruct (m w) as [[a|e] w'] eqn:E; cbn [snd] in *; auto.
  eapply frame_trans; [exact Hm|apply Hk].
Qed.

Lemma keeps_try {A} (paths : list string) (body : M A) (catches : exc -> bool)
    (handler : exc -> M A) :
  keeps paths body -> (forall e, keeps paths (handler e)) ->
  keeps paths (try_except body catches handler).
Proof.
  intros Hb Hh w. unfold try_except. specialize (Hb w).
  destruct (body w) as [[a|e] w'] eqn:E; cbn [snd] in *; auto.
  destruct (catches e); auto.
  eapply frame_trans; [exact Hb|apply Hh].
Qed.

Lemma keeps_mapM {A B} (paths : list string) (f : A -> M B) (l : list A) :
  (forall a, keeps paths (f a)) -> keeps paths (mapM f l).
Proof.
  intros Hf. induction l as [|a l IH]; cbn [mapM].
  - apply keeps_ret.
  - apply keeps_bind; [apply Hf|]. intros b.
    apply keeps_bind; [exact IH|]. intros bs. apply keeps_ret.
Qed.

Lemma keeps_index {A} (paths : list string) (l : list A) (i : nat) :
  keeps paths (index l i).
Proof. unfold index. destruct (l !! i); [apply keeps_ret|apply keeps_raise]. Qed.

Lemma keeps_dict_getitem (paths : list string) (d : dict) (k : string) :
  keeps paths (dict_getitem d k).
Proof. unfold dict_getitem. destruct (dict_get d k); [apply keeps_ret|apply keeps_raise]. Qed.

Lemma keeps_new_dict (paths : list string) : keeps paths new_dict.
Proof. intros w. apply frame_heap. Qed.

Lemma keeps_deref (paths : list string) (r : nat) : keeps paths (deref r).
Proof. intros w. unfold deref. destruct (heap w !! r); apply frame_refl. Qed.

Lemma keeps_setitem (paths : list string) (r : nat) (k : string) (v : pyvalue) :
  keeps paths (setitem r k v).
Proof.
  intros w. unfold setitem. destruct (heap w !! r); [apply frame_heap|apply frame_refl].
Qed.

Lemma keeps_path_exists (paths : list string) (p : string) : keeps paths (path_exists p).
Proof. intros w. apply frame_refl. Qed.

Lemma keeps_to_csv (paths : list string) (df : DataFrame) (p : string)
    (mode : write_mode) (header : bool) :
  In p paths -> keeps paths (to_csv df p mode header).
Proof.
  intros I w. unfold to_csv.
  destruct (write_fault w p); [destruct (write_torn w p)|]; cbn [snd];
    try apply frame_event;
    (repeat split; auto;
     [intros q N; cbn; apply lookup_insert_ne; intros ->; contradiction
     |now exists [OpenForWrite p]]).
Qed.

Lemma keeps_call_predict (paths : list string) (m : Model) (X : list (list pyvalue)) :
  keeps paths (call_predict m X).
Proof.
  unfold call_predict. apply keeps_bind; [apply keeps_emit|].
  intros _ w. apply frame_refl.
Qed.

Lemma keeps_call_predict_proba (paths : list string) (m : Model) (X : list (list pyvalue)) :
  keeps paths (call_predict_proba m X).
Proof.
  unfold call_predict_proba. apply keeps_bind; [apply keeps_emit|].
  intros _ w. apply frame_refl.
Qed.

Lemma keeps_df_select (paths : list string) (df : DataFrame) (cols : list string) :
  keeps paths (df_select df cols).
Proof.
  unfold df_select. apply keeps_bind.
  - apply keeps_mapM. intros c.
    destruct (col_index (columns df) c); [apply keeps_ret|apply keeps_raise].
  - intros idxs. apply keeps_ret.
Qed.

Lemma keeps_df_setitem (paths : list string) (df : DataFrame) (name : string)
    (vals : list pyvalue) :
  keeps paths (df_setitem df name vals).
Proof.
  unfold df_setitem. destruct (negb _); [apply keeps_raise|].
  destruct (col_index (columns df) name); apply keeps_ret.
Qed.

Lemma try_all_returns (body : M unit) (handler : exc -> M unit) (w : World) :
  (forall e w', fst (handler e w') = Ok tt) ->
  fst (try_except body is_Exception handler w) = Ok tt.
Proof.
  intros H. unfold try_except. destruct (body w) as [[[]|e] w']; [reflexivity|].
  cbn [is_Exception]. apply H.
Qed.

Section Frames.

Context (rt : Runtime).

Lemma keeps_read_csv (paths : list string) (p : string) : keeps paths (read_csv rt p).
Proof.
  intros w. unfold read_csv. destruct (fs w !! p) as [[|h r]|]; apply frame_refl.
Qed.

Lemma keeps_validate_inputs (paths : list string) (entry_vars : list string) :
  keeps paths (validate_inputs rt entry_vars).
Proof.
  unfold validate_inputs. apply keeps_bind; [apply keeps_new_dict|]. intros values.
  apply keeps_bind; [|intros _; apply keeps_ret].
  generalize (combine (keys FIELD_RANGES) entry_vars). intros items.
  induction items as [|[field text] items IH]; cbn [validate_loop]; [apply keeps_ret|].
  apply keeps_bind; [|intros _; exact IH].
  unfold validate_entry. apply keeps_try; [|intros e; apply keeps_raise].
  apply keeps_bind.
  { unfold py_float. destruct (float_of_str rt text); [apply keeps_ret|apply keeps_raise]. }
  intros value. apply keeps_bind.
  { unfold FIELD_RANGES_getitem.
    destruct (lookup_range FIELD_RANGES field); [apply keeps_ret|apply keeps_raise]. }
  intros range. cbv zeta. destruct (negb _); [apply keeps_raise|apply keeps_setitem].
Qed.

Lemma keeps_save_prediction (paths : list string) (outcome : string) (values : nat) :
  In prediction_log paths -> keeps paths (save_prediction rt outcome values).
Proof.
  intros I. unfold save_prediction. apply keeps_try.
  - apply keeps_bind; [apply keeps_setitem|]. intros _.
    apply keeps_bind; [apply keeps_deref|]. intros d. cbv zeta.
    apply keeps_bind; [apply keeps_path_exists|]. intros there.
    apply keeps_bind; [now apply keeps_to_csv|]. intros _. apply keeps_emit.
  - intros e. apply keeps_bind; [apply keeps_emit|]. intros _. apply keeps_emit.
Qed.

Lemma keeps_predict_diabetes (model : option Model) (entry_vars : list string) :
  keeps [prediction_log] (predict_diabetes rt model entry_vars).
Proof.
  unfold predict_diabetes. destruct model as [m|]; [|apply keeps_emit].
  apply keeps_try.
  - apply keeps_bind; [apply keeps_validate_inputs|]. intros values.
    apply keeps_bind; [apply keeps_deref|]. intros d.
    apply keeps_bind; [apply keeps_mapM; intros k; apply keeps_dict_getitem|]. intros row.
    cbv zeta.
    apply keeps_bind; [apply keeps_call_predict|]. intros prediction.
    apply keeps_bind; [apply keeps_call_predict_proba|]. intros proba.
    apply keeps_bind; [apply keeps_index|]. intros proba0.
    apply keeps_bind; [apply keeps_index|]. intros probability.
    apply keeps_bind; [apply keeps_index|]. intros c.
    apply keeps_bind.
    + unfold show_prediction_result. apply keeps_bind; [apply keeps_deref|].
      intros d'. apply keeps_emit.
    + intros _. apply keeps_save_prediction. now left.
  - intros e. destruct (is_ValueError e); [apply keeps_emit|].
    apply keeps_bind; [apply keeps_emit|]. intros _. apply keeps_emit.
Qed.

Lemma keeps_batch_predict (model : option Model) (input_file save_path : string) :
  keeps [save_path] (batch_predict rt model input_file save_path).
Proof.
  unfold batch_predict. destruct model as [m|]; [|apply keeps_emit].
  apply keeps_try.
  - destruct (String.eqb input_file ""); [apply keeps_ret|].
    apply keeps_bind; [apply keeps_read_csv|]. intros data. cbv zeta.
    apply keeps_bind; [destruct (negb _); [apply keeps_raise|apply keeps_ret]|]. intros _.
    apply keeps_bind; [apply keeps_df_select|]. intros X.
    apply keeps_bind; [apply keeps_call_predict|]. intros predictions.
    apply keeps_bind; [apply keeps_df_select|]. intros X'.
    apply keeps_bind; [apply keeps_call_predict_proba|]. intros proba.
    apply keeps_bind; [apply keeps_mapM; intros r; apply keeps_index|]. intros probabilities.
    apply keeps_bind; [apply keeps_df_setitem|]. intros data1.
    apply keeps_bind; [apply keeps_df_setitem|]. intros data2.
    destruct (negb _); [|apply keeps_ret].
    apply keeps_bind; [apply keeps_to_csv; now left|]. intros _. apply keeps_emit.
  - intros e. apply keeps_bind; [apply keeps_emit|]. intros _. apply keeps_emit.
Qed.

(** X1: whatever the form holds, whatever the model does and whether the disk
    can be written or not, [predict_diabetes] returns normally; it leaves the
    user table alone, changes no file but the prediction log, and only adds
    to what has been shown and logged. *)
Theorem predict_diabetes_contained (model : option Model) (entry_vars : list string)
    (w : World) :
  fst (predict_diabetes rt model entry_vars w) = Ok tt /\
  frame [prediction_log] w (snd (predict_diabetes rt model entry_vars w)).
Proof.
  split; [|apply keeps_predict_diabetes].
  unfold predict_diabetes. destruct model as [m|]; [|reflexivity].
  apply try_all_returns. intros e w'. destruct (is_ValueError e); reflexivity.
Qed.

(** X2: whatever file is picked, whatever it holds and whatever the model
    does, [batch_predict] returns normally; it leaves the user table alone,
    changes no file but the one chosen to save to, and only adds to what has
    been shown and logged. *)
Theorem batch_predict_contained (model : option Model) (input_file save_path : string)
    (w : World) :
  fst (batch_predict rt model input_file save_path w) = Ok tt /\
  frame [save_path] w (snd (batch_predict rt model input_file save_path w)).
Proof.
  split; [|apply keeps_batch_predict].
  unfold batch_predict. destruct model as [m|]; [|reflexivity].
  apply try_all_returns. intros e w'. reflexivity.
Qed.

End Frames.

(** ** Predictions that do not go through *)

Lemma bind_raises {A B} (m : M A) (k : A -> M B) (w w' : World) (e : exc) :
  m w = (Raise e, w') -> bind m k w = (Raise e, w').
Proof. unfold bind. now intros ->. Qed.

Lemma dict_of_vector_keys (vec : list (string * pyfloat)) :
  map fst (dict_of_vector vec) = map fst vec.
Proof. unfold dict_of_vector. rewrite map_map. reflexivity. Qed.

Section Failures.

Context (rt : Runtime).

(** The first entry that does not validate decides the result. *)
Lemma spec_validate_fails (specs : list (string * (pynum * pynum))) :
  forall (entries : list string) (i : nat) f lo hi text,
    specs !! i = Some (f, (lo, hi)) -> entries !! i = Some text ->
    (forall (j : nat) f' lo' hi' text',
        (j < i)%nat -> specs !! j = Some (f', (lo', hi')) ->
        entries !! j = Some text' -> entry_ok rt lo' hi' text' = true) ->
    entry_ok rt lo hi text = false ->
    spec_validate rt specs entries =
      inl (match float_of_str rt text with
           | None => ParseError f text
           | Some _ => RangeError f lo hi
           end).
Proof.
  induction specs as [|[f0 [lo0 hi0]] specs IH]; intros entries i f lo hi text Hs He Hb Hn;
    [now destruct i|].
  destruct entries as [|t0 entries]; [now destruct i|].
  destruct i as [|i]; cbn in Hs, He.
  - inversion Hs; inversion He; subst. cbn [spec_validate]. unfold entry_ok in Hn.
    destruct (float_of_str rt text); [|reflexivity]. now rewrite Hn.
  - pose proof (Hb O f0 lo0 hi0 t0 ltac:(lia) eq_refl eq_refl) as H0.
    unfold entry_ok in H0. cbn [spec_validate].
    destruct (float_of_str rt t0); [|discriminate]. rewrite H0.
    rewrite (IH entries i f lo hi text Hs He); [reflexivity| |exact Hn].
    intros j f' lo' hi' t' Lt Hs' He'. apply (Hb (S j) f' lo' hi' t'); auto. lia.
Qed.

(** A form whose validation fails, run to the end. *)
Lemma predict_diabetes_rejects (m : Model) (entry_vars : list string) (w : World)
    (err : validation_error) :
  spec_validate rt FIELD_RANGES entry_vars = inl err ->
  exists d',
    predict_diabetes rt (Some m) entry_vars w =
      (Ok tt,
       add_event (ShowError "Input Error" (error_message rt err))
         (set_heap (heap w ++ [d']) w)).
Proof.
  intros E. pose proof (validate_inputs_run rt entry_vars w) as R. rewrite E in R.
  destruct R as [d' R]. exists d'.
  unfold predict_diabetes, try_except.
  erewrite bind_raises by exact R. reflexivity.
Qed.

(** X3: when an entry of the form does not validate and those before it do,
    [predict_diabetes] shows one "Input Error" box with the error of that
    field and does nothing else: the model is not called, no result is shown
    and no file is written. *)
Theorem predict_diabetes_invalid_form (m : Model) (entry_vars : list string) (w : World)
    (i : nat) (field : string) (lo hi : pynum) (text : string) :
  FIELD_RANGES !! i = Some (field, (lo, hi)) ->
  entry_vars !! i = Some text ->
  (forall (j : nat) f' lo' hi' text',
      (j < i)%nat -> FIELD_RANGES !! j = Some (f', (lo', hi')) ->
      entry_vars !! j = Some text' -> entry_ok rt lo' hi' text' = true) ->
  entry_ok rt lo hi text = false ->
  fst (predict_diabetes rt (Some m) entry_vars w) = Ok tt /\
  trace (snd (predict_diabetes rt (Some m) entry_vars w)) =
    trace w ++ [ShowError "Input Error"
                  (error_message rt
                     (match float_of_str rt text with
                      | None => ParseError field text
                      | Some _ => RangeError field lo hi
                      end))] /\
  fs (snd (predict_diabetes rt (Some m) entry_vars w)) = fs w.
Proof.
  intros Hs He Hb Hn.
  pose proof (spec_validate_fails FIELD_RANGES entry_vars i field lo hi text Hs He Hb Hn) as E.
  destruct (predict_diabetes_rejects m entry_vars w _ E) as [d' ->]. auto.
Qed.

Lemma not_finite_out_of_bounds (i : nat) (f : string) (lo hi : pynum) (v : pyfloat) :
  FIELD_RANGES !! i = Some (f, (lo, hi)) ->
  (forall q, v <> Finite q) ->
  in_bounds lo hi v = false.
Proof.
  intros H N.
  do 8 (destruct i as [|i];
        [cbn in H; inversion H; subst;
         destruct v as [q| | |]; [now destruct (N q)|reflexivity|reflexivity|reflexivity]|]).
  discriminate.
Qed.

(** X4: an entry that [float] reads as an infinity or as not-a-number is not
    a parse error: it fails the comparison with the bounds and is rejected
    with the range error of its field, whichever the field. *)
Theorem validate_inputs_rejects_nan_and_infinity (entry_vars : list string) (w : World)
    (i : nat) (field : string) (lo hi : pynum) (text : string) (v : pyfloat) :
  FIELD_RANGES !! i = Some (field, (lo, hi)) ->
  entry_vars !! i = Some text ->
  float_of_str rt text = Some v ->
  (forall q, v <> Finite q) ->
  (forall (j : nat) f' lo' hi' text',
      (j < i)%nat -> FIELD_RANGES !! j = Some (f', (lo', hi')) ->
      entry_vars !! j = Some text' -> entry_ok rt lo' hi' text' = true) ->
  fst (validate_inputs rt entry_vars w) =
    Raise (Exc ValueError
             ("Invalid " +:+ field +:+ ": "
                +:+ (field +:+ " must be between " +:+ str_num rt lo
                       +:+ " and " +:+ str_num rt hi))).
Proof.
  intros Hs He P N Hb.
  assert (Hn : entry_ok rt lo hi text = false).
  { unfold entry_ok. rewrite P. eapply not_finite_out_of_bounds; eauto. }
  pose proof (spec_validate_fails FIELD_RANGES entry_vars i field lo hi text Hs He Hb Hn) as E.
  rewrite P in E.
  pose proof (validate_inputs_run rt entry_vars w) as R. rewrite E in R.
  destruct R as [d' ->]. reflexivity.
Qed.

(** A valid form, run to the calls of the model. *)
Lemma predict_diabetes_reaches_model (entry_vars : list string) (w : World)
    (vec : list (string * pyfloat)) :
  length entry_vars = 8%nat ->
  spec_validate rt FIELD_RANGES entry_vars = inr vec ->
  let d := dict_of_vector vec in
  let w1 := set_heap (heap w ++ [d]) w in
  validate_inputs rt entry_vars w = (Ok (length (heap w)), w1) /\
  deref (length (heap w)) w1 = (Ok d, w1) /\
  mapM (dict_getitem d) (keys FIELD_RANGES) w1 = (Ok (dict_values d), w1).
Proof.
  intros L E d w1.
  destruct (validate_inputs_ok rt entry_vars w vec L E) as [R K].
  assert (H1 : heap w1 !! length (heap w) = Some d).
  { subst w1. cbn. now rewrite lookup_app_r, Nat.sub_diag by lia. }
  split; [exact R|]. split; [unfold deref; now rewrite H1|].
  rewrite <- K, <- (dict_of_vector_keys vec). fold d.
  apply mapM_getitem. intros k v I. apply dict_get_in; [|exact I].
  subst d. rewrite dict_of_vector_keys, K. exact field_names_distinct.
Qed.

(** X5: when the model raises on a valid form, no result is shown and no
    file is written.  A [ValueError] of the model is reported like a bad
    entry, in an "Input Error" box and without a log record; any other
    exception is logged and shown as "Prediction failed".  This holds for
    [predict] and, once [predict] has returned, for [predict_proba]. *)
Theorem predict_diabetes_model_failure (m : Model) (entry_vars : list string) (w : World)
    (vec : list (string * pyfloat)) (e : exc) :
  length entry_vars = 8%nat ->
  spec_validate rt FIELD_RANGES entry_vars = inr vec ->
  let X := [dict_values (dict_of_vector vec)] in
  let w' := snd (predict_diabetes rt (Some m) entry_vars w) in
  (predict m X = Raise e ->
   trace w' = trace w ++ [ModelPredict X] ++ prediction_failure e /\ fs w' = fs w) /\
  (forall classes, predict m X = Ok classes -> predict_proba m X = Raise e ->
   trace w' = trace w ++ [ModelPredict X; ModelPredictProba X] ++ prediction_failure e /\
   fs w' = fs w).
Proof.
  intros L E X w'.
  destruct (predict_diabetes_reaches_model entry_vars w vec L E) as (R & D & G).
  set (d := dict_of_vector vec) in *. set (w1 := set_heap (heap w ++ [d]) w) in *.
  split.
  - intros Hc. subst w'. unfold predict_diabetes, try_except.
    erewrite bind_ok by exact R. erewrite bind_ok by exact D.
    erewrite bind_ok by exact G.
    erewrite bind_raises
      by (unfold call_predict, bind, emit; fold X; rewrite Hc; reflexivity).
    cbn [is_Exception]. unfold prediction_failure.
    destruct (is_ValueError e); cbn; split; auto; now repeat rewrite <- app_assoc.
  - intros classes Hc Hp. subst w'. unfold predict_diabetes, try_except.
    erewrite bind_ok by exact R. erewrite bind_ok by exact D.
    erewrite bind_ok by exact G.
    erewrite bind_ok
      by (unfold call_predict, bind, emit; fold X; rewrite Hc; reflexivity).
    erewrite bind_raises
      by (unfold call_predict_proba, bind, emit; fold X; rewrite Hp; reflexivity).
    cbn [is_Exception]. unfold prediction_failure.
    destruct (is_ValueError e); cbn; split; auto; now repeat rewrite <- app_assoc.
Qed.

(** X6: a prediction that goes through on a disk that can be written adds
    exactly one record to the prediction log: the eight values of the form
    in the order of the fields, then the outcome; the header of the nine
    column names goes before it when, and only when, the file was not there;
    what the file held stays in front. *)
Theorem predict_diabetes_records (m : Model) (entry_vars : list string) (w : World)
    (vec : list (string * pyfloat)) (c : Z) (cs : list Z)
    (p0 p : pyfloat) (ps : list pyfloat) (pss : list (list pyfloat)) :
  length entry_vars = 8%nat ->
  spec_validate rt FIELD_RANGES entry_vars = inr vec ->
  predict m [dict_values (dict_of_vector vec)] = Ok (c :: cs) ->
  predict_proba m [dict_values (dict_of_vector vec)] = Ok ((p0 :: p :: ps) :: pss) ->
  write_fault w prediction_log = None ->
  fs (snd (predict_diabetes rt (Some m) entry_vars w)) =
    <[prediction_log :=
        match fs w !! prediction_log with
        | Some old => old
        | None => [map VStr (keys FIELD_RANGES ++ ["Outcome"])]
        end ++ [map (fun fv => VNum (PyFloat (snd fv))) vec ++ [VStr (outcome_of c)]]]>
      (fs w).
Proof.
  intros L E Hc Hp F.
  rewrite (predict_diabetes_run rt m entry_vars w vec c cs p0 p ps pss L E Hc Hp).
  set (d := dict_of_vector vec).
  set (w4 := add_event (ResultWindow (outcome_of c) p d) _).
  assert (H4 : heap w4 !! length (heap w) = Some d).
  { subst w4. cbn. now rewrite lookup_app_r, Nat.sub_diag by lia. }
  rewrite (save_prediction_run rt w4 (outcome_of c) (length (heap w)) d H4).
  change (write_fault w4 prediction_log) with (write_fault w prediction_log). rewrite F.
  destruct (validate_inputs_ok rt entry_vars w vec L E) as [_ K].
  assert (A : dict_get d "Outcome" = None).
  { apply dict_get_absent. subst d. rewrite dict_of_vector_keys, K. cbn.
    intuition discriminate. }
  rewrite (dict_set_fresh d "Outcome" _ A).
  assert (Hk : dict_keys (d ++ [("Outcome", VStr (outcome_of c))])
               = keys FIELD_RANGES ++ ["Outcome"]).
  { unfold dict_keys. rewrite map_app. subst d. now rewrite dict_of_vector_keys, K. }
  assert (Hv : dict_values (d ++ [("Outcome", VStr (outcome_of c))])
               = map (fun fv => VNum (PyFloat (snd fv))) vec ++ [VStr (outcome_of c)]).
  { unfold dict_values. rewrite map_app. subst d. unfold dict_of_vector.
    now rewrite map_map. }
  rewrite Hk, Hv.
  cbn [snd fs add_event set_fs set_heap]. change (fs w4) with (fs w).
  destruct (fs w !! prediction_log) as [old|] eqn:O.
  - rewrite bool_decide_eq_true_2 by eauto. reflexivity.
  - rewrite bool_decide_eq_false_2 by (intros [? ?]; discriminate). reflexivity.
Qed.

End Failures.

(** ** Batches that go through *)

Lemma col_index_present (cols : list string) (c : string) :
  In c cols -> exists i, col_index cols c = Some i.
Proof.
  induction cols as [|c' cols IH]; intros I; [destruct I|].
  cbn. destruct (String.eqb_spec c' c) as [->|N]; [now exists O|].
  destruct I as [->|I]; [contradiction|].
  destruct (IH I) as [i ->]. now exists (S i).
Qed.

Lemma col_index_absent (cols : list string) (c : string) :
  ~ In c cols -> col_index cols c = None.
Proof.
  induction cols as [|c' cols IH]; intros N; [reflexivity|].
  cbn. destruct (String.eqb_spec c' c) as [->|_]; [exfalso; apply N; now left|].
  rewrite IH; [reflexivity|]. intros I. apply N. now right.
Qed.

Lemma df_select_present (df : DataFrame) (cols : list string) (w : World) :
  (forall c, In c cols -> In c (columns df)) ->
  df_select df cols w =
    (Ok (map (fun row => map (cell (columns df) row) cols) (rows df)), w).
Proof.
  intros H. unfold df_select.
  assert (G : mapM (fun c => match col_index (columns df) c with
                             | Some i => ret i
                             | None => raise (Exc KeyError c)
                             end) cols w
              = (Ok (map (fun c => default O (col_index (columns df) c)) cols), w)).
  { induction cols as [|c cols IH]; [reflexivity|].
    cbn [mapM map]. destruct (col_index_present (columns df) c (H c (or_introl eq_refl)))
      as [i Hi].
    unfold bind at 1. rewrite Hi. cbn [ret].
    unfold bind at 1. rewrite IH by (intros; apply H; now right).
    reflexivity. }
  erewrite bind_ok by exact G. unfold ret. f_equal. f_equal.
  apply map_ext. intros row. unfold cell. now rewrite map_map.
Qed.

Lemma mapM_index1 (proba : list (list pyfloat)) (w : World) :
  Forall (fun r => (2 <= length r)%nat) proba ->
  mapM (fun r => index r 1) proba w = (Ok (map (fun r => nth 1 r NaN) proba), w).
Proof.
  induction 1 as [|r proba Hr _ IH]; [reflexivity|].
  cbn [mapM map]. destruct r as [|a [|b r]]; cbn in Hr; try lia.
  erewrite bind_ok by reflexivity. erewrite bind_ok by exact IH. reflexivity.
Qed.

Lemma augment_combine (records : list (list pyvalue)) :
  forall (classes : list Z) (probabilities : list pyfloat),
    map (fun rv => fst rv ++ [snd rv])
      (combine
         (map (fun rv => fst rv ++ [snd rv])
            (combine records (map (fun c => VNum (PyInt c)) classes)))
         (map (fun p => VNum (PyFloat p)) probabilities))
    = augment records classes probabilities.
Proof.
  induction records as [|r records IH]; intros classes probabilities; [reflexivity|].
  destruct classes as [|c classes]; [reflexivity|].
  destruct probabilities as [|p probabilities]; [reflexivity|].
  cbn [map combine fst snd augment]. rewrite IH, <- app_assoc. reflexivity.
Qed.


(** ** Tables that are read as written *)

(** A record that is short of a cell is filled up, and an integer beside a
    float or beside a missing value is read as a float. *)
Example frame_rows_fills_and_retypes :
  frame_rows Sample.runtime 3
    [ [VNum (PyInt 1); VNum (PyInt 25); VNum (PyInt 7)];
      [VNum (PyInt 2); VNum (PyFloat (Finite (63 # 2)))] ]
  = [ [VNum (PyInt 1); VNum (PyFloat (Finite (25 # 1))); VNum (PyFloat (Finite (7 # 1)))];
      [VNum (PyInt 2); VNum (PyFloat (Finite (63 # 2))); NA] ].
Proof. reflexivity. Qed.

Lemma retype_row_same (rt : Runtime) (ts : list dtype) :
  forall record : list pyvalue,
    (forall i t v, nth_error ts i = Some t -> nth_error record i = Some v ->
                   retype rt t v = v) ->
    retype_row rt ts record = record.
Proof.
  induction ts as [|t ts IH]; intros [|v record] H; try reflexivity.
  cbn [retype_row]. rewrite (H O t v eq_refl eq_refl). f_equal.
  apply IH. intros i t' v' Ht Hv. exact (H (S i) t' v' Ht Hv).
Qed.

Lemma forallb_In {A} (f : A -> bool) (l : list A) (a : A) :
  forallb f l = true -> In a l -> f a = true.
Proof. intros H I. rewrite forallb_forall in H. now apply H. Qed.

Lemma plain_column_cell (rt : Runtime) (cells : list pyvalue) (v : pyvalue) :
  plain_column rt cells = true -> In v cells ->
  retype rt (column_dtype cells) v = v /\ read_cell v = v /\ [v] <> [VStr ""].
Proof.
  unfold plain_column. intros P I.
  apply orb_true_iff in P as [P|P]; [apply orb_true_iff in P as [P|P]|].
  - assert (A : forallb is_int cells = true).
    { apply forallb_forall. intros x Ix. pose proof (forallb_In _ _ _ P Ix) as Px.
      destruct x as [[z|x]|s]; try discriminate. reflexivity. }
    pose proof (forallb_In _ _ _ P I) as Pv.
    destruct v as [[z|x]|s]; try discriminate.
    unfold column_dtype. rewrite A. repeat split; discriminate.
  - assert (A : forallb is_num cells = true).
    { apply forallb_forall. intros x Ix. pose proof (forallb_In _ _ _ P Ix) as Px.
      destruct x as [[z|x]|s]; try discriminate. reflexivity. }
    pose proof (forallb_In _ _ _ P I) as Pv.
    destruct v as [[z|x]|s]; try discriminate.
    unfold column_dtype. rewrite A.
    destruct (forallb is_int cells); repeat split; discriminate.
  - pose proof (forallb_In _ _ _ P I) as Pv.
    destruct v as [n|s]; [discriminate|].
    cbn [plain_text] in Pv. apply andb_true_iff in Pv as [Pv _].
    apply negb_true_iff, bool_decide_eq_false_1 in Pv.
    assert (Nna : s ∉ na_values).
    { intros E. apply Pv. apply elem_of_app. now left. }
    assert (Nb : s ∉ true_values ++ false_values).
    { intros E. apply Pv. apply elem_of_app. now right. }
    assert (B : forallb is_bool cells = false).
    { apply not_true_is_false. intros B. pose proof (forallb_In _ _ _ B I) as Bv.
      cbn [is_bool] in Bv. apply bool_decide_eq_true_1 in Bv. contradiction. }
    split; [|split].
    + unfold column_dtype. rewrite B.
      destruct (forallb is_int cells); [reflexivity|].
      destruct (forallb is_num cells); reflexivity.
    + cbn [read_cell]. now rewrite bool_decide_eq_false_2.
    + intros E. injection E as ->. apply Nna. unfold na_values. apply list_elem_of_here.
Qed.

Lemma plain_table_cell (rt : Runtime) (n : nat) (records : list (list pyvalue))
    (record : list pyvalue) (i : nat) (v : pyvalue) :
  plain_table rt n records = true -> In record records -> nth_error record i = Some v ->
  length record = n /\
  retype rt (column_dtype (column i records)) v = v /\ read_cell v = v /\ [v] <> [VStr ""].
Proof.
  unfold plain_table. intros P I Hv. apply andb_true_iff in P as [L C].
  pose proof (forallb_In _ _ _ L I) as Lr. apply Nat.eqb_eq in Lr.
  split; [exact Lr|].
  assert (Hi : (i < n)%nat).
  { rewrite <- Lr. apply nth_error_Some. now rewrite Hv. }
  apply plain_column_cell.
  - apply (forallb_In _ _ i C). apply in_seq. lia.
  - unfold column. apply in_map_iff. exists record. split; [|exact I].
    now apply nth_error_nth.
Qed.

Lemma map_same {A} (f : A -> A) (l : list A) :
  (forall a, In a l -> f a = a) -> map f l = l.
Proof.
  intros H. rewrite <- (map_id l) at 2. apply map_ext_in. exact H.
Qed.

Lemma plain_table_length (rt : Runtime) (n : nat) (records : list (list pyvalue))
    (record : list pyvalue) :
  plain_table rt n records = true -> In record records -> length record = n.
Proof.
  unfold plain_table. intros P I. apply andb_true_iff in P as [L _].
  pose proof (forallb_In _ _ _ L I) as Lr. now apply Nat.eqb_eq in Lr.
Qed.

Lemma frame_rows_plain (rt : Runtime) (n : nat) (records : list (list pyvalue)) :
  n <> O -> plain_table rt n records = true -> frame_rows rt n records = records.
Proof.
  intros Hn P. unfold frame_rows.
  assert (F : filter (fun record => negb (blank record)) records = records).
  { assert (G : forall l, (forall r, In r l -> In r records) ->
                          filter (fun record => negb (blank record)) l = l).
    { induction l as [|r l IH]; intros Hl; [reflexivity|].
      pose proof (Hl r (or_introl eq_refl)) as I.
      pose proof (plain_table_length rt n records r P I) as L.
      assert (B : blank r = false).
      { destruct r as [|[x|[|a s]] [|v' r]]; try reflexivity.
        - cbn in L. congruence.
        - now destruct (plain_table_cell rt n records [VStr ""] O (VStr "") P I eq_refl)
            as (_ & _ & _ & N). }
      rewrite filter_cons, B. cbn [negb].
      destruct (decide (Is_true true)) as [_|N]; [|exfalso; apply N; exact Logic.I].
      f_equal. apply IH. intros r' I'. apply Hl. now right. }
    apply G. auto. }
  rewrite F.
  assert (T : map (fun record => pad n (map read_cell record)) records = records).
  { apply map_same. intros r I.
    rewrite map_same.
    - unfold pad. rewrite (plain_table_length rt n records r P I), Nat.sub_diag.
      apply app_nil_r.
    - intros v Iv. apply In_nth_error in Iv as [i Hi].
      now destruct (plain_table_cell rt n records r i v P I Hi) as (_ & _ & R & _). }
  rewrite T. apply map_same. intros r I. apply retype_row_same.
  intros i t v Ht Hv.
  destruct (plain_table_cell rt n records r i v P I Hv) as (L & R & _).
  assert (Hi : (i < n)%nat).
  { rewrite <- L. apply nth_error_Some. now rewrite Hv. }
  rewrite nth_error_map, nth_error_seq in Ht.
  destruct (Nat.ltb_spec i n) as [_|]; [|lia].
  cbn in Ht. injection Ht as <-. exact R.
Qed.

Section BatchRun.

Context (rt : Runtime).

Lemma header_not_empty (header : list pyvalue) :
  (forall c, In c (keys FIELD_RANGES) -> In c (map (str_value rt) header)) ->
  length header <> O.
Proof.
  intros Hall. destruct header; [|discriminate].
  destruct (Hall "Pregnancies" (or_introl eq_refl)).
Qed.

(** A table with the eight columns and a model that answers for every row
    of the frame that is read from it, run to the point where the result is
    written. *)
Lemma batch_predict_scores (m : Model) (input_file save_path : string) (w : World)
    (header : list pyvalue) (records : list (list pyvalue))
    (classes : list Z) (proba : list (list pyfloat)) :
  input_file <> "" ->
  fs w !! input_file = Some (header :: records) ->
  let cols := map (str_value rt) header in
  let table := frame_rows rt (length header) records in
  let X := map (fun row => map (cell cols row) (keys FIELD_RANGES)) table in
  let probabilities := map (fun r => nth 1 r NaN) proba in
  (forall c, In c (keys FIELD_RANGES) -> In c cols) ->
  ~ In "Predicted_Outcome" cols -> ~ In "Probability" cols ->
  predict m X = Ok classes -> length classes = length table ->
  predict_proba m X = Ok proba -> length proba = length table ->
  Forall (fun r => (2 <= length r)%nat) proba ->
  let scored := add_event (ModelPredictProba X) (add_event (ModelPredict X) w) in
  batch_predict rt (Some m) input_file save_path w =
    if String.eqb save_path "" then (Ok tt, scored)
    else
      match write_fault w save_path with
      | Some e =>
          (Ok tt,
           add_event (ShowError "Error" ("Batch prediction failed: " +:+ exc_msg e))
             (add_event (LogError ("Batch prediction error: " +:+ exc_msg e))
                match write_torn w save_path with
                | None => add_event (OpenForWrite save_path) scored
                | Some k =>
                    set_fs (<[save_path :=
                                take k (map VStr (cols ++ ["Predicted_Outcome"; "Probability"])
                                          :: augment table classes probabilities)]> (fs w))
                      (add_event (OpenForWrite save_path) scored)
                end))
      | None =>
          (Ok tt,
           add_event (ShowInfo "Success" ("Batch predictions saved to " +:+ save_path))
             (set_fs (<[save_path :=
                          map VStr (cols ++ ["Predicted_Outcome"; "Probability"])
                            :: augment table classes probabilities]> (fs w))
                (add_event (OpenForWrite save_path) scored)))
      end.
Proof.
  intros Hin F cols table X probabilities Hall Hno1 Hno2 Hc Lc Hp Lp H2 scored.
  set (data := mkDataFrame cols table).
  assert (A : forallb (fun col => bool_decide (col ∈ columns data)) (keys FIELD_RANGES)
              = true).
  { apply forallb_forall. intros c I. apply bool_decide_eq_true_2, list_elem_of_In.
    now apply Hall. }
  assert (S1 : forall w', df_select data (keys FIELD_RANGES) w' = (Ok X, w')).
  { intros w'. now rewrite df_select_present by exact Hall. }
  set (data1 := mkDataFrame (cols ++ ["Predicted_Outcome"])
                  (map (fun rv => fst rv ++ [snd rv])
                     (combine table (map (fun c => VNum (PyInt c)) classes)))).
  assert (D1 : forall w', df_setitem data "Predicted_Outcome"
                            (map (fun c => VNum (PyInt c)) classes) w' = (Ok data1, w')).
  { intros w'. unfold df_setitem. cbn [rows columns data].
    rewrite List.length_map, Lc, Nat.eqb_refl. cbn [negb].
    now rewrite (col_index_absent cols _ Hno1). }
  assert (L1 : length (rows data1) = length table).
  { cbn [rows data1]. rewrite List.length_map, List.length_combine, List.length_map, Lc.
    apply Nat.min_id. }
  set (data2 := mkDataFrame (cols ++ ["Predicted_Outcome"; "Probability"])
                  (augment table classes probabilities)).
  assert (D2 : forall w', df_setitem data1 "Probability"
                            (map (fun p => VNum (PyFloat p)) probabilities) w'
                          = (Ok data2, w')).
  { intros w'. unfold df_setitem. rewrite L1.
    unfold probabilities at 1. rewrite !List.length_map, Lp, Nat.eqb_refl. cbn [negb].
    rewrite col_index_absent.
    - unfold ret, data2. cbn [columns rows data1].
      rewrite augment_combine, <- app_assoc. reflexivity.
    - cbn [columns data1]. intros I. apply in_app_or in I as [I|[I|[]]];
        [contradiction|discriminate]. }
  unfold batch_predict, try_except.
  destruct (String.eqb_spec input_file ""); [contradiction|].
  assert (B : forall k : DataFrame -> M unit,
             bind (read_csv rt input_file) k w = k data w).
  { intros k. apply bind_ok. unfold read_csv. now rewrite F. }
  rewrite B. rewrite A. cbn [negb].
  erewrite bind_ok by reflexivity.
  erewrite bind_ok by apply S1.
  erewrite bind_ok by (unfold call_predict, bind, emit; rewrite Hc; reflexivity).
  erewrite bind_ok by apply S1.
  erewrite bind_ok by (unfold call_predict_proba, bind, emit; rewrite Hp; reflexivity).
  erewrite bind_ok by (apply mapM_index1; exact H2).
  erewrite bind_ok by apply D1.
  erewrite bind_ok by apply D2.
  fold scored.
  destruct (String.eqb save_path ""); cbn [negb]; [reflexivity|].
  unfold bind, to_csv. change (write_fault scored save_path) with (write_fault w save_path).
  change (write_torn scored save_path) with (write_torn w save_path).
  destruct (write_fault w save_path); [destruct (write_torn w save_path)|]; reflexivity.
Qed.


(** X8: when the save dialog is cancelled, a table of the same kind (every
    record as long as the header, every column of one kind) has been scored
    by the model, and that is all: no file is written and nothing is shown
    or logged, success or error. *)
Theorem batch_predict_save_cancelled (m : Model) (input_file : string)
    (w : World) (header : list pyvalue) (records : list (list pyvalue))
    (classes : list Z) (proba : list (list pyfloat)) :
  input_file <> "" ->
  fs w !! input_file = Some (header :: records) ->
  (forall c, In c (keys FIELD_RANGES) -> In c (map (str_value rt) header)) ->
  plain_table rt (length header) records = true ->
  ~ In "Predicted_Outcome" (map (str_value rt) header) ->
  ~ In "Probability" (map (str_value rt) header) ->
  predict m (map (fun row => map (cell (map (str_value rt) header) row) (keys FIELD_RANGES))
               records) = Ok classes ->
  length classes = length records ->
  predict_proba m (map (fun row => map (cell (map (str_value rt) header) row)
                                     (keys FIELD_RANGES)) records) = Ok proba ->
  length proba = length records ->
  Forall (fun r => (2 <= length r)%nat) proba ->
  let w' := snd (batch_predict rt (Some m) input_file "" w) in
  fs w' = fs w /\
  trace w' =
    trace w ++
      [ModelPredict (map (fun row => map (cell (map (str_value rt) header) row)
                                       (keys FIELD_RANGES)) records);
       ModelPredictProba (map (fun row => map (cell (map (str_value rt) header) row)
                                            (keys FIELD_RANGES)) records)].
Proof.
  intros Hin F Hall Hplain Hno1 Hno2 Hc Lc Hp Lp H2 w'. subst w'.
  pose proof (batch_predict_scores m input_file "" w header records classes proba
                Hin F) as S.
  cbv zeta in S. rewrite (frame_rows_plain rt _ _ (header_not_empty header Hall) Hplain) in S.
  rewrite (S Hall Hno1 Hno2 Hc Lc Hp Lp H2).
  cbn. split; [reflexivity|]. now repeat rewrite <- app_assoc.
Qed.

End BatchRun.

(** ** The user table over time *)

Lemma existsb_username (table : list user_row) (u : string) :
  existsb (fun r => String.eqb (row_username r) u) table = true <->
  In u (map row_username table).
Proof.
  rewrite existsb_exists, in_map_iff. split.
  - intros (r & I & E). apply String.eqb_eq in E. eauto.
  - intros (r & E & I). exists r. split; [exact I|]. now apply String.eqb_eq.
Qed.

Lemma existsb_email (table : list user_row) (e : string) :
  existsb (fun r => String.eqb (row_email r) e) table = true <->
  In e (map row_email table).
Proof.
  rewrite existsb_exists, in_map_iff. split.
  - intros (r & I & E). apply String.eqb_eq in E. eauto.
  - intros (r & E & I). exists r. split; [exact I|]. now apply String.eqb_eq.
Qed.

Lemma first_violation_well_formed (table : list user_row)
    (username password email full_name : string) :
  first_violation table username password email full_name =
    if well_formed username password email full_name then
      if existsb (fun r => String.eqb (row_username r) username) table
      then Some UsernameTaken
      else if existsb (fun r => String.eqb (row_email r) email) table
           then Some EmailTaken else None
    else first_violation [] username password email full_name.
Proof.
  unfold first_violation, well_formed, nonempty.
  destruct (String.eqb username ""), (String.eqb password ""), (String.eqb email ""),
    (String.eqb full_name ""); cbn [negb andb orb]; try reflexivity.
  rewrite !Nat.leb_antisym.
  destruct (String.length username <? 4)%nat; cbn [negb andb]; [reflexivity|].
  destruct (String.length password <? 8)%nat; cbn [negb andb]; [reflexivity|].
  destruct (validate_email email); reflexivity.
Qed.

Lemma first_violation_none_well_formed (table : list user_row)
    (username password email full_name : string) :
  first_violation table username password email full_name = None ->
  well_formed username password email full_name = true.
Proof.
  unfold first_violation, well_formed, nonempty.
  destruct (String.eqb username ""), (String.eqb password ""), (String.eqb email ""),
    (String.eqb full_name ""); cbn [negb andb orb]; try discriminate.
  rewrite !Nat.leb_antisym.
  destruct (String.length username <? 4)%nat; cbn [negb andb]; [discriminate|].
  destruct (String.length password <? 8)%nat; cbn [negb andb]; [discriminate|].
  destruct (validate_email email); [reflexivity|discriminate].
Qed.

Lemma well_formed_fields (username password email full_name : string) :
  well_formed username password email full_name = true ->
  (4 <= String.length username)%nat /\ (8 <= String.length password)%nat /\
  validate_email email = true /\ full_name <> "".
Proof.
  unfold well_formed, nonempty. intros H.
  repeat (apply andb_prop in H as [H ?]).
  repeat split; try (now apply Nat.leb_le); auto.
  intros ->. discriminate.
Qed.

(** What each operation does to the table. *)
Lemma program_step_table (w w' : World) :
  program_step w w' ->
  users w' = users w \/
  (users w = None /\ users w' = Some []) \/
  (exists table username password email full_name,
      users w = Some table /\
      first_violation table username password email full_name = None /\
      users w' = Some (table ++ [UserRow username (hash_password password)
                                   email full_name])).
Proof.
  intros [ |u p e f|u p|rt model entry_vars|rt model input_file save_path].
  - unfold create_user_table. destruct (users w) eqn:U; cbn; auto.
  - destruct (users w) as [table|] eqn:U.
    + rewrite (register_user_run w table u p e f U).
      destruct (first_violation table u p e f) eqn:V; cbn; auto.
      right. right. exists table, u, p, e, f. auto.
    + destruct (register_user_no_table w u p e f U) as (w1 & -> & N). cbn. left. congruence.
  - destruct (users w) as [table|] eqn:U.
    + rewrite (authenticate_user_run w table u p U).
      destruct (head _) as [r|]; [destruct (String.eqb _ _)|]; cbn; auto.
    + destruct (authenticate_user_no_table w u p U) as (w1 & -> & N). cbn. left. congruence.
  - left. apply (keeps_predict_diabetes rt model entry_vars w).
  - left. apply (keeps_batch_predict rt model input_file save_path w).
Qed.

Lemma program_step_consistent (w w' : World) :
  program_step w w' -> store_consistent w -> store_consistent w'.
Proof.
  intros S I.
  destruct (program_step_table w w' S)
    as [E|[[_ E]|(table & u & p & e & f & U & V & E)]].
  - intros t Ht. apply I. congruence.
  - intros t Ht. rewrite E in Ht. inversion Ht; subst. cbn.
    repeat split; constructor.
  - intros t Ht. rewrite E in Ht. inversion Ht; subst.
    destruct (I table U) as (Nu & Ne & Va).
    destruct (first_violation_none table u p e f V) as (_ & _ & _ & Xu & Xe).
    destruct (well_formed_fields u p e f (first_violation_none_well_formed _ _ _ _ _ V))
      as (Lu & Lp & Ve & Nf).
    rewrite !map_app. cbn [map row_username row_email].
    split; [|split].
    + apply List.NoDup_app; [exact Nu|repeat constructor; intros []|].
      intros x Hx [<-|[]]. apply existsb_username in Hx. congruence.
    + apply List.NoDup_app; [exact Ne|repeat constructor; intros []|].
      intros x Hx [<-|[]]. apply existsb_email in Hx. congruence.
    + apply Forall_app. split; [exact Va|]. constructor; [|constructor].
      repeat split; auto. exists p. auto.
Qed.

(** X9: through any run of the program's operations the user table stays
    consistent: no two rows have the same username, no two the same email,
    and every row has a username of at least 4 characters, an email of the
    accepted shape, a full name, and for password the digest of a password
    of at least 8 characters. *)
Theorem store_consistent_forever (w w' : World) :
  store_consistent w -> program_steps w w' -> store_consistent w'.
Proof.
  intros I S. induction S as [|w1 w2 _ IH S]; [exact I|].
  eapply program_step_consistent; eauto.
Qed.

Lemma program_step_appends (w w' : World) (table : list user_row) :
  program_step w w' -> users w = Some table ->
  exists more, users w' = Some (table ++ more).
Proof.
  intros S U.
  destruct (program_step_table w w' S) as [E|[[N _]|(t & u & p & e & f & U' & _ & E)]].
  - exists []. rewrite app_nil_r. congruence.
  - congruence.
  - rewrite U in U'. inversion U'; subst. eauto.
Qed.

(** X10: the user table is append-only: whatever the program does next, the
    rows that are in the table stay there, unchanged and in the same order,
    before any row that is added. *)
Theorem store_append_only (w w' : World) (table : list user_row) :
  users w = Some table -> program_steps w w' ->
  exists more, users w' = Some (table ++ more).
Proof.
  intros U S. induction S as [|w1 w2 _ IH S].
  - exists []. now rewrite app_nil_r.
  - destruct IH as [m1 U1]. destruct (program_step_appends w1 w2 _ S U1) as [m2 U2].
    exists (m1 ++ m2). now rewrite app_assoc.
Qed.

Lemma program_steps_appends (w w' : World) (table : list user_row) :
  users w = Some table -> program_steps w w' ->
  exists more, users w' = Some (table ++ more).
Proof.
  intros U S. induction S as [|w1 w2 _ IH S].
  - exists []. now rewrite app_nil_r.
  - destruct IH as [m1 U1]. destruct (program_step_appends w1 w2 _ S U1) as [m2 U2].
    exists (m1 ++ m2). now rewrite app_assoc.
Qed.

Lemma head_filter_app {A} (f : A -> bool) (l k : list A) (a : A) :
  head (List.filter f l) = Some a -> head (List.filter f (l ++ k)) = Some a.
Proof.
  intros H. rewrite List.filter_app. destruct (List.filter f l); [discriminate|exact H].
Qed.

(** X11: an account that has been registered keeps working: after any
    further run of the program's operations, logging in with the username
    and the password it was registered with still returns true, and shows
    nothing. *)
Theorem login_persists (w w1 w2 : World) (username password email full_name : string) :
  register_user username password email full_name w = (Ok true, w1) ->
  program_steps w1 w2 ->
  authenticate_user username password w2 = (Ok true, w2).
Proof.
  intros R S.
  destruct (register_user_accepted w w1 _ _ _ _ R) as (table & U & V & ->).
  destruct (first_violation_none table _ _ _ _ V) as (_ & _ & _ & Hn & _).
  set (row := UserRow username (hash_password password) email full_name) in *.
  destruct ((fun U0 => program_steps_appends _ w2 (table ++ [row]) U0 S) eq_refl)
    as [more U2].
  rewrite (authenticate_user_run w2 _ username password U2).
  assert (H : head (List.filter (fun r => String.eqb (row_username r) username)
                      (table ++ [row])) = Some row).
  { rewrite List.filter_app, filter_none.
    - cbn. now rewrite String.eqb_refl.
    - intros a I. destruct (String.eqb (row_username a) username) eqn:E; auto.
      assert (X : existsb (fun r => String.eqb (row_username r) username) table = true)
        by (apply existsb_exists; eauto).
      congruence. }
  rewrite (head_filter_app _ _ more row H). cbn [row_password row].
  now rewrite String.eqb_refl.
Qed.

(** X12: a username and an email, once registered, stay taken: after any
    further run of the program, a registration under that username returns
    false and leaves the table as it is, with the message "Username already
    exists" when its fields are well formed; and a well-formed registration
    of a free username with that email returns false with "Email already
    registered". *)
Theorem registered_names_stay_taken (w w1 w2 : World)
    (username password email full_name : string) (table2 : list user_row)
    (username' password' email' full_name' : string) :
  register_user username password email full_name w = (Ok true, w1) ->
  program_steps w1 w2 ->
  users w2 = Some table2 ->
  (fst (register_user username password' email' full_name' w2) = Ok false /\
   users (snd (register_user username password' email' full_name' w2)) = Some table2) /\
  (well_formed username password' email' full_name' = true ->
   register_user username password' email' full_name' w2 =
     (Ok false, add_event (ShowError "Error" "Username already exists") w2)) /\
  (well_formed username' password' email full_name' = true ->
   ~ In username' (map row_username table2) ->
   register_user username' password' email full_name' w2 =
     (Ok false, add_event (ShowError "Error" "Email already registered") w2)).
Proof.
  intros R S U2.
  destruct (register_user_accepted w w1 _ _ _ _ R) as (table & U & V & ->).
  set (row := UserRow username (hash_password password) email full_name) in *.
  destruct ((fun U0 => program_steps_appends _ w2 (table ++ [row]) U0 S) eq_refl)
    as [more U2'].
  rewrite U2 in U2'. inversion U2'; subst table2. clear U2'.
  assert (Iu : existsb (fun r => String.eqb (row_username r) username)
                 ((table ++ [row]) ++ more) = true).
  { apply existsb_username. rewrite !map_app. apply in_or_app. left.
    apply in_or_app. right. now left. }
  assert (Ie : existsb (fun r => String.eqb (row_email r) email)
                 ((table ++ [row]) ++ more) = true).
  { apply existsb_email. rewrite !map_app. apply in_or_app. left.
    apply in_or_app. right. now left. }
  split; [|split].
  - rewrite (register_user_run w2 _ username password' email' full_name' U2).
    rewrite first_violation_well_formed, Iu.
    destruct (well_formed username password' email' full_name') eqn:W; [now cbn|].
    destruct (first_violation [] username password' email' full_name') eqn:V0; [now cbn|].
    apply first_violation_none_well_formed in V0. congruence.
  - intros W. rewrite (register_user_run w2 _ username password' email' full_name' U2).
    now rewrite first_violation_well_formed, W, Iu.
  - intros W N. rewrite (register_user_run w2 _ username' password' email full_name' U2).
    rewrite first_violation_well_formed, W, Ie.
    destruct (existsb (fun r => String.eqb (row_username r) username')
                ((table ++ [row]) ++ more)) eqn:X; [|reflexivity].
    apply existsb_username in X. contradiction.
Qed.

Lemma head_filter_unique (table : list user_row) (u : string) (r : user_row) :
  List.NoDup (map row_username table) ->
  (head (List.filter (fun r => String.eqb (row_username r) u) table) = Some r <->
   In r table /\ row_username r = u).
Proof.
  induction table as [|a table IH]; intros N; cbn.
  - split; [discriminate|tauto].
  - inversion N as [|? ? Na N']; subst.
    destruct (String.eqb_spec (row_username a) u) as [E|E]; cbn.
    + split.
      * intros H. inversion H; subst. auto.
      * intros [[->|I] Er]; [reflexivity|].
        exfalso. apply Na. rewrite E, <- Er. now apply in_map.
    + rewrite (IH N'). split.
      * intros [I Er]. auto.
      * intros [[->|I] Er]; [contradiction|auto].
Qed.

Lemma authenticate_user_decides (w : World) (table : list user_row)
    (username password : string) :
  users w = Some table ->
  List.NoDup (map row_username table) ->
  let ok := existsb (fun r => String.eqb (row_username r) username
                              && String.eqb (row_password r) (hash_password password))
              table in
  authenticate_user username password w =
    (Ok ok, if ok then w else add_event login_failed w) /\
  (ok = true <->
   exists r, In r table /\ row_username r = username /\
             row_password r = hash_password password).
Proof.
  intros U N ok.
  assert (X : ok = true <->
              exists r, In r table /\ row_username r = username /\
                        row_password r = hash_password password).
  { subst ok. rewrite existsb_exists. split.
    - intros (r & I & E). apply andb_prop in E as [E1 E2].
      apply String.eqb_eq in E1, E2. eauto.
    - intros (r & I & E1 & E2). exists r. split; [exact I|].
      apply andb_true_intro. split; now apply String.eqb_eq. }
  split; [|exact X].
  rewrite (authenticate_user_run w table username password U).
  destruct (head (List.filter (fun r => String.eqb (row_username r) username) table))
    as [r|] eqn:H.
  - apply (head_filter_unique table username r N) in H as [I E].
    destruct (String.eqb_spec (row_password r) (hash_password password)) as [P|P].
    + assert (O : ok = true) by (apply X; eauto). now rewrite O.
    + assert (O : ok = false).
      { apply not_true_is_false. intros O. apply X in O as (r' & I' & E' & P').
        assert (r' = r); [|congruence].
        assert (H' : head (List.filter (fun r => String.eqb (row_username r) username) table)
                     = Some r') by (apply head_filter_unique; auto).
        assert (H0 : head (List.filter (fun r => String.eqb (row_username r) username) table)
                     = Some r) by (apply head_filter_unique; auto).
        congruence. }
      now rewrite O.
  - assert (O : ok = false).
    { apply not_true_is_false. intros O. apply X in O as (r' & I' & E' & P').
      assert (H' : head (List.filter (fun r => String.eqb (row_username r) username) table)
                   = Some r') by (apply head_filter_unique; auto).
      congruence. }
    now rewrite O.
Qed.

(** X13: on a table where usernames are unique, logging in returns true
    exactly when some row holds that username together with the digest of
    that password; in every case it returns (true or false, never an
    exception) and leaves the table, the files and the dictionaries as they
    are, showing one "Login Failed" box when it returns false. *)
Theorem authenticate_user_exact (w : World) (table : list user_row)
    (username password : string) :
  users w = Some table ->
  List.NoDup (map row_username table) ->
  let ok := existsb (fun r => String.eqb (row_username r) username
                              && String.eqb (row_password r) (hash_password password))
              table in
  authenticate_user username password w =
    (Ok ok, if ok then w else add_event login_failed w) /\
  (ok = true <->
   exists r, In r table /\ row_username r = username /\
             row_password r = hash_password password).
Proof. exact (authenticate_user_decides w table username password). Qed.

(** ** The email pattern *)

Lemma append_nil_r (s : string) : s +:+ "" = s.
Proof. induction s as [|c s IH]; [reflexivity|exact (f_equal (String c) IH)]. Qed.

Lemma append_assoc (a b c : string) : (a +:+ b) +:+ c = a +:+ (b +:+ c).
Proof. induction a as [|x a IH]; [reflexivity|exact (f_equal (String x) IH)]. Qed.

Lemma append_eq_nil (u v : string) : u +:+ v = "" -> u = "" /\ v = "".
Proof. destruct u; cbn; [auto|discriminate]. Qed.

Lemma append_eq_cons (u v : string) (c : ascii) (s : string) :
  u +:+ v = String c s ->
  (u = "" /\ v = String c s) \/ (exists u', u = String c u' /\ s = u' +:+ v).
Proof.
  destruct u as [|x u]; cbn; intros H; [now left|].
  inversion H; subst. right. eauto.
Qed.

Lemma matches_cat_inv (r s : regex) (t : string) :
  matches (Cat r s) t <-> exists u v, t = u +:+ v /\ matches r u /\ matches s v.
Proof.
  split.
  - intros H. inversion H; subst. eauto.
  - intros (u & v & -> & Hu & Hv). now constructor.
Qed.

Lemma nullable_matches (r : regex) : nullable r = true <-> matches r "".
Proof.
  split.
  - induction r as [| |p|r1 IH1 r2 IH2|r1 IH1 r2 IH2|r IH]; cbn; intros H;
      try discriminate.
    + constructor.
    + apply andb_prop in H as [H1 H2].
      change "" with ("" +:+ ""). constructor; auto.
    + apply orb_prop in H as [H|H]; [apply matches_alt_l|apply matches_alt_r]; auto.
    + constructor.
  - intros H. remember "" as s eqn:Es. revert Es.
    induction H as [|p c Hp|r s u v Hu IHu Hv IHv|r s u Hu IH|r s u Hu IH|r|r u v Hu IHu Hv IHv];
      intros Es; cbn; auto; try discriminate.
    + apply append_eq_nil in Es as [-> ->]. now rewrite IHu, IHv.
    + now rewrite IH.
    + rewrite IH by exact Es. apply orb_true_r.
Qed.

Lemma matches_star_cons (r : regex) (c : ascii) (s : string) :
  matches (Star r) (String c s) ->
  exists u v, s = u +:+ v /\ matches r (String c u) /\ matches (Star r) v.
Proof.
  intros H. remember (Star r) as r' eqn:Er. remember (String c s) as t eqn:Et.
  revert s Et.
  induction H as [|p x Hp|r1 s1 u v Hu IHu Hv IHv|r1 s1 u Hu IH|r1 s1 u Hu IH|r1
                  |r1 u v Hu IHu Hv IHv];
    intros s Et; try discriminate.
  inversion Er; subst r1.
  apply append_eq_cons in Et as [[-> ->]|(u' & -> & ->)].
  - apply IHv; auto.
  - exists u', v. auto.
Qed.

Lemma deriv_matches (r : regex) :
  forall (c : ascii) (s : string), matches (deriv c r) s <-> matches r (String c s).
Proof.
  induction r as [| |p|r1 IH1 r2 IH2|r1 IH1 r2 IH2|r IH]; intros c s; cbn [deriv].
  - split; intros H; inversion H.
  - split; intros H; inversion H.
  - destruct (p c) eqn:Hp; split; intros H; inversion H; subst.
    + now constructor.
    + constructor.
    + congruence.
  - assert (A : matches (Cat (deriv c r1) r2) s ->  matches (Cat r1 r2) (String c s)).
    { intros H. inversion H; subst.
      change (String c (u +:+ v)) with (String c u +:+ v).
      constructor; [now apply IH1|assumption]. }
    assert (B : matches (Cat r1 r2) (String c s) ->
                matches (Cat (deriv c r1) r2) s \/
                (matches r1 "" /\ matches r2 (String c s))).
    { intros H. apply matches_cat_inv in H as (u & v & E & Hu & Hv). symmetry in E.
      apply append_eq_cons in E as [[-> ->]|(u' & -> & ->)].
      - right. auto.
      - left. constructor; [now apply IH1|assumption]. }
    destruct (nullable r1) eqn:N.
    + split.
      * intros H. inversion H; subst; [now apply A|].
        change (String c s) with ("" +:+ String c s).
        constructor; [now apply nullable_matches|now apply IH2].
      * intros H. apply B in H as [H|[_ H]];
          [now apply matches_alt_l|apply matches_alt_r; now apply IH2].
    + split; [exact A|].
      intros H. apply B in H as [H|[H _]]; [exact H|].
      apply nullable_matches in H. congruence.
  - split; intros H; inversion H; subst.
    + apply matches_alt_l. now apply IH1.
    + apply matches_alt_r. now apply IH2.
    + apply matches_alt_l. now apply IH1.
    + apply matches_alt_r. now apply IH2.
  - split.
    + intros H. inversion H; subst.
      change (String c (u +:+ v)) with (String c u +:+ v).
      constructor; [now apply IH|assumption].
    + intros H. apply matches_star_cons in H as (u & v & -> & Hu & Hv).
      constructor; [now apply IH|assumption].
Qed.

(** The matcher is right: it accepts the strings of the expression. *)
Lemma fullmatch_matches (s : string) :
  forall r : regex, fullmatch r s = true <-> matches r s.
Proof.
  induction s as [|c s IH]; intros r; cbn [fullmatch].
  - apply nullable_matches.
  - rewrite IH. apply deriv_matches.
Qed.

Lemma matches_chr (c : ascii) (s : string) :
  matches (Chr c) s <-> s = String c "".
Proof.
  unfold Chr. split.
  - intros H. inversion H; subst. f_equal. symmetry. now apply Ascii.eqb_eq.
  - intros ->. constructor. apply Ascii.eqb_refl.
Qed.

Lemma matches_star_class (p : ascii -> bool) (s : string) :
  matches (Star (Class p)) s <-> all_chars p s = true.
Proof.
  unfold all_chars. split.
  - induction s as [|c s IH]; intros H; [reflexivity|].
    apply matches_star_cons in H as (u & v & -> & Hu & Hv).
    inversion Hu; subst. cbn. apply andb_true_intro. split; [assumption|].
    apply IH. exact Hv.
  - induction s as [|c s IH]; cbn; intros H; [constructor|].
    apply andb_prop in H as [Hc Hs].
    change (String c s) with (String c "" +:+ s). constructor; [now constructor|auto].
Qed.

Lemma matches_plus_class (p : ascii -> bool) (s : string) :
  matches (Plus (Class p)) s <-> s <> "" /\ all_chars p s = true.
Proof.
  unfold Plus. split.
  - intros H. apply matches_cat_inv in H as (u & v & -> & Hu & Hv).
    inversion Hu; subst. split; [discriminate|].
    apply matches_star_class in Hv. unfold all_chars in *. cbn.
    apply andb_true_intro. auto.
  - intros [N H]. destruct s as [|c s]; [contradiction|].
    unfold all_chars in H. cbn in H. apply andb_prop in H as [Hc Hs].
    change (String c s) with (String c "" +:+ s).
    constructor; [now constructor|now apply matches_star_class].
Qed.

Lemma matches_tld (t : string) :
  matches (Cat (Class is_alpha) (Cat (Class is_alpha) (Star (Class is_alpha)))) t <->
  (2 <= String.length t)%nat /\ all_chars is_alpha t = true.
Proof.
  split.
  - intros H. apply matches_cat_inv in H as (u & v & -> & Hu & H).
    apply matches_cat_inv in H as (u' & v' & -> & Hu' & Hv').
    inversion Hu as [|? a Ha| | | | |]; inversion Hu' as [|? b Hb| | | | |]; subst.
    apply matches_star_class in Hv'.
    change (String a "" +:+ (String b "" +:+ v')) with (String a (String b v')).
    unfold all_chars in *. cbn. split; [lia|].
    rewrite Ha, Hb. exact Hv'.
  - intros [L H]. destruct t as [|a [|b t]]; cbn in L; try lia.
    unfold all_chars in H. cbn in H.
    apply andb_prop in H as [Ha H]. apply andb_prop in H as [Hb Ht].
    change (String a (String b t)) with (String a "" +:+ (String b "" +:+ t)).
    constructor; [now constructor|]. constructor; [now constructor|].
    now apply matches_star_class.
Qed.

Lemma matches_opt_newline (s : string) :
  matches (Opt (Chr "010")) s <-> s = "" \/ s = newline.
Proof.
  unfold Opt. split.
  - intros H. inversion H; subst.
    + right. now apply matches_chr.
    + left. match goal with X : matches Eps _ |- _ => now inversion X end.
  - intros [->| ->]; [apply matches_alt_r; constructor|apply matches_alt_l].
    now apply matches_chr.
Qed.

(** X14: [validate_email] accepts exactly the strings made of one or more
    characters among letters, digits and [._%+-], an [@], one or more
    characters among letters, digits, dots and hyphens, a dot, and two or
    more letters, with or without one newline at the very end (the [$] of
    the pattern lets a final newline through). *)
Theorem validate_email_shape (email : string) :
  validate_email email = true <->
  exists local domain tld ending,
    email = local +:+ "@" +:+ domain +:+ "." +:+ tld +:+ ending /\
    local <> "" /\ all_chars local_char local = true /\
    domain <> "" /\ all_chars domain_char domain = true /\
    (2 <= String.length tld)%nat /\ all_chars is_alpha tld = true /\
    (ending = "" \/ ending = newline).
Proof.
  unfold validate_email, re_match_anchored. rewrite fullmatch_matches.
  unfold email_regex. fold local_char. fold domain_char.
  split.
  - intros H.
    apply matches_cat_inv in H as (body & ending & -> & H & He).
    apply matches_cat_inv in H as (local & r1 & -> & Hl & H).
    apply matches_cat_inv in H as (at_ & r2 & -> & Ha & H).
    apply matches_cat_inv in H as (domain & r3 & -> & Hd & H).
    apply matches_cat_inv in H as (dot & tld & -> & Hdot & Ht).
    apply matches_chr in Ha, Hdot. subst at_ dot.
    apply matches_plus_class in Hl as [Nl Al], Hd as [Nd Ad].
    apply matches_tld in Ht as [Lt At].
    apply matches_opt_newline in He.
    exists local, domain, tld, ending. repeat split; auto.
    rewrite !append_assoc. reflexivity.
  - intros (local & domain & tld & ending & -> & Nl & Al & Nd & Ad & Lt & At & He).
    replace (local +:+ "@" +:+ domain +:+ "." +:+ tld +:+ ending)
      with ((local +:+ (String "@" "" +:+ (domain +:+ (String "." "" +:+ tld)))) +:+ ending)
      by (rewrite !append_assoc; reflexivity).
    constructor; [|now apply matches_opt_newline].
    constructor; [now apply matches_plus_class|].
    constructor; [now apply matches_chr|].
    constructor; [now apply matches_plus_class|].
    constructor; [now apply matches_chr|].
    now apply matches_tld.
Qed.

(** ** The callbacks *)

(** X15: [load_model] never raises.  When [joblib.load] returns a model it
    returns that model and shows nothing; when [joblib.load] raises it logs
    the error, shows it and returns [None], and with that [None] for model
    both [predict_diabetes] and [batch_predict] show "Model not loaded" and
    do nothing else. *)
Theorem load_model_failure_disables_prediction (rt : Runtime)
    (joblib_load : string -> result Model) (model_path : string) (w : World) :
  match joblib_load model_path with
  | Ok m => load_model joblib_load model_path w = (Ok (Some m), w)
  | Raise e =>
      load_model joblib_load model_path w =
        (Ok None,
         add_event (ShowError "Error" ("Failed to load model: " +:+ exc_msg e))
           (add_event (LogError ("Error loading model: " +:+ exc_msg e)) w)) /\
      forall (entry_vars : list string) (input_file save_path : string) (w' : World),
        (let* model := load_model joblib_load model_path in
         predict_diabetes rt model entry_vars) w' =
          (Ok tt,
           add_event (ShowError "Error" "Model not loaded")
             (add_event (ShowError "Error" ("Failed to load model: " +:+ exc_msg e))
                (add_event (LogError ("Error loading model: " +:+ exc_msg e)) w'))) /\
        (let* model := load_model joblib_load model_path in
         batch_predict rt model input_file save_path) w' =
          (Ok tt,
           add_event (ShowError "Error" "Model not loaded")
             (add_event (ShowError "Error" ("Failed to load model: " +:+ exc_msg e))
                (add_event (LogError ("Error loading model: " +:+ exc_msg e)) w')))
  end.
Proof.
  unfold load_model, try_except, bind.
  destruct (joblib_load model_path) as [m|e]; [reflexivity|].
  split; [reflexivity|]. intros entry_vars input_file save_path w'. split; reflexivity.
Qed.

(** X16: after Reset every entry is empty, and a prediction then stops at the
    first field: with a [float] that refuses the empty string (as Python's
    does), [predict_diabetes] shows the parse error of "Pregnancies" and does
    nothing else, whatever the form held before. *)
Theorem reset_form_then_predict (rt : Runtime) (m : Model) (entry_vars : list string)
    (w : World) :
  float_of_str rt "" = None ->
  entry_vars <> [] ->
  length (reset_form entry_vars) = length entry_vars /\
  Forall (fun text => text = "") (reset_form entry_vars) /\
  trace (snd (predict_diabetes rt (Some m) (reset_form entry_vars) w)) =
    trace w ++ [ShowError "Input Error"
                  ("Invalid Pregnancies: could not convert string to float: "
                     +:+ repr_str rt "")] /\
  fs (snd (predict_diabetes rt (Some m) (reset_form entry_vars) w)) = fs w.
Proof.
  intros P N. unfold reset_form.
  split; [apply List.length_map|]. split.
  { apply Forall_forall. intros x I. apply list_elem_of_In, in_map_iff in I.
    now destruct I as (? & <- & _). }
  destruct entry_vars as [|t entry_vars]; [contradiction|].
  assert (E : spec_validate rt FIELD_RANGES (map (fun _ => "") (t :: entry_vars))
              = inl (ParseError "Pregnancies" "")).
  { cbn. now rewrite P. }
  destruct (predict_diabetes_rejects rt m _ w _ E) as [d' ->]. auto.
Qed.

(** X17: the main application is started by [login_action] exactly when a
    row of the table holds the username with the digest of the password, and
    then from the world as the login found it; otherwise the only effect is
    the "Login Failed" box. *)
Theorem login_action_gate (on_successful_login : M unit) (w : World)
    (table : list user_row) (username password : string) :
  users w = Some table ->
  List.NoDup (map row_username table) ->
  ((exists r, In r table /\ row_username r = username /\
              row_password r = hash_password password) ->
   login_action on_successful_login username password w = on_successful_login w) /\
  (~ (exists r, In r table /\ row_username r = username /\
                row_password r = hash_password password) ->
   login_action on_successful_login username password w
     = (Ok tt, add_event login_failed w)).
Proof.
  intros U N.
  destruct (authenticate_user_decides w table username password U N) as [A X].
  cbv zeta in A, X. unfold login_action.
  split; intros H.
  - apply X in H. rewrite H in A. erewrite bind_ok by exact A. reflexivity.
  - assert (O : existsb (fun r => String.eqb (row_username r) username
                                  && String.eqb (row_password r) (hash_password password))
                  table = false).
    { apply not_true_is_false. intros O. apply H, X, O. }
    rewrite O in A. erewrite bind_ok by exact A. reflexivity.
Qed.

(** X18: [register_action] lets nothing through when the two passwords
    differ: it shows "Passwords do not match" and the table is not even
    read.  When they agree it shows the message of the first rule that the
    fields break and stays on the form, or it adds the row and goes back to
    the login window. *)
Theorem register_action_confirms_password (create_login_window : M unit) (w : World)
    (table : list user_row) (username password confirm_password email full_name : string) :
  users w = Some table ->
  register_action create_login_window username password confirm_password email full_name w =
    if String.eqb password confirm_password then
      match first_violation table username password email full_name with
      | Some err => (Ok tt, add_event (ShowError "Error" (error_text err)) w)
      | None =>
          create_login_window
            (add_event (ShowInfo "Success" "User registered successfully")
               (set_users
                  (Some (table ++ [UserRow username (hash_password password) email full_name]))
                  w))
      end
    else (Ok tt, add_event (ShowError "Error" "Passwords do not match") w).
Proof.
  intros U. unfold register_action.
  destruct (String.eqb password confirm_password); cbn [negb]; [|reflexivity].
  pose proof (register_user_run w table username password email full_name U) as R.
  destruct (first_violation table username password email full_name);
    erewrite bind_ok by exact R; reflexivity.
Qed.

(** ** Themes *)

Lemma apply_theme_themed (bg fg input_bg input_fg : string) (g : Windows) :
  themed bg fg (apply_theme bg fg input_bg input_fg (window_config bg g)).
Proof.
  repeat split. cbn. apply Forall_forall. intros wd I.
  apply list_elem_of_In, in_map_iff in I. destruct I as (wd0 & <- & _).
  destruct (is_label wd0) eqn:L; cbn; [auto|]. rewrite L. discriminate.
Qed.

Lemma apply_theme_twice (bg fg ibg ifg bg' fg' ibg' ifg' : string) (g : Windows) :
  apply_theme bg' fg' ibg' ifg' (window_config bg' (apply_theme bg fg ibg ifg (window_config bg g)))
  = apply_theme bg' fg' ibg' ifg' (window_config bg' g).
Proof.
  unfold apply_theme, window_config. cbn. f_equal. rewrite map_map.
  apply map_ext. intros wd. destruct (is_label wd) eqn:L; cbn; [reflexivity|now rewrite L].
Qed.

Lemma apply_theme_entries (bg fg ibg ifg : string) (g : Windows) :
  List.filter (fun wd => negb (is_label wd)) (input_children (apply_theme bg fg ibg ifg g))
  = List.filter (fun wd => negb (is_label wd)) (input_children g).
Proof.
  unfold apply_theme. cbn. induction (input_children g) as [|wd l IH]; [reflexivity|].
  cbn. destruct (is_label wd) eqn:L; cbn; [exact IH|]. rewrite L. cbn. now rewrite IH.
Qed.

(** X19: [toggle_theme] goes to the light theme from a window whose
    background is the dark one and to the dark theme from any other; after
    it every frame and label has the colours of the theme it went to;
    toggling again gives the other theme of the same window; and the widgets
    of the form that are not labels, the entries, keep the colours they had
    (the two input colours that the themes pass are never used). *)
Theorem toggle_theme_alternates (g : Windows) :
  (window_bg g = "#25446C" ->
   toggle_theme g = set_light_theme g /\ themed "#FFFFFF" "black" (toggle_theme g)) /\
  (window_bg g <> "#25446C" ->
   toggle_theme g = set_dark_theme g /\ themed "#25446C" "white" (toggle_theme g)) /\
  toggle_theme (set_dark_theme g) = set_light_theme g /\
  toggle_theme (set_light_theme g) = set_dark_theme g /\
  toggle_theme (toggle_theme (toggle_theme g)) = toggle_theme g /\
  List.filter (fun wd => negb (is_label wd)) (input_children (toggle_theme g))
  = List.filter (fun wd => negb (is_label wd)) (input_children g).
Proof.
  assert (DL : toggle_theme (set_dark_theme g) = set_light_theme g).
  { unfold toggle_theme. cbn [window_bg set_dark_theme apply_theme window_config].
    cbn [String.eqb Ascii.eqb Bool.eqb]. apply apply_theme_twice. }
  assert (LD : toggle_theme (set_light_theme g) = set_dark_theme g).
  { unfold toggle_theme. cbn [window_bg set_light_theme apply_theme window_config].
    cbn [String.eqb Ascii.eqb Bool.eqb]. apply apply_theme_twice. }
  split; [|split; [|split; [|split; [|split]]]]; auto.
  - intros E. unfold toggle_theme. rewrite E. cbn [String.eqb Ascii.eqb Bool.eqb].
    split; [reflexivity|apply apply_theme_themed].
  - intros N. unfold toggle_theme. apply String.eqb_neq in N. rewrite N.
    split; [reflexivity|apply apply_theme_themed].
  - assert (T : toggle_theme g = set_light_theme g \/ toggle_theme g = set_dark_theme g).
    { unfold toggle_theme. destruct (String.eqb (window_bg g) "#25446C"); auto. }
    destruct T as [-> | ->]; [now rewrite LD, DL|now rewrite DL, LD].
  - unfold toggle_theme. destruct (String.eqb (window_bg g) "#25446C");
      unfold set_light_theme, set_dark_theme; now rewrite apply_theme_entries.
Qed.

(** ** More of the program on the reference runtime *)

Ltac before_valid :=
  let j := fresh "j" in
  let Hs := fresh "Hs" in
  let He := fresh "He" in
  intros j ? ? ? ? ? Hs He;
  do 8 (destruct j as [|j];
        [first [ lia
               | cbn in Hs, He; inversion Hs; inversion He; subst; run ]|]);
  discriminate Hs.

Ltac columns_present :=
  let c := fresh "c" in
  let H := fresh "H" in
  intros c H; cbn in H;
  repeat (destruct H as [<-|H]; [cbn; tauto|]); destruct H.

Lemma predict_diabetes_invalid_form_witness :
  trace (snd (predict_diabetes Sample.runtime (Some Sample.classifier)
                Sample.form_with_text Sample.fresh))
    = [ShowError "Input Error"
         "Invalid Blood Pressure: could not convert string to float: 'high'"] /\
  fs (snd (predict_diabetes Sample.runtime (Some Sample.classifier)
             Sample.form_with_text Sample.fresh)) = ∅.
Proof.
  pose proof (predict_diabetes_invalid_form Sample.runtime Sample.classifier
                Sample.form_with_text Sample.fresh 2 "Blood Pressure" (PyInt 0) (PyInt 200)
                "high" eq_refl eq_refl ltac:(before_valid) ltac:(run)) as (_ & T & F).
  split; [exact T|exact F].
Defined.

Lemma validate_inputs_rejects_nan_and_infinity_witness :
  fst (validate_inputs Sample.runtime_special Sample.form_with_nan Sample.fresh)
    = Raise (Exc ValueError "Invalid Glucose: Glucose must be between 0 and 300").
Proof.
  apply (validate_inputs_rejects_nan_and_infinity Sample.runtime_special
           Sample.form_with_nan Sample.fresh 1 "Glucose" (PyInt 0) (PyInt 300) "nan" NaN
           eq_refl eq_refl ltac:(run) ltac:(discriminate) ltac:(before_valid)).
Defined.

Lemma predict_diabetes_model_failure_witness :
  trace (snd (predict_diabetes Sample.runtime (Some Sample.refusing) Sample.form
                Sample.fresh))
    = [ModelPredict [dict_values (dict_of_vector Sample.vector)];
       ShowError "Input Error" "X has 8 features, but the model expects 9"] /\
  fs (snd (predict_diabetes Sample.runtime (Some Sample.refusing) Sample.form
             Sample.fresh)) = ∅.
Proof.
  pose proof (predict_diabetes_model_failure Sample.runtime Sample.refusing Sample.form
                Sample.fresh Sample.vector
                (Exc ValueError "X has 8 features, but the model expects 9")
                eq_refl ltac:(run)) as (A & _).
  exact (A eq_refl).
Defined.

Lemma predict_diabetes_records_witness :
  fs (snd (predict_diabetes Sample.runtime (Some Sample.classifier) Sample.form
             Sample.fresh))
    = <[prediction_log :=
          [ map VStr (keys FIELD_RANGES ++ ["Outcome"]);
            map (fun fv => VNum (PyFloat (snd fv))) Sample.vector ++ [VStr "Non-Diabetic"] ]]>
        ∅.
Proof.
  exact (predict_diabetes_records Sample.runtime Sample.classifier Sample.form
           Sample.fresh Sample.vector 0 [] (Finite (22 # 25)) (Finite (3 # 25)) [] []
           eq_refl ltac:(run) ltac:(run) ltac:(run) eq_refl).
Defined.


Lemma batch_predict_save_cancelled_witness :
  fs (snd (batch_predict Sample.runtime (Some Sample.classifier) "in.csv" ""
             Sample.full_table)) = fs Sample.full_table /\
  trace (snd (batch_predict Sample.runtime (Some Sample.classifier) "in.csv" ""
                Sample.full_table))
    = [ModelPredict Sample.batch_input; ModelPredictProba Sample.batch_input].
Proof.
  exact (batch_predict_save_cancelled Sample.runtime Sample.classifier
           "in.csv" Sample.full_table Sample.batch_header
           Sample.batch_records [0; 1] Sample.batch_proba
           ltac:(discriminate) ltac:(run)
           ltac:(columns_present) ltac:(run)
           ltac:(cbn; intuition discriminate) ltac:(cbn; intuition discriminate)
           ltac:(run) eq_refl ltac:(run) eq_refl
           ltac:(repeat constructor)).
Defined.

Lemma sample_run : program_steps Sample.fresh Sample.two_accounts.
Proof.
  eapply steps_more; [eapply steps_more; [eapply steps_more; [apply steps_none|]|]|].
  - apply step_create.
  - exact (step_register Sample.database "alice" "password1" "alice@example.com" "Alice A").
  - exact (step_register Sample.one_account "bobby" "password1" "bobby@example.com" "Bob B").
Defined.

Lemma sample_later : program_steps Sample.one_account Sample.two_accounts.
Proof.
  eapply steps_more; [apply steps_none|].
  exact (step_register Sample.one_account "bobby" "password1" "bobby@example.com" "Bob B").
Defined.

Lemma store_consistent_forever_witness : store_consistent Sample.two_accounts.
Proof.
  apply (store_consistent_forever Sample.fresh Sample.two_accounts); [|exact sample_run].
  intros table E. discriminate E.
Defined.

Lemma store_append_only_witness :
  exists more, users Sample.two_accounts = Some ([Sample.alice] ++ more).
Proof.
  apply (store_append_only Sample.one_account Sample.two_accounts [Sample.alice]);
    [run|exact sample_later].
Defined.

Lemma login_persists_witness :
  authenticate_user "alice" "password1" Sample.two_accounts = (Ok true, Sample.two_accounts).
Proof.
  apply (login_persists Sample.database Sample.one_account Sample.two_accounts
           "alice" "password1" "alice@example.com" "Alice A"); [run|exact sample_later].
Defined.

Lemma registered_names_stay_taken_witness :
  register_user "alice" "another-password" "new@example.com" "Alice Again" Sample.two_accounts
    = (Ok false, add_event (ShowError "Error" "Username already exists") Sample.two_accounts) /\
  register_user "carol" "another-password" "alice@example.com" "Carol C" Sample.two_accounts
    = (Ok false, add_event (ShowError "Error" "Email already registered") Sample.two_accounts).
Proof.
  pose proof (registered_names_stay_taken Sample.database Sample.one_account
                Sample.two_accounts "alice" "password1" "alice@example.com" "Alice A"
                [Sample.alice; Sample.bobby]
                "carol" "another-password" "new@example.com" "Alice Again"
                ltac:(run) sample_later ltac:(run)) as (_ & A & _).
  pose proof (registered_names_stay_taken Sample.database Sample.one_account
                Sample.two_accounts "alice" "password1" "alice@example.com" "Alice A"
                [Sample.alice; Sample.bobby]
                "carol" "another-password" "ignored@example.com" "Carol C"
                ltac:(run) sample_later ltac:(run)) as (_ & _ & B).
  split; [apply A; run|apply B; [run|]].
  cbn [map row_username Sample.alice Sample.bobby]. intros [H|[H|[]]]; discriminate H.
Defined.

Lemma authenticate_user_exact_witness :
  authenticate_user "bobby" "password1" Sample.two_accounts = (Ok true, Sample.two_accounts) /\
  authenticate_user "bobby" "Password1" Sample.two_accounts
    = (Ok false, add_event login_failed Sample.two_accounts).
Proof.
  assert (N : List.NoDup (map row_username [Sample.alice; Sample.bobby])).
  { cbn [map row_username Sample.alice Sample.bobby].
    repeat constructor; cbn [In]; intuition discriminate. }
  pose proof (authenticate_user_exact Sample.two_accounts [Sample.alice; Sample.bobby]
                "bobby" "password1" ltac:(run) N) as (A & _).
  pose proof (authenticate_user_exact Sample.two_accounts [Sample.alice; Sample.bobby]
                "bobby" "Password1" ltac:(run) N) as (B & _).
  split; [rewrite A; run|rewrite B; run].
Defined.

Lemma reset_form_then_predict_witness :
  trace (snd (predict_diabetes Sample.runtime (Some Sample.classifier)
                (reset_form Sample.form) Sample.fresh))
    = [ShowError "Input Error"
         "Invalid Pregnancies: could not convert string to float: ''"].
Proof.
  pose proof (reset_form_then_predict Sample.runtime Sample.classifier Sample.form
                Sample.fresh eq_refl ltac:(discriminate)) as (_ & _ & T & _).
  exact T.
Defined.

Lemma login_action_gate_witness :
  login_action (emit (ShowInfo "Main" "started")) "alice" "password1" Sample.two_accounts
    = (Ok tt, add_event (ShowInfo "Main" "started") Sample.two_accounts) /\
  login_action (emit (ShowInfo "Main" "started")) "alice" "password2" Sample.two_accounts
    = (Ok tt, add_event login_failed Sample.two_accounts).
Proof.
  assert (N : List.NoDup (map row_username [Sample.alice; Sample.bobby])).
  { cbn [map row_username Sample.alice Sample.bobby].
    repeat constructor; cbn [In]; intuition discriminate. }
  pose proof (login_action_gate (emit (ShowInfo "Main" "started")) Sample.two_accounts
                [Sample.alice; Sample.bobby] "alice" "password1" ltac:(run) N) as (A & _).
  pose proof (login_action_gate (emit (ShowInfo "Main" "started")) Sample.two_accounts
                [Sample.alice; Sample.bobby] "alice" "password2" ltac:(run) N) as (_ & B).
  split.
  - rewrite A; [reflexivity|]. exists Sample.alice. cbn. auto.
  - apply B. intros (r & [<-|[<-|[]]] & E & P); [|discriminate E].
    revert P. vm_compute. discriminate.
Defined.

Lemma register_action_confirms_password_witness :
  register_action (emit (ShowInfo "Login" "shown")) "carol" "password3" "password4"
    "carol@example.com" "Carol C" Sample.two_accounts
    = (Ok tt, add_event (ShowError "Error" "Passwords do not match") Sample.two_accounts).
Proof.
  exact (register_action_confirms_password (emit (ShowInfo "Login" "shown"))
           Sample.two_accounts [Sample.alice; Sample.bobby]
           "carol" "password3" "password4" "carol@example.com" "Carol C" ltac:(run)).
Defined.
